(** * DxMian business management platform: row-level security, booking
      lifecycle and form validation

    A shallow embedding of the parts of the repository that carry its
    consistency rules:

    - [Slug]: [generateSlug] of the business set-up page;
    - [Rls]: the row-level-security policies created by the SQL migration
      scripts, and PostgreSQL's rule for combining them;
    - [Client]: the database requests issued by the React pages (bookings,
      services, customers, registration) and by the auth context (sign-in,
      sign-up), as programs over an explicit request/response interface,
      run against a model of the tables with their foreign keys. *)

From stdpp Require Import gmap strings list finite pretty.
From Stdlib Require Import ZArith NArith QArith Lia.

Set Default Proof Using "Type".
Open Scope Z_scope.

(* ===================================================================== *)
(** ** generateSlug (BusinessSetup page)                                   *)
(* ===================================================================== *)

Module Slug.

(** A JavaScript string is a sequence of UTF-16 code units. *)
Definition jsstring := list N.

Definition hyphen : N := 45%N.

(** The character class [a-z0-9] of the first regular expression. *)
Definition is_lower (c : N) : bool := (97 <=? c)%N && (c <=? 122)%N.
Definition is_digit (c : N) : bool := (48 <=? c)%N && (c <=? 57)%N.
Definition is_alnum (c : N) : bool := is_lower c || is_digit c.

(** [.replace(/[^a-z0-9]+/g, '-')]: every maximal run of code units outside
    [a-z0-9] becomes one hyphen. [in_run] records that the scan is inside
    a run whose hyphen has already been emitted. *)
Fixpoint replace_runs (in_run : bool) (s : jsstring) : jsstring :=
  match s with
  | [] => []
  | c :: t =>
      if is_alnum c then c :: replace_runs false t
      else if in_run then replace_runs true t
      else hyphen :: replace_runs true t
  end.

(** [.replace(/(^-|-$)/g, '')]: one hyphen at the start and one hyphen at
    the end are deleted (a lone hyphen is matched by the first
    alternative). *)
Definition strip_first (s : jsstring) : jsstring :=
  match s with
  | c :: t => if (c =? hyphen)%N then t else s
  | [] => []
  end.

Fixpoint strip_last (s : jsstring) : jsstring :=
  match s with
  | [] => []
  | [c] => if (c =? hyphen)%N then [] else [c]
  | c :: t => c :: strip_last t
  end.

Definition strip_edges (s : jsstring) : jsstring := strip_last (strip_first s).

(** [String.prototype.toLowerCase] restricted to the ASCII range; code
    units above 127 are left alone. It is the instance used to run the
    function on concrete inputs. *)
Definition ascii_lower_cu (c : N) : N :=
  if (65 <=? c)%N && (c <=? 90)%N then (c + 32)%N else c.
Definition ascii_toLowerCase (s : jsstring) : jsstring := map ascii_lower_cu s.

(** What the claim says about the result. *)
Definition slug_char (c : N) : bool := is_alnum c || (c =? hyphen)%N.

Fixpoint no_double_hyphen (s : jsstring) : bool :=
  match s with
  | c :: (d :: _) as t =>
      negb ((c =? hyphen)%N && (d =? hyphen)%N) && no_double_hyphen t
  | _ => true
  end.

Definition no_leading_hyphen (s : jsstring) : bool :=
  match s with c :: _ => negb (c =? hyphen)%N | [] => true end.

Definition no_trailing_hyphen (s : jsstring) : bool :=
  match last s with Some c => negb (c =? hyphen)%N | None => true end.

Definition is_slug (s : jsstring) : bool :=
  forallb slug_char s && no_double_hyphen s
  && no_leading_hyphen s && no_trailing_hyphen s.

Section generateSlug.

(** The built-in [toLowerCase] (the Unicode case tables are not part of
    the repository). All that is used of it: strings made of [a-z0-9-]
    are already in lower case. *)
Variable toLowerCase : jsstring -> jsstring.
Hypothesis toLowerCase_slug :
  forall s, forallb slug_char s = true -> toLowerCase s = s.

Definition generateSlug (name : jsstring) : jsstring :=
  strip_edges (replace_runs false (toLowerCase name)).

End generateSlug.

End Slug.

(* ===================================================================== *)
(** ** Row-level security: policies and migration scripts                  *)
(* ===================================================================== *)

Module Rls.

(** Identifiers ([uuid] columns) are the strings the client handles. *)
Definition uuid := string.

Inductive user_role := BUSINESS_OWNER | STAFF | CUSTOMER.

(** The business-scoped tables the policies below are attached to,
    [payments] and [staff_invites]. The core schema also creates
    [business_hours], [staff], [staff_schedules] and [time_offs]; a
    statement on one table never changes the policies of another, so they
    are left out. *)
Inductive table :=
  | T_users | T_businesses | T_services | T_customers | T_bookings
  | T_payments | T_booking_settings | T_staff_invites.

Inductive command := SELECT | INSERT | UPDATE | DELETE.

(** [FOR ALL] or [FOR <command>]. *)
Inductive for_clause := FOR_ALL | FOR (c : command).

(** The database roles of a request: [anon] without a session,
    [authenticated] with one. *)
Inductive dbrole := anon | authenticated.

#[global] Instance table_eq_dec : EqDecision table.
Proof. solve_decision. Defined.
#[global] Program Instance table_finite : Finite table := {|
  enum := [T_users; T_businesses; T_services; T_customers; T_bookings;
           T_payments; T_booking_settings; T_staff_invites]
|}.
Next Obligation. apply (bool_decide_eq_true_1 _). reflexivity. Qed.
Next Obligation. destruct x; apply (bool_decide_eq_true_1 _); reflexivity. Qed.

#[global] Instance user_role_eq_dec : EqDecision user_role.
Proof. solve_decision. Defined.
#[global] Instance command_eq_dec : EqDecision command.
Proof. solve_decision. Defined.
#[global] Instance dbrole_eq_dec : EqDecision dbrole.
Proof. solve_decision. Defined.

(** The columns the policy expressions read. [business_id] is nullable on
    [users] and [NOT NULL] on the other tables that have it; [role] is a
    column of [users], [is_active] of [services], [booking_id] of
    [payments]. *)
Record row := Row {
  id : uuid;
  business_id : option uuid;
  role : user_role;
  is_active : bool;
  booking_id : option uuid;
}.

(** [auth.uid()] and [auth.role()] of the request. *)
Record session := Session {
  auth_uid : option uuid;
  auth_role : dbrole;
}.

(** What the sub-selects of the policy expressions range over. The
    sub-selects on [users] compare the row's [id] (or select it to compare)
    with [auth.uid()], so they depend on the caller's own [users] row only;
    every [users] SELECT policy that ends up in force lets the caller read
    that row. *)
Record tables := Tables {
  t_users : list row;
  t_businesses : list row;
  t_bookings : list row;
}.

(** A [USING] or [WITH CHECK] expression, evaluated on a row. SQL's
    three-valued logic is folded into [bool]: a row passes only if the
    expression is true, so a comparison with NULL gives [false]. *)
Definition qual := session -> tables -> row -> bool.

Definition is_owner (u : row) : bool := bool_decide (role u = BUSINESS_OWNER).

(** [true] *)
Definition q_true : qual := fun _ _ _ => true.

(** [auth.uid() = id] *)
Definition q_uid_is_id : qual :=
  fun s _ r => bool_decide (auth_uid s = Some (id r)).

(** [auth.uid() IS NOT NULL] *)
Definition q_uid_not_null : qual :=
  fun s _ _ => bool_decide (is_Some (auth_uid s)).

(** [auth.role() = 'authenticated'] *)
Definition q_role_authenticated : qual :=
  fun s _ _ => bool_decide (auth_role s = authenticated).

(** [is_active = true] *)
Definition q_is_active : qual := fun _ _ r => is_active r.

(** [b IN (SELECT business_id FROM users WHERE id = auth.uid())], with
    [AND role = 'BUSINESS_OWNER'] when [owner_only]. *)
Definition in_own_business (owner_only : bool) (s : session) (db : tables)
    (b : uuid) : bool :=
  existsb (fun u =>
      bool_decide (auth_uid s = Some (id u))
      && (negb owner_only || is_owner u)
      && bool_decide (business_id u = Some b))
    (t_users db).

(** [business_id IN (SELECT business_id FROM users WHERE id = auth.uid()
    [AND role = 'BUSINESS_OWNER'])] *)
Definition q_business_id_in_own (owner_only : bool) : qual :=
  fun s db r =>
    match business_id r with
    | Some b => in_own_business owner_only s db b
    | None => false
    end.

(** [id IN (SELECT business_id FROM users WHERE id = auth.uid()
    [AND role = 'BUSINESS_OWNER'])], on [businesses]. *)
Definition q_id_in_own (owner_only : bool) : qual :=
  fun s db r => in_own_business owner_only s db (id r).

(** [auth.uid() IN (SELECT id FROM users WHERE role = 'BUSINESS_OWNER')] *)
Definition q_uid_is_an_owner : qual :=
  fun s db _ =>
    existsb (fun u => is_owner u && bool_decide (auth_uid s = Some (id u)))
      (t_users db).

(** [business_id IN (SELECT id FROM businesses WHERE id IN (SELECT
    business_id FROM users WHERE id = auth.uid() AND role =
    'BUSINESS_OWNER'))], on [users] (core schema). *)
Definition q_business_id_in_owned_businesses : qual :=
  fun s db r =>
    match business_id r with
    | Some b =>
        existsb (fun bz => bool_decide (id bz = b)
                           && in_own_business true s db (id bz))
          (t_businesses db)
    | None => false
    end.

(** [EXISTS (SELECT 1 FROM users AS owner WHERE owner.id = auth.uid() AND
    owner.role = 'BUSINESS_OWNER' AND owner.business_id = <row>.business_id)] *)
Definition q_exists_owner_of_row_business : qual :=
  fun s db r =>
    existsb (fun o =>
        bool_decide (auth_uid s = Some (id o)) && is_owner o
        && match business_id o, business_id r with
           | Some a, Some b => bool_decide (a = b)
           | _, _ => false
           end)
      (t_users db).

(** [EXISTS (SELECT 1 FROM users AS staff WHERE staff.id = auth.uid() AND
    staff.business_id = users.business_id AND staff.role IN
    ('BUSINESS_OWNER', 'STAFF'))] *)
Definition q_exists_member_of_row_business : qual :=
  fun s db r =>
    existsb (fun o =>
        bool_decide (auth_uid s = Some (id o))
        && match business_id o, business_id r with
           | Some a, Some b => bool_decide (a = b)
           | _, _ => false
           end
        && (bool_decide (role o = BUSINESS_OWNER) || bool_decide (role o = STAFF)))
      (t_users db).

(** [booking_id IN (SELECT id FROM bookings WHERE business_id IN (SELECT
    business_id FROM users WHERE id = auth.uid()))], on [payments]. *)
Definition q_booking_in_own_business : qual :=
  fun s db r =>
    match booking_id r with
    | Some k =>
        existsb (fun bk => bool_decide (id bk = k)
                           && q_business_id_in_own false s db bk)
          (t_bookings db)
    | None => false
    end.

(** A policy. All policies of the repository are permissive. [p_to = None]
    is a policy without a [TO] clause, which applies to every role. *)
Record policy := Policy {
  p_for : for_clause;
  p_to : option (list dbrole);
  p_using : option qual;
  p_check : option qual;
}.

Definition for_applies (f : for_clause) (c : command) : bool :=
  match f with
  | FOR_ALL => true
  | FOR c' => bool_decide (c' = c)
  end.

Definition to_applies (t : option (list dbrole)) (r : dbrole) : bool :=
  match t with
  | None => true
  | Some l => bool_decide (r ∈ l)
  end.

Definition applicable (p : policy) (c : command) (s : session) : bool :=
  for_applies (p_for p) c && to_applies (p_to p) (auth_role s).

(** A policy without [USING] lets every row pass; a policy without
    [WITH CHECK] checks new rows with its [USING] expression. *)
Definition using_ok (p : policy) : qual :=
  fun s db r => match p_using p with Some q => q s db r | None => true end.

Definition check_ok (p : policy) : qual :=
  fun s db r => match p_check p with Some q => q s db r | None => using_ok p s db r end.

(** Per table: whether row-level security is enabled, and the policies by
    name. *)
Record tstate := TState {
  rls_enabled : bool;
  policies : gmap string policy;
}.

Abbreviation pstate := (gmap table tstate).

(** A fresh table has row-level security disabled and no policy. *)
Definition fresh : tstate := TState false ∅.
Definition initial : pstate := ∅.

Definition table_state (S : pstate) (t : table) : tstate :=
  default fresh (S !! t).

Definition upd (t : table) (f : tstate -> tstate) (S : pstate) : pstate :=
  <[t := f (table_state S t)]> S.

(** The statements of the scripts that touch policies. [DROP_ALL_POLICIES]
    is the [DO] block that loops over [pg_policy] and drops every policy
    of the table. *)
Inductive stmt :=
  | CREATE_POLICY (name : string) (t : table) (p : policy)
  | DROP_POLICY_IF_EXISTS (name : string) (t : table)
  | DROP_ALL_POLICIES (t : table)
  | ENABLE_RLS (t : table)
  | DISABLE_RLS (t : table).

(** [CREATE POLICY] fails when the table already has a policy of that
    name. *)
Definition exec (st : stmt) (S : pstate) : option pstate :=
  match st with
  | CREATE_POLICY name t p =>
      match policies (table_state S t) !! name with
      | Some _ => None
      | None =>
          Some (upd t (fun ts => TState (rls_enabled ts) (<[name := p]> (policies ts))) S)
      end
  | DROP_POLICY_IF_EXISTS name t =>
      Some (upd t (fun ts => TState (rls_enabled ts) (delete name (policies ts))) S)
  | DROP_ALL_POLICIES t =>
      Some (upd t (fun ts => TState (rls_enabled ts) ∅) S)
  | ENABLE_RLS t => Some (upd t (fun ts => TState true (policies ts)) S)
  | DISABLE_RLS t => Some (upd t (fun ts => TState false (policies ts)) S)
  end.

Definition script := list stmt.

Fixpoint run (sc : script) (S : pstate) : option pstate :=
  match sc with
  | [] => Some S
  | st :: rest =>
      match exec st S with
      | Some S' => run rest S'
      | None => None
      end
  end.

Definition run_all (scripts : list script) (S : pstate) : option pstate :=
  run (concat scripts) S.

(** PostgreSQL's rule for permissive policies: with row-level security
    enabled, a row passes if some applicable policy lets it pass; with it
    disabled, every row passes. *)
Definition some_policy (ts : tstate) (f : policy -> bool) : bool :=
  existsb (fun np => f np.2) (map_to_list (policies ts)).

Definition using_grants (S : pstate) (t : table) (c : command) : qual :=
  fun s db r =>
    negb (rls_enabled (table_state S t))
    || some_policy (table_state S t) (fun p => applicable p c s && using_ok p s db r).

Definition check_grants (S : pstate) (t : table) (c : command) : qual :=
  fun s db r =>
    negb (rls_enabled (table_state S t))
    || some_policy (table_state S t) (fun p => applicable p c s && check_ok p s db r).

(** May the caller run command [c] on row [r] of table [t]? For SELECT,
    UPDATE and DELETE, [r] is an existing row and must pass [USING]; for
    INSERT, [r] is the new row and must pass [WITH CHECK]. The new version
    of an updated row must also pass [check_grants _ _ UPDATE]. *)
Definition access (S : pstate) (t : table) (c : command) : qual :=
  match c with
  | INSERT => check_grants S t INSERT
  | _ => using_grants S t c
  end.

(** *** The migration scripts

    Only the statements that create or drop policies or switch row-level
    security are listed, in the order of the script. *)

Definition to_authenticated := Some [authenticated].
Definition to_anon := Some [anon].

(** [FOR SELECT TO <roles> USING (q)] and the like. *)
Definition for_select (to : option (list dbrole)) (q : qual) : policy :=
  Policy (FOR SELECT) to (Some q) None.
Definition for_insert (to : option (list dbrole)) (q : qual) : policy :=
  Policy (FOR INSERT) to None (Some q).
Definition for_update (to : option (list dbrole)) (q : qual)
    (chk : option qual) : policy :=
  Policy (FOR UPDATE) to (Some q) chk.
Definition for_all (to : option (list dbrole)) (q : qual)
    (chk : option qual) : policy :=
  Policy FOR_ALL to (Some q) chk.

(** The core schema (README: [20251031111736_create_core_schema.sql]; its
    text is in [20250101000002_add_notification_preferences.sql] from
    line 8). *)
Definition create_core_schema : script := [
  ENABLE_RLS T_users;
  ENABLE_RLS T_businesses;
  ENABLE_RLS T_services;
  ENABLE_RLS T_customers;
  ENABLE_RLS T_bookings;
  ENABLE_RLS T_payments;
  ENABLE_RLS T_booking_settings;
  CREATE_POLICY "Users can view own profile" T_users
    (for_select to_authenticated q_uid_is_id);
  CREATE_POLICY "Users can update own profile" T_users
    (for_update to_authenticated q_uid_is_id (Some q_uid_is_id));
  CREATE_POLICY "Business owners can view their staff" T_users
    (for_select to_authenticated q_business_id_in_owned_businesses);
  CREATE_POLICY "Business owners can view their business" T_businesses
    (for_select to_authenticated (q_id_in_own false));
  CREATE_POLICY "Business owners can update their business" T_businesses
    (for_update to_authenticated (q_id_in_own true) (Some (q_id_in_own true)));
  CREATE_POLICY "Anyone can view businesses for booking" T_businesses
    (for_select to_anon q_true);
  CREATE_POLICY "New business owners can create businesses" T_businesses
    (for_insert to_authenticated q_uid_is_an_owner);
  CREATE_POLICY "Business members can view their services" T_services
    (for_select to_authenticated (q_business_id_in_own false));
  CREATE_POLICY "Public can view active services" T_services
    (for_select to_anon q_is_active);
  CREATE_POLICY "Business owners can manage services" T_services
    (for_all to_authenticated (q_business_id_in_own true)
       (Some (q_business_id_in_own true)));
  CREATE_POLICY "Business members can view their customers" T_customers
    (for_select to_authenticated (q_business_id_in_own false));
  CREATE_POLICY "Business members can manage customers" T_customers
    (for_all to_authenticated (q_business_id_in_own false)
       (Some (q_business_id_in_own false)));
  CREATE_POLICY "Business members can view their bookings" T_bookings
    (for_select to_authenticated (q_business_id_in_own false));
  CREATE_POLICY "Business members can manage bookings" T_bookings
    (for_all to_authenticated (q_business_id_in_own false)
       (Some (q_business_id_in_own false)));
  CREATE_POLICY "Public can create bookings" T_bookings
    (for_insert to_anon q_true);
  CREATE_POLICY "Business members can view their payments" T_payments
    (for_select to_authenticated q_booking_in_own_business);
  CREATE_POLICY "Business members can manage payments" T_payments
    (for_all to_authenticated q_booking_in_own_business
       (Some q_booking_in_own_business));
  CREATE_POLICY "Business members can view their booking settings"
    T_booking_settings
    (for_select to_authenticated (q_business_id_in_own false));
  CREATE_POLICY "Public can view booking settings" T_booking_settings
    (for_select to_anon q_true);
  CREATE_POLICY "Business owners can manage booking settings"
    T_booking_settings
    (for_all to_authenticated (q_business_id_in_own true)
       (Some (q_business_id_in_own true)))
].

(** [20250101000000_fix_users_rls_for_auth.sql] *)
Definition fix_users_rls_for_auth : script := [
  DROP_POLICY_IF_EXISTS "Users can select own profile by id" T_users;
  DROP_POLICY_IF_EXISTS "Users can view own profile" T_users;
  DROP_POLICY_IF_EXISTS "Users can select own profile" T_users;
  DROP_POLICY_IF_EXISTS "Users can insert own profile" T_users;
  DROP_POLICY_IF_EXISTS "Users can update own profile" T_users;
  DROP_POLICY_IF_EXISTS "Business owners can view their staff" T_users;
  DROP_POLICY_IF_EXISTS "enable_read_for_authenticated_users" T_users;
  DROP_POLICY_IF_EXISTS "Allow all operations during development" T_users;
  DROP_POLICY_IF_EXISTS "enable_insert_for_own_profile" T_users;
  DROP_POLICY_IF_EXISTS "enable_update_for_own_profile" T_users;
  DROP_POLICY_IF_EXISTS "Allow read access to authenticated users" T_users;
  DROP_POLICY_IF_EXISTS "Allow users to insert their own profile" T_users;
  DROP_POLICY_IF_EXISTS "Allow users to update their own profile" T_users;
  ENABLE_RLS T_users;
  CREATE_POLICY "Users can select own profile" T_users
    (for_select to_authenticated q_uid_is_id);
  CREATE_POLICY "Users can insert own profile" T_users
    (for_insert to_authenticated q_uid_is_id);
  CREATE_POLICY "Users can update own profile" T_users
    (for_update to_authenticated q_uid_is_id (Some q_uid_is_id));
  CREATE_POLICY "Business owners can view their staff" T_users
    (for_select to_authenticated q_exists_owner_of_row_business)
].

(** [20250101000001_fix_rls_no_recursion.sql] *)
Definition fix_rls_no_recursion : script := [
  DROP_ALL_POLICIES T_users;
  ENABLE_RLS T_users;
  CREATE_POLICY "Users can select own profile" T_users
    (for_select to_authenticated q_uid_is_id);
  CREATE_POLICY "Users can insert own profile" T_users
    (for_insert to_authenticated q_uid_is_id);
  CREATE_POLICY "Users can update own profile" T_users
    (for_update to_authenticated q_uid_is_id (Some q_uid_is_id))
].

(** [20250101000002_add_notification_preferences.sql], lines 1-5, adds
    three columns to [booking_settings]; the script of README step 4
    ([20250101000003_auto_create_user_profile.sql]) creates two trigger
    functions; [20251031111740_create_missing_user.sql] inserts one user.
    None of them has a policy statement. *)
Definition add_notification_preferences : script := [].
Definition auto_create_user_profile : script := [].
Definition create_missing_user : script := [].

(** README step 5, [20250101000004_create_staff_invites.sql]. *)
Definition create_staff_invites : script := [
  ENABLE_RLS T_staff_invites;
  CREATE_POLICY "Business owners can manage invites" T_staff_invites
    (for_all to_authenticated q_exists_owner_of_row_business None);
  CREATE_POLICY "Anyone can read invite by token" T_staff_invites
    (for_select (Some [anon; authenticated]) q_true)
].

(** [20251031111741_simplify_rls_policies.sql] *)
Definition simplify_rls_policies : script := [
  DROP_POLICY_IF_EXISTS "Enable full access to authenticated users" T_users;
  DROP_POLICY_IF_EXISTS "Allow public read" T_users;
  DISABLE_RLS T_users;
  ENABLE_RLS T_users;
  CREATE_POLICY "Enable read access for all users" T_users
    (for_select None q_true);
  CREATE_POLICY "Enable write access for own profile" T_users
    (for_update None q_uid_is_id None);
  CREATE_POLICY "Enable insert for new profiles" T_users
    (for_insert None q_uid_is_id)
].

(** [20251031111742_fix_infinite_recursion.sql] *)
Definition fix_infinite_recursion : script := [
  DROP_POLICY_IF_EXISTS "Enable read access for all users" T_users;
  DROP_POLICY_IF_EXISTS "Enable write access for own profile" T_users;
  DROP_POLICY_IF_EXISTS "Enable insert for new profiles" T_users;
  DROP_POLICY_IF_EXISTS "Users can read own profile" T_users;
  DROP_POLICY_IF_EXISTS "Users can update own profile" T_users;
  DROP_POLICY_IF_EXISTS "Allow new profile creation" T_users;
  DISABLE_RLS T_users;
  ENABLE_RLS T_users;
  CREATE_POLICY "Users can read own profile" T_users
    (for_select None q_uid_not_null);
  CREATE_POLICY "Users can update own profile" T_users
    (for_update None q_uid_is_id (Some q_uid_is_id));
  CREATE_POLICY "Allow new profile creation" T_users
    (for_insert None q_uid_is_id)
].

(** [20251103112302_fix_rls_policies_again.sql] *)
Definition fix_rls_policies_again : script := [
  DROP_POLICY_IF_EXISTS "Enable read access for all users" T_users;
  DROP_POLICY_IF_EXISTS "Enable write access for own profile" T_users;
  DROP_POLICY_IF_EXISTS "Enable insert for new profiles" T_users;
  DROP_POLICY_IF_EXISTS "Users can read own profile" T_users;
  DROP_POLICY_IF_EXISTS "Users can update own profile" T_users;
  DROP_POLICY_IF_EXISTS "Allow new profile creation" T_users;
  DROP_POLICY_IF_EXISTS "Enable full access to authenticated users" T_users;
  DISABLE_RLS T_users;
  CREATE_POLICY "Allow read access to authenticated users" T_users
    (for_select None q_role_authenticated);
  CREATE_POLICY "Allow users to insert their own profile" T_users
    (for_insert None q_uid_is_id);
  CREATE_POLICY "Allow users to update their own profile" T_users
    (for_update None q_uid_is_id (Some q_uid_is_id));
  ENABLE_RLS T_users
].

(** The script with ["Enable full access to authenticated users"]
    (unnamed/part_001). *)
Definition enable_full_access : script := [
  DROP_POLICY_IF_EXISTS "Enable read access for all users" T_users;
  DROP_POLICY_IF_EXISTS "Enable write access for own profile" T_users;
  DROP_POLICY_IF_EXISTS "Enable insert for new profiles" T_users;
  DROP_POLICY_IF_EXISTS "Users can read own profile" T_users;
  DROP_POLICY_IF_EXISTS "Users can update own profile" T_users;
  DROP_POLICY_IF_EXISTS "Allow new profile creation" T_users;
  DISABLE_RLS T_users;
  ENABLE_RLS T_users;
  CREATE_POLICY "Enable full access to authenticated users" T_users
    (for_all None q_uid_not_null (Some q_uid_not_null))
].

(** The script with ["Allow all reads"] (unnamed/part_012, lines 1-26). *)
Definition allow_all_reads : script := [
  DROP_POLICY_IF_EXISTS "Enable read access for all users" T_users;
  DROP_POLICY_IF_EXISTS "Enable write access for own profile" T_users;
  DROP_POLICY_IF_EXISTS "Enable insert for new profiles" T_users;
  DROP_POLICY_IF_EXISTS "Users can read own profile" T_users;
  DROP_POLICY_IF_EXISTS "Users can update own profile" T_users;
  DROP_POLICY_IF_EXISTS "Allow new profile creation" T_users;
  DROP_POLICY_IF_EXISTS "Enable full access to authenticated users" T_users;
  DISABLE_RLS T_users;
  CREATE_POLICY "Allow all reads" T_users (for_select None q_true);
  ENABLE_RLS T_users
].

(** The script with ["enable_read_for_authenticated_users"]
    (unnamed/part_014). *)
Definition enable_read_for_authenticated_users : script := [
  DROP_POLICY_IF_EXISTS "Enable read access for all users" T_users;
  DROP_POLICY_IF_EXISTS "Enable write access for own profile" T_users;
  DROP_POLICY_IF_EXISTS "Enable insert for new profiles" T_users;
  DROP_POLICY_IF_EXISTS "Users can read own profile" T_users;
  DROP_POLICY_IF_EXISTS "Users can update own profile" T_users;
  DROP_POLICY_IF_EXISTS "Allow new profile creation" T_users;
  DROP_POLICY_IF_EXISTS "Enable full access to authenticated users" T_users;
  DROP_POLICY_IF_EXISTS "Allow read access to authenticated users" T_users;
  DROP_POLICY_IF_EXISTS "Allow users to insert their own profile" T_users;
  DROP_POLICY_IF_EXISTS "Allow users to update their own profile" T_users;
  DISABLE_RLS T_users;
  ENABLE_RLS T_users;
  CREATE_POLICY "enable_read_for_authenticated_users" T_users
    (for_select None q_true);
  CREATE_POLICY "enable_insert_for_own_profile" T_users
    (for_insert None q_uid_is_id);
  CREATE_POLICY "enable_update_for_own_profile" T_users
    (for_update None q_uid_is_id (Some q_uid_is_id))
].

(** The script with ["Allow all operations during development"]
    (unnamed/part_003, lines 1-19). *)
Definition allow_all_during_development : script := [
  DROP_POLICY_IF_EXISTS "Users can read own profile" T_users;
  DROP_POLICY_IF_EXISTS "Users can update own profile" T_users;
  DROP_POLICY_IF_EXISTS "Users can create their profile once" T_users;
  DROP_POLICY_IF_EXISTS "Users can insert their own profile" T_users;
  DROP_POLICY_IF_EXISTS "Enable read access for all users" T_users;
  DROP_POLICY_IF_EXISTS "Enable insert for authenticated users only" T_users;
  DROP_POLICY_IF_EXISTS "Enable update for users based on email" T_users;
  ENABLE_RLS T_users;
  CREATE_POLICY "Allow all operations during development" T_users
    (for_all None q_true (Some q_true))
].

(** The script that ends with the notice ['RLS policies have been
    successfully updated.'] (unnamed/part_012, lines 27-91). *)
Definition rls_policies_updated : script := [
  DROP_POLICY_IF_EXISTS "Users can read own data" T_users;
  DROP_POLICY_IF_EXISTS "Users can update own data" T_users;
  DROP_POLICY_IF_EXISTS "Business staff can read their customers" T_users;
  DROP_POLICY_IF_EXISTS "Allow public read for auth" T_users;
  DROP_POLICY_IF_EXISTS "Business owners can manage their business" T_businesses;
  DROP_POLICY_IF_EXISTS "Staff can read business data" T_businesses;
  DROP_POLICY_IF_EXISTS "Public can read business info" T_businesses;
  DISABLE_RLS T_users;
  DISABLE_RLS T_businesses;
  DISABLE_RLS T_services;
  DISABLE_RLS T_bookings;
  DISABLE_RLS T_customers;
  DISABLE_RLS T_booking_settings;
  ENABLE_RLS T_users;
  CREATE_POLICY "Users can read own data" T_users
    (for_select to_authenticated q_uid_is_id);
  CREATE_POLICY "Users can update own data" T_users
    (for_update to_authenticated q_uid_is_id None);
  CREATE_POLICY "Public can read user data" T_users
    (for_select to_anon q_true);
  CREATE_POLICY "Users can insert own data" T_users
    (for_insert to_authenticated q_uid_is_id);
  CREATE_POLICY "Staff can view business users" T_users
    (for_select to_authenticated q_exists_member_of_row_business)
].

(** The script that drops every policy of [users] and creates three
    policies ["... by id"] (unnamed/part_015, lines 48-89). *)
Definition users_policies_by_id : script := [
  DROP_ALL_POLICIES T_users;
  ENABLE_RLS T_users;
  CREATE_POLICY "Users can select own profile by id" T_users
    (for_select None q_uid_is_id);
  CREATE_POLICY "Users can insert own profile by id" T_users
    (for_insert None q_uid_is_id);
  CREATE_POLICY "Users can update own profile by id" T_users
    (for_update None q_uid_is_id (Some q_uid_is_id))
].

(** The order the README gives for setting up the database ("Run
    migrations from supabase/migrations/ in order"). *)
Definition readme_order : list script := [
  create_core_schema;
  fix_rls_no_recursion;
  add_notification_preferences;
  auto_create_user_profile;
  create_staff_invites
].

Definition after_readme_order : option pstate := run_all readme_order initial.

(** *** The isolation property *)

(** The business a row belongs to: a [businesses] row is its own business. *)
Definition business_ref (t : table) (r : row) : option uuid :=
  match t with
  | T_businesses => Some (id r)
  | _ => business_id r
  end.

(** The caller's [users] row, and the business it names. *)
Definition own_row (db : tables) (s : session) : option row :=
  List.find (fun u => bool_decide (auth_uid s = Some (id u))) (t_users db).

Definition own_business (db : tables) (s : session) : option uuid :=
  match own_row db s with
  | Some u => business_id u
  | None => None
  end.

Definition business_scoped (t : table) : bool :=
  match t with
  | T_users | T_businesses | T_services | T_customers | T_bookings
  | T_booking_settings => true
  | T_payments | T_staff_invites => false
  end.

End Rls.

(* ===================================================================== *)
(** ** The client pages and the backend they talk to                       *)
(* ===================================================================== *)

Module Client.

(** *** Rows *)

Inductive BookingStatus := PENDING | CONFIRMED | COMPLETED | CANCELLED | NO_SHOW.
Inductive PaymentStatus := PAYMENT_PENDING | PAID | REFUNDED | FAILED.

#[global] Instance BookingStatus_eq_dec : EqDecision BookingStatus.
Proof. solve_decision. Defined.

(** Timestamps are milliseconds since the epoch. Prices are JavaScript
    numbers; only their order against 0 matters here, so they are
    rationals. *)
Definition timestamp := Z.

Record user := User {
  u_id : string;
  u_email : string;
  u_first_name : string;
  u_last_name : string;
  u_role : Rls.user_role;
  u_business_id : option string;
  u_email_verified : bool;
}.

Record business := Business {
  bz_id : string;
  bz_name : string;
  bz_slug : string;
}.

Record service := Service {
  sv_id : string;
  sv_business_id : string;
  sv_name : string;
  sv_description : option string;
  sv_duration : Z;
  sv_price : Q;
  sv_category : option string;
  sv_is_active : bool;
}.

Record customer := Customer {
  cu_id : string;
  cu_business_id : string;
  cu_first_name : string;
  cu_last_name : string;
  cu_email : string;
  cu_phone : option string;
  cu_notes : option string;
  cu_tags : option (list string);
  cu_last_visit : option timestamp;
}.

Record booking := Booking {
  bk_id : string;
  bk_business_id : string;
  bk_customer_id : string;
  bk_service_id : string;
  bk_staff_id : option string;
  bk_start_time : timestamp;
  bk_end_time : timestamp;
  bk_status : BookingStatus;
  bk_notes : option string;
}.

Record payment := Payment {
  pm_id : string;
  pm_booking_id : string;
  pm_amount : Q;
  pm_status : PaymentStatus;
}.

Record staff_invite := StaffInvite {
  in_id : string;
  in_business_id : string;
  in_email : string;
  in_token : string;
  in_used : bool;
  in_used_at : option timestamp;
  in_expires_at : timestamp;
}.

Record database := Database {
  users : list user;
  businesses : list business;
  services : list service;
  customers : list customer;
  bookings : list booking;
  payments : list payment;
  staff_invites : list staff_invite;
}.

(** *** Requests and responses *)

(** The [error] member of a response. *)
Record pg_error := PgError { code : string; message : string }.

Inductive result (A : Type) : Type :=
  | Ok (a : A)
  | Err (e : pg_error).
Arguments Ok {A} a.
Arguments Err {A} e.

(** The object passed to [insert] / [update] on [bookings] (the columns
    of [bookingData]). *)
Record booking_data := BookingData {
  bd_business_id : string;
  bd_customer_id : string;
  bd_service_id : string;
  bd_staff_id : option string;
  bd_start_time : timestamp;
  bd_end_time : timestamp;
  bd_notes : option string;
  bd_status : BookingStatus;
}.

(** The columns written by the services form; [sd_business_id] is sent on
    insert only. *)
Record service_data := ServiceData {
  sd_business_id : string;
  sd_name : string;
  sd_description : option string;
  sd_duration : Z;
  sd_price : Q;
  sd_category : option string;
  sd_is_active : bool;
}.

(** The columns written by the customers form; [cd_business_id] is sent
    on insert only. *)
Record customer_data := CustomerData {
  cd_business_id : string;
  cd_first_name : string;
  cd_last_name : string;
  cd_email : string;
  cd_phone : option string;
  cd_notes : option string;
  cd_tags : option (list string);
}.

(** An account of Supabase Auth, as [data.user] of [supabase.auth.signUp]
    and [signInWithPassword] shows it: [au_email_confirmed] is
    [email_confirmed_at] being set; [au_first_name], [au_last_name] and
    [au_role] are [user_metadata], which [signUp] fills in ([None] and the
    empty string stand for a missing entry). *)
Record auth_user := AuthUser {
  au_id : string;
  au_email : string;
  au_email_confirmed : bool;
  au_password : string;
  au_first_name : string;
  au_last_name : string;
  au_role : option Rls.user_role;
}.

(** What a page asks of the backend and of the browser, with the type of
    the answer. *)
Inductive event : Type -> Type :=
  (* from('bookings') *)
  | Bookings_insert (d : booking_data) : event (result string)
  | Bookings_update (d : booking_data) (id : string) : event (result unit)
  | Bookings_update_status (st : BookingStatus) (id : string) : event (result unit)
  | Bookings_delete (id : string) : event (result unit)
  | Bookings_select (business_id : string) : event (result (list booking))
  (* from('customers') *)
  | Customers_insert (d : customer_data) : event (result unit)
  | Customers_update (d : customer_data) (id : string) : event (result unit)
  | Customers_update_last_visit (t : timestamp) (id : string) : event (result unit)
  | Customers_delete (id : string) : event (result unit)
  | Customers_select (business_id : string) : event (result (list customer))
  (* from('payments') *)
  | Payments_insert (booking_id : string) (amount : Q) (st : PaymentStatus) :
      event (result unit)
  (* from('services') *)
  | Services_insert (d : service_data) : event (result unit)
  | Services_update (d : service_data) (id : string) : event (result unit)
  | Services_update_active (is_active : bool) (id : string) : event (result unit)
  | Services_delete (id : string) : event (result unit)
  | Services_select (business_id : string) : event (result (list service))
  (* from('staff_invites') *)
  | Invites_select_valid (token : string) (now : timestamp) :
      event (result staff_invite)
  | Invites_mark_used (token : string) (now : timestamp) : event (result unit)
  (* from('users') *)
  | Users_select_maybe (id : string) : event (result (option user))
  | Users_select_single (id : string) : event (result user)
  | Users_insert (u : user) : event (result user)
  (* supabase.auth *)
  | Auth_signUp (email password first_name last_name : string)
      (role : Rls.user_role) : event (result auth_user)
  | Auth_signInWithPassword (email password : string) : event (result auth_user)
  | Auth_getSession : event (option string)
  | Auth_signOut : event unit
  (* the browser *)
  | Now : event timestamp
  | Sleep (ms : Z) : event unit
  | Confirm (msg : string) : event bool
  | Alert (msg : string) : event unit
  | Console_error (msg : string) : event unit
  | Console_log (msg : string) : event unit
  | Navigate (href : string) : event unit.

(** A page handler: a finite tree of requests. *)
Inductive prog (A : Type) : Type :=
  | Ret (a : A)
  | Vis {X : Type} (e : event X) (k : X -> prog A).
Arguments Ret {A} a.
Arguments Vis {A X} e k.

Fixpoint bind {A B} (p : prog A) (f : A -> prog B) : prog B :=
  match p with
  | Ret a => f a
  | Vis e k => Vis e (fun x => bind (k x) f)
  end.

Definition call {X} (e : event X) : prog X := Vis e Ret.

(** [x ← p; q] and [p;; q] are stdpp's notations for [bind]. *)
#[global] Instance prog_ret : MRet prog := @Ret.
#[global] Instance prog_bind : MBind prog := fun A B f p => bind p f.

(** *** The backend *)

(** Supabase Auth: the registered accounts, whether a sign-up is confirmed
    at once (and then opens a session), and whether the trigger
    [on_auth_user_created] of the auto-create-profile script is
    installed. *)
Record auth_service := AuthService {
  auth_users : list auth_user;
  auto_confirm : bool;
  trigger_installed : bool;
}.

(** Everything outside the page: the tables, the policies in force, the
    auth service and the client's session, the clock, the values
    [gen_random_uuid()] will return, the failures that are not the
    database's own (one entry per request; [Some e] makes the request fail
    with [e] and without effect), and the user's answers to [confirm]. *)
Record world := World {
  db : database;
  rls : Rls.pstate;
  auth : auth_service;
  session : option string;
  clock : timestamp;
  uuids : nat -> string;
  uuid_count : nat;
  faults : list (option pg_error);
  confirms : list bool;
}.

Definition set_db (d : database) (w : world) : world :=
  World d (rls w) (auth w) (session w) (clock w) (uuids w) (uuid_count w)
    (faults w) (confirms w).
Definition set_auth (a : auth_service) (w : world) : world :=
  World (db w) (rls w) a (session w) (clock w) (uuids w) (uuid_count w)
    (faults w) (confirms w).
Definition set_session (o : option string) (w : world) : world :=
  World (db w) (rls w) (auth w) o (clock w) (uuids w) (uuid_count w)
    (faults w) (confirms w).
Definition set_clock (t : timestamp) (w : world) : world :=
  World (db w) (rls w) (auth w) (session w) t (uuids w) (uuid_count w)
    (faults w) (confirms w).
Definition set_faults (f : list (option pg_error)) (w : world) : world :=
  World (db w) (rls w) (auth w) (session w) (clock w) (uuids w) (uuid_count w)
    f (confirms w).
Definition set_confirms (c : list bool) (w : world) : world :=
  World (db w) (rls w) (auth w) (session w) (clock w) (uuids w) (uuid_count w)
    (faults w) c.

(** [gen_random_uuid()] *)
Definition next_uuid (w : world) : string * world :=
  (uuids w (uuid_count w),
   World (db w) (rls w) (auth w) (session w) (clock w) (uuids w)
     (S (uuid_count w)) (faults w) (confirms w)).

Definition set_users (l : list user) (d : database) : database :=
  Database l (businesses d) (services d) (customers d) (bookings d)
    (payments d) (staff_invites d).
Definition set_services (l : list service) (d : database) : database :=
  Database (users d) (businesses d) l (customers d) (bookings d)
    (payments d) (staff_invites d).
Definition set_customers (l : list customer) (d : database) : database :=
  Database (users d) (businesses d) (services d) l (bookings d)
    (payments d) (staff_invites d).
Definition set_bookings (l : list booking) (d : database) : database :=
  Database (users d) (businesses d) (services d) (customers d) l
    (payments d) (staff_invites d).
Definition set_payments (l : list payment) (d : database) : database :=
  Database (users d) (businesses d) (services d) (customers d) (bookings d)
    l (staff_invites d).
Definition set_staff_invites (l : list staff_invite) (d : database) : database :=
  Database (users d) (businesses d) (services d) (customers d) (bookings d)
    (payments d) l.

(** The rows as the policy expressions see them. *)
Definition user_row (u : user) : Rls.row :=
  Rls.Row (u_id u) (u_business_id u) (u_role u) true None.
Definition business_row (b : business) : Rls.row :=
  Rls.Row (bz_id b) None Rls.CUSTOMER true None.
Definition service_row (x : service) : Rls.row :=
  Rls.Row (sv_id x) (Some (sv_business_id x)) Rls.CUSTOMER (sv_is_active x) None.
Definition customer_row (x : customer) : Rls.row :=
  Rls.Row (cu_id x) (Some (cu_business_id x)) Rls.CUSTOMER true None.
Definition booking_row (x : booking) : Rls.row :=
  Rls.Row (bk_id x) (Some (bk_business_id x)) Rls.CUSTOMER true None.
Definition payment_row (x : payment) : Rls.row :=
  Rls.Row (pm_id x) None Rls.CUSTOMER true (Some (pm_booking_id x)).
Definition invite_row (x : staff_invite) : Rls.row :=
  Rls.Row (in_id x) (Some (in_business_id x)) Rls.CUSTOMER true None.

Definition rls_session (w : world) : Rls.session :=
  Rls.Session (session w)
    (match session w with Some _ => Rls.authenticated | None => Rls.anon end).

Definition rls_tables (w : world) : Rls.tables :=
  Rls.Tables (user_row <$> users (db w)) (business_row <$> businesses (db w))
    (booking_row <$> bookings (db w)).

(** May the session run the command on the row (for INSERT: the new
    row)? *)
Definition may (w : world) (t : Rls.table) (c : Rls.command) (r : Rls.row) : bool :=
  Rls.access (rls w) t c (rls_session w) (rls_tables w) r.

(** May the new version of an updated row be written? *)
Definition may_write (w : world) (t : Rls.table) (r : Rls.row) : bool :=
  Rls.check_grants (rls w) t Rls.UPDATE (rls_session w) (rls_tables w) r.

(** The rows an [UPDATE ... WHERE] or [DELETE ... WHERE] can touch: those
    the session can both read and change. *)
Definition reachable (w : world) (t : Rls.table) (c : Rls.command) (r : Rls.row) : bool :=
  may w t Rls.SELECT r && may w t c r.

Definition rls_violation : pg_error :=
  PgError "42501" "new row violates row-level security policy".
Definition fk_violation : pg_error :=
  PgError "23503" "violates foreign key constraint".
Definition unique_violation : pg_error :=
  PgError "23505" "duplicate key value violates unique constraint".
Definition not_single : pg_error :=
  PgError "PGRST116" "JSON object requested, multiple (or no) rows returned".

Definition has {A} (key : A -> string) (k : string) (l : list A) : bool :=
  existsb (fun x => bool_decide (key x = k)) l.

Definition has_opt {A} (key : A -> string) (k : option string) (l : list A) : bool :=
  match k with Some k => has key k l | None => true end.

(** A request that reaches the backend first meets the next entry of
    [faults]. *)
Definition faulty {A} (w : world) (op : world -> result A * world) :
    result A * world :=
  match faults w with
  | Some e :: fs => (Err e, set_faults fs w)
  | None :: fs => op (set_faults fs w)
  | [] => op w
  end.

(** [.single()] *)
Definition single {A} (l : list A) : result A :=
  match l with
  | [x] => Ok x
  | _ => Err not_single
  end.

(** **** bookings: [business_id], [customer_id] and [service_id] are
    [NOT NULL] foreign keys. (The [staff] table is not modelled, so
    [staff_id] is not checked.) *)
Definition booking_of (id : string) (d : booking_data) : booking :=
  Booking id (bd_business_id d) (bd_customer_id d) (bd_service_id d)
    (bd_staff_id d) (bd_start_time d) (bd_end_time d) (bd_status d)
    (bd_notes d).

Definition booking_fks_ok (d : database) (b : booking) : bool :=
  has bz_id (bk_business_id b) (businesses d)
  && has cu_id (bk_customer_id b) (customers d)
  && has sv_id (bk_service_id b) (services d).

(** [.insert(bookingData).select('id').single()] *)
Definition bookings_insert (d : booking_data) (w : world) : result string * world :=
  let '(id, w) := next_uuid w in
  let b := booking_of id d in
  if negb (may w Rls.T_bookings Rls.INSERT (booking_row b)
           && may w Rls.T_bookings Rls.SELECT (booking_row b))
  then (Err rls_violation, w)
  else if negb (booking_fks_ok (db w) b) then (Err fk_violation, w)
  else if has bk_id id (bookings (db w)) then (Err unique_violation, w)
  else (Ok id, set_db (set_bookings (bookings (db w) ++ [b]) (db w)) w).

(** [UPDATE bookings SET ... WHERE id = ...], generic in the new row;
    [fks] tells whether the statement assigns the foreign-key columns, which
    are then checked. *)
Definition bookings_update_with (fks : bool) (new : booking -> booking)
    (id : string) (w : world) : result unit * world :=
  let target b :=
    bool_decide (bk_id b = id)
    && reachable w Rls.T_bookings Rls.UPDATE (booking_row b) in
  if existsb (fun b => target b
                       && negb (may_write w Rls.T_bookings (booking_row (new b))))
       (bookings (db w))
  then (Err rls_violation, w)
  else if fks && existsb (fun b => target b
                                  && negb (booking_fks_ok (db w) (new b)))
                   (bookings (db w))
  then (Err fk_violation, w)
  else (Ok tt,
        set_db (set_bookings
                  ((fun b => if target b then new b else b) <$> bookings (db w))
                  (db w)) w).

(** [.update(bookingData).eq('id', id)] *)
Definition bookings_update (d : booking_data) : string -> world -> result unit * world :=
  bookings_update_with true (fun b => booking_of (bk_id b) d).

Definition with_status (st : BookingStatus) (b : booking) : booking :=
  Booking (bk_id b) (bk_business_id b) (bk_customer_id b) (bk_service_id b)
    (bk_staff_id b) (bk_start_time b) (bk_end_time b) st (bk_notes b).

(** [.update({ status: newStatus }).eq('id', id)] *)
Definition bookings_update_status (st : BookingStatus) :
    string -> world -> result unit * world :=
  bookings_update_with false (with_status st).

(** [DELETE FROM bookings WHERE id = ...]; [payments.booking_id] is
    [ON DELETE CASCADE]. *)
Definition bookings_delete (id : string) (w : world) : result unit * world :=
  let target b :=
    bool_decide (bk_id b = id)
    && reachable w Rls.T_bookings Rls.DELETE (booking_row b) in
  let gone := List.filter target (bookings (db w)) in
  (Ok tt,
   set_db (set_payments
             (List.filter (fun p => negb (has bk_id (pm_booking_id p) gone))
                (payments (db w)))
             (set_bookings (List.filter (fun b => negb (target b)) (bookings (db w)))
                (db w))) w).

(** [select(...).eq('business_id', ...)]; the order of the rows is left
    out. *)
Definition bookings_select (business_id : string) (w : world) :
    result (list booking) * world :=
  (Ok (List.filter (fun b => bool_decide (bk_business_id b = business_id)
                             && may w Rls.T_bookings Rls.SELECT (booking_row b))
         (bookings (db w))), w).

(** **** customers: [business_id] references [businesses];
    [(business_id, email)] is unique; [bookings.customer_id] is
    [ON DELETE CASCADE]. *)
Definition customer_of (id : string) (d : customer_data) : customer :=
  Customer id (cd_business_id d) (cd_first_name d) (cd_last_name d)
    (cd_email d) (cd_phone d) (cd_notes d) (cd_tags d) None.

Definition customer_email_taken (d : database) (c : customer) : bool :=
  existsb (fun x => negb (bool_decide (cu_id x = cu_id c))
                    && bool_decide (cu_business_id x = cu_business_id c)
                    && bool_decide (cu_email x = cu_email c))
    (customers d).

Definition customers_insert (d : customer_data) (w : world) : result unit * world :=
  let '(id, w) := next_uuid w in
  let c := customer_of id d in
  if negb (may w Rls.T_customers Rls.INSERT (customer_row c))
  then (Err rls_violation, w)
  else if negb (has bz_id (cu_business_id c) (businesses (db w)))
  then (Err fk_violation, w)
  else if has cu_id id (customers (db w)) || customer_email_taken (db w) c
  then (Err unique_violation, w)
  else (Ok tt, set_db (set_customers (customers (db w) ++ [c]) (db w)) w).

Definition customers_update_with (new : customer -> customer) (id : string)
    (w : world) : result unit * world :=
  let target c :=
    bool_decide (cu_id c = id)
    && reachable w Rls.T_customers Rls.UPDATE (customer_row c) in
  if existsb (fun c => target c
                       && negb (may_write w Rls.T_customers (customer_row (new c))))
       (customers (db w))
  then (Err rls_violation, w)
  else if existsb (fun c => target c && customer_email_taken (db w) (new c))
            (customers (db w))
  then (Err unique_violation, w)
  else (Ok tt,
        set_db (set_customers
                  ((fun c => if target c then new c else c) <$> customers (db w))
                  (db w)) w).

(** The form's update leaves [business_id] and [last_visit] alone. *)
Definition customers_update (d : customer_data) :
    string -> world -> result unit * world :=
  customers_update_with (fun c =>
    Customer (cu_id c) (cu_business_id c) (cd_first_name d) (cd_last_name d)
      (cd_email d) (cd_phone d) (cd_notes d) (cd_tags d) (cu_last_visit c)).

Definition customers_update_last_visit (t : timestamp) :
    string -> world -> result unit * world :=
  customers_update_with (fun c =>
    Customer (cu_id c) (cu_business_id c) (cu_first_name c) (cu_last_name c)
      (cu_email c) (cu_phone c) (cu_notes c) (cu_tags c) (Some t)).

Definition customers_delete (id : string) (w : world) : result unit * world :=
  let target c :=
    bool_decide (cu_id c = id)
    && reachable w Rls.T_customers Rls.DELETE (customer_row c) in
  let gone := List.filter target (customers (db w)) in
  let gone_bookings :=
    List.filter (fun b => has cu_id (bk_customer_id b) gone) (bookings (db w)) in
  (Ok tt,
   set_db (set_payments
             (List.filter (fun p => negb (has bk_id (pm_booking_id p) gone_bookings))
                (payments (db w)))
          (set_bookings
             (List.filter (fun b => negb (has cu_id (bk_customer_id b) gone))
                (bookings (db w)))
          (set_customers (List.filter (fun c => negb (target c)) (customers (db w)))
             (db w)))) w).

Definition customers_select (business_id : string) (w : world) :
    result (list customer) * world :=
  (Ok (List.filter (fun c => bool_decide (cu_business_id c = business_id)
                             && may w Rls.T_customers Rls.SELECT (customer_row c))
         (customers (db w))), w).

(** **** payments: [booking_id] is a unique, [NOT NULL] foreign key. *)
Definition payments_insert (booking_id : string) (amount : Q)
    (st : PaymentStatus) (w : world) : result unit * world :=
  let '(id, w) := next_uuid w in
  let p := Payment id booking_id amount st in
  if negb (may w Rls.T_payments Rls.INSERT (payment_row p))
  then (Err rls_violation, w)
  else if negb (has bk_id booking_id (bookings (db w)))
  then (Err fk_violation, w)
  else if has pm_id id (payments (db w))
          || has pm_booking_id booking_id (payments (db w))
  then (Err unique_violation, w)
  else (Ok tt, set_db (set_payments (payments (db w) ++ [p]) (db w)) w).

(** **** services: [business_id] references [businesses];
    [bookings.service_id] is [ON DELETE RESTRICT]. *)
Definition service_of (id : string) (d : service_data) : service :=
  Service id (sd_business_id d) (sd_name d) (sd_description d)
    (sd_duration d) (sd_price d) (sd_category d) (sd_is_active d).

Definition services_insert (d : service_data) (w : world) : result unit * world :=
  let '(id, w) := next_uuid w in
  let x := service_of id d in
  if negb (may w Rls.T_services Rls.INSERT (service_row x))
  then (Err rls_violation, w)
  else if negb (has bz_id (sv_business_id x) (businesses (db w)))
  then (Err fk_violation, w)
  else if has sv_id id (services (db w)) then (Err unique_violation, w)
  else (Ok tt, set_db (set_services (services (db w) ++ [x]) (db w)) w).

(** The form's update leaves [business_id] alone. *)
Definition services_update (d : service_data) (id : string) (w : world) :
    result unit * world :=
  let target x :=
    bool_decide (sv_id x = id)
    && reachable w Rls.T_services Rls.UPDATE (service_row x) in
  let new x :=
    Service (sv_id x) (sv_business_id x) (sd_name d) (sd_description d)
      (sd_duration d) (sd_price d) (sd_category d) (sd_is_active d) in
  if existsb (fun x => target x
                       && negb (may_write w Rls.T_services (service_row (new x))))
       (services (db w))
  then (Err rls_violation, w)
  else (Ok tt,
        set_db (set_services
                  ((fun x => if target x then new x else x) <$> services (db w))
                  (db w)) w).

(** [.update({ is_active: ... }).eq('id', id)] *)
Definition with_active (is_active : bool) (x : service) : service :=
  Service (sv_id x) (sv_business_id x) (sv_name x) (sv_description x)
    (sv_duration x) (sv_price x) (sv_category x) is_active.

Definition services_update_active (is_active : bool) (id : string) (w : world) :
    result unit * world :=
  let target x :=
    bool_decide (sv_id x = id)
    && reachable w Rls.T_services Rls.UPDATE (service_row x) in
  if existsb (fun x => target x
                       && negb (may_write w Rls.T_services
                                  (service_row (with_active is_active x))))
       (services (db w))
  then (Err rls_violation, w)
  else (Ok tt,
        set_db (set_services
                  ((fun x => if target x then with_active is_active x else x)
                     <$> services (db w))
                  (db w)) w).

Definition services_delete (id : string) (w : world) : result unit * world :=
  let target x :=
    bool_decide (sv_id x = id)
    && reachable w Rls.T_services Rls.DELETE (service_row x) in
  let gone := List.filter target (services (db w)) in
  if existsb (fun b => has sv_id (bk_service_id b) gone) (bookings (db w))
  then (Err fk_violation, w)
  else (Ok tt,
        set_db (set_services
                  (List.filter (fun x => negb (target x)) (services (db w)))
                  (db w)) w).

Definition services_select (business_id : string) (w : world) :
    result (list service) * world :=
  (Ok (List.filter (fun x => bool_decide (sv_business_id x = business_id)
                             && may w Rls.T_services Rls.SELECT (service_row x))
         (services (db w))), w).

(** **** staff_invites *)

(** [.eq('token', token).eq('used', false).gt('expires_at', now).single()] *)
Definition invites_select_valid (token : string) (now : timestamp) (w : world) :
    result staff_invite * world :=
  (single
     (List.filter (fun i => bool_decide (in_token i = token)
                            && negb (in_used i)
                            && (now <? in_expires_at i)
                            && may w Rls.T_staff_invites Rls.SELECT (invite_row i))
        (staff_invites (db w))), w).

(** [.update({ used: true, used_at: now }).eq('token', token)] *)
Definition invites_mark_used (token : string) (now : timestamp) (w : world) :
    result unit * world :=
  let target i :=
    bool_decide (in_token i = token)
    && reachable w Rls.T_staff_invites Rls.UPDATE (invite_row i) in
  let new i :=
    StaffInvite (in_id i) (in_business_id i) (in_email i) (in_token i) true
      (Some now) (in_expires_at i) in
  if existsb (fun i => target i
                       && negb (may_write w Rls.T_staff_invites (invite_row (new i))))
       (staff_invites (db w))
  then (Err rls_violation, w)
  else (Ok tt,
        set_db (set_staff_invites
                  ((fun i => if target i then new i else i) <$> staff_invites (db w))
                  (db w)) w).

(** **** users: [id] is the primary key, [email] is unique, [business_id]
    is a nullable foreign key. *)
Definition users_select (id : string) (w : world) : list user :=
  List.filter (fun u => bool_decide (u_id u = id)
                        && may w Rls.T_users Rls.SELECT (user_row u))
    (users (db w)).

(** [.maybeSingle()] *)
Definition users_select_maybe (id : string) (w : world) :
    result (option user) * world :=
  (match users_select id w with
   | [] => Ok None
   | [u] => Ok (Some u)
   | _ => Err not_single
   end, w).

Definition users_select_single (id : string) (w : world) : result user * world :=
  (single (users_select id w), w).

(** [.insert([profile]).select().single()] *)
Definition users_insert (u : user) (w : world) : result user * world :=
  if negb (may w Rls.T_users Rls.INSERT (user_row u)
           && may w Rls.T_users Rls.SELECT (user_row u))
  then (Err rls_violation, w)
  else if negb (has_opt bz_id (u_business_id u) (businesses (db w)))
  then (Err fk_violation, w)
  else if has u_id (u_id u) (users (db w)) || has u_email (u_email u) (users (db w))
  then (Err unique_violation, w)
  else (Ok u, set_db (set_users (users (db w) ++ [u]) (db w)) w).

(** **** supabase.auth *)

(** The trigger function [handle_new_user] (SECURITY DEFINER, so no policy
    applies): insert the profile, without a business, [ON CONFLICT (id) DO
    UPDATE SET email]. [None] is a unique violation on [email], which
    aborts the sign-up. *)
Definition handle_new_user (a : auth_user) (first_name last_name : string)
    (role : Rls.user_role) (d : database) : option database :=
  if has u_id (au_id a) (users d) then
    Some (set_users
            ((fun u => if bool_decide (u_id u = au_id a)
                       then User (u_id u) (au_email a) (u_first_name u)
                              (u_last_name u) (u_role u) (u_business_id u)
                              (u_email_verified u)
                       else u) <$> users d) d)
  else if has u_email (au_email a) (users d) then None
  else Some (set_users
               (users d ++ [User (au_id a) (au_email a) first_name last_name
                              role None (au_email_confirmed a)]) d).

Definition auth_signUp (email password first_name last_name : string)
    (role : Rls.user_role) (w : world) : result auth_user * world :=
  if has au_email email (auth_users (auth w))
  then (Err (PgError "user_already_exists" "User already registered"), w)
  else
    let '(id, w) := next_uuid w in
    let a :=
      AuthUser id email (auto_confirm (auth w)) password first_name last_name
        (Some role) in
    let registered w :=
      set_session (if auto_confirm (auth w) then Some id else session w)
        (set_auth (AuthService (auth_users (auth w) ++ [a])
                     (auto_confirm (auth w)) (trigger_installed (auth w))) w) in
    if trigger_installed (auth w) then
      match handle_new_user a first_name last_name role (db w) with
      | Some d => (Ok a, registered (set_db d w))
      | None =>
          (Err (PgError "unexpected_failure" "Database error saving new user"), w)
      end
    else (Ok a, registered w).

(** [signInWithPassword]: the account must exist, the password must be
    the account's and the e-mail address must be confirmed; the session is
    then the account's. *)
Definition invalid_credentials : pg_error :=
  PgError "invalid_credentials" "Invalid login credentials".

Definition auth_signIn (email password : string) (w : world) :
    result auth_user * world :=
  match List.find (fun a => bool_decide (au_email a = email)) (auth_users (auth w)) with
  | Some a =>
      if negb (bool_decide (au_password a = password))
      then (Err invalid_credentials, w)
      else if negb (au_email_confirmed a)
      then (Err (PgError "email_not_confirmed" "Email not confirmed"), w)
      else (Ok a, set_session (Some (au_id a)) w)
  | None => (Err invalid_credentials, w)
  end.

(** **** The backend and the browser, by request *)
Definition backend {X} (e : event X) : world -> X * world :=
  match e in event X return world -> X * world with
  | Bookings_insert d => fun w => faulty w (bookings_insert d)
  | Bookings_update d id => fun w => faulty w (bookings_update d id)
  | Bookings_update_status st id => fun w => faulty w (bookings_update_status st id)
  | Bookings_delete id => fun w => faulty w (bookings_delete id)
  | Bookings_select b => fun w => faulty w (bookings_select b)
  | Customers_insert d => fun w => faulty w (customers_insert d)
  | Customers_update d id => fun w => faulty w (customers_update d id)
  | Customers_update_last_visit t id =>
      fun w => faulty w (customers_update_last_visit t id)
  | Customers_delete id => fun w => faulty w (customers_delete id)
  | Customers_select b => fun w => faulty w (customers_select b)
  | Payments_insert k a st => fun w => faulty w (payments_insert k a st)
  | Services_insert d => fun w => faulty w (services_insert d)
  | Services_update d id => fun w => faulty w (services_update d id)
  | Services_update_active a id => fun w => faulty w (services_update_active a id)
  | Services_delete id => fun w => faulty w (services_delete id)
  | Services_select b => fun w => faulty w (services_select b)
  | Invites_select_valid t now => fun w => faulty w (invites_select_valid t now)
  | Invites_mark_used t now => fun w => faulty w (invites_mark_used t now)
  | Users_select_maybe id => fun w => faulty w (users_select_maybe id)
  | Users_select_single id => fun w => faulty w (users_select_single id)
  | Users_insert u => fun w => faulty w (users_insert u)
  | Auth_signUp e p f l r => fun w => faulty w (auth_signUp e p f l r)
  | Auth_signInWithPassword e p => fun w => faulty w (auth_signIn e p)
  | Auth_getSession => fun w => (session w, w)
  | Auth_signOut => fun w => (tt, set_session None w)
  | Now => fun w => (clock w, w)
  | Sleep ms => fun w => (tt, set_clock (clock w + ms) w)
  | Confirm _ =>
      fun w => match confirms w with
               | c :: cs => (c, set_confirms cs w)
               | [] => (false, w)
               end
  | Alert _ => fun w => (tt, w)
  | Console_error _ => fun w => (tt, w)
  | Console_log _ => fun w => (tt, w)
  | Navigate _ => fun w => (tt, w)
  end.

(** A request as it appears in the log of a run. *)
Record request := Request { response_type : Type; the_event : event response_type }.
Arguments Request {response_type} the_event.

(** Runs a handler against the world; returns its result, the world it
    leaves and the requests it made, in order. *)
Fixpoint run {A} (p : prog A) (w : world) : A * world * list request :=
  match p with
  | Ret a => (a, w, [])
  | Vis e k =>
      let '(x, w1) := backend e w in
      let '(a, w2, log) := run (k x) w1 in
      (a, w2, Request e :: log)
  end.

Definition result_of {A} (r : A * world * list request) : A := r.1.1.
Definition world_of {A} (r : A * world * list request) : world := r.1.2.
Definition log_of {A} (r : A * world * list request) : list request := r.2.

(** The requests that write to a table. *)
Definition is_mutation (r : request) : bool :=
  match the_event r with
  | Bookings_insert _ | Bookings_update _ _ | Bookings_update_status _ _
  | Bookings_delete _
  | Customers_insert _ | Customers_update _ _ | Customers_update_last_visit _ _
  | Customers_delete _
  | Payments_insert _ _ _
  | Services_insert _ | Services_update _ _ | Services_update_active _ _
  | Services_delete _
  | Invites_mark_used _ _
  | Users_insert _ | Auth_signUp _ _ _ _ _ => true
  | _ => false
  end.

(** *** The pages *)

(** [x || fallback] on a string, and [x || null]. *)
Definition or_default (x fallback : string) : string :=
  if bool_decide (x = "") then fallback else x.
Definition or_null (x : string) : option string :=
  if bool_decide (x = "") then None else Some x.

(** [s.includes(sub)] *)
Definition includes (sub s : string) : bool :=
  match String.index 0 sub s with Some _ => true | None => false end.

(** [price > 0], [price < 0] *)
Definition Q_positive (q : Q) : bool := 0 <? Qnum q.
Definition Q_negative (q : Q) : bool := Qnum q <? 0.

(** [user?.business_id], when it is not falsy. *)
Definition business_id_of (user : option user) : option string :=
  match user with
  | Some u =>
      match u_business_id u with
      | Some b => or_null b
      | None => None
      end
  | None => None
  end.

(** The React state the list pages share: the loaded rows, the modal and
    the form's error line. *)
Record page_state (R : Type) := PageState {
  rows : list R;
  loading : bool;
  showModal : bool;
  editing : option R;
  error : string;
  submitting : bool;
}.
Arguments PageState {R}.
Arguments rows {R}.
Arguments loading {R}.
Arguments showModal {R}.
Arguments editing {R}.
Arguments error {R}.
Arguments submitting {R}.

Definition setRows {R} (l : list R) (st : page_state R) : page_state R :=
  PageState l (loading st) (showModal st) (editing st) (error st) (submitting st).
Definition setLoading {R} (b : bool) (st : page_state R) : page_state R :=
  PageState (rows st) b (showModal st) (editing st) (error st) (submitting st).
Definition setError {R} (e : string) (st : page_state R) : page_state R :=
  PageState (rows st) (loading st) (showModal st) (editing st) e (submitting st).
Definition setSubmitting {R} (b : bool) (st : page_state R) : page_state R :=
  PageState (rows st) (loading st) (showModal st) (editing st) (error st) b.

Definition handleCloseModal {R} (st : page_state R) : page_state R :=
  PageState (rows st) (loading st) false None "" (submitting st).

(** **** Bookings page *)
Module Bookings.

(** The form; the two [datetime-local] inputs hold either nothing or a
    time. *)
Record form := Form {
  customer_id : string;
  service_id : string;
  staff_id : string;
  start_time : option timestamp;
  end_time : option timestamp;
  notes : string;
  status : BookingStatus;
}.

Definition loadBookings (user : option user) (st : page_state booking) :
    prog (page_state booking) :=
  match business_id_of user with
  | None => mret st
  | Some business_id =>
      r ← call (Bookings_select business_id);
      match r with
      | Ok data => mret (setLoading false (setRows data st))
      | Err _ =>
          call (Console_error "Error loading bookings:");;
          mret (setLoading false st)
      end
  end.

Definition handleSubmit (user : option user) (services : list service)
    (formData : form) (st : page_state booking) : prog (page_state booking) :=
  let st := setSubmitting true (setError "" st) in
  match business_id_of user with
  | None => mret (setSubmitting false (setError "Business ID is missing" st))
  | Some business_id =>
      match or_null (customer_id formData), or_null (service_id formData),
            start_time formData, end_time formData with
      | Some _, Some _, Some start, Some end_ =>
          let bookingData :=
            BookingData business_id (customer_id formData) (service_id formData)
              (or_null (staff_id formData)) start end_
              (or_null (notes formData)) (status formData) in
          let catch (e : pg_error) :=
            mret (setSubmitting false
                    (setError (or_default (message e) "Failed to save booking") st)) in
          let done :=
            st ← loadBookings user (handleCloseModal st);
            mret (setSubmitting false st) in
          match editing st with
          | Some editingBooking =>
              r ← call (Bookings_update bookingData (bk_id editingBooking));
              match r with
              | Err updateError => catch updateError
              | Ok _ => done
              end
          | None =>
              r ← call (Bookings_insert bookingData);
              match r with
              | Err insertError => catch insertError
              | Ok newBooking =>
                  (* Update customer's last_visit *)
                  call (Customers_update_last_visit start (customer_id formData));;
                  (* Create payment record if service has price *)
                  match List.find (fun s => bool_decide (sv_id s = service_id formData))
                          services with
                  | Some service =>
                      if Q_positive (sv_price service) then
                        call (Payments_insert newBooking (sv_price service)
                                PAYMENT_PENDING);;
                        done
                      else done
                  | None => done
                  end
              end
          end
      | _, _, _, _ =>
          mret (setSubmitting false
                  (setError "Please fill in all required fields" st))
      end
  end.

Definition handleDelete (user : option user) (bookingId : string)
    (st : page_state booking) : prog (page_state booking) :=
  ok ← call (Confirm "Are you sure you want to delete this booking?");
  if negb ok then mret st
  else
    r ← call (Bookings_delete bookingId);
    match r with
    | Ok _ => loadBookings user st
    | Err _ =>
        call (Console_error "Error deleting booking:");;
        call (Alert "Failed to delete booking");;
        mret st
    end.


End Bookings.

(** **** Services page *)
Module Services.

(** [duration] comes from [parseInt(...) || 0], [price] from
    [parseFloat(...) || 0]. *)
Record form := Form {
  name : string;
  description : string;
  duration : Z;
  price : Q;
  category : string;
  is_active : bool;
}.

Definition loadServices (user : option user) (st : page_state service) :
    prog (page_state service) :=
  match business_id_of user with
  | None => mret st
  | Some business_id =>
      r ← call (Services_select business_id);
      match r with
      | Ok data => mret (setLoading false (setRows data st))
      | Err _ =>
          call (Console_error "Error loading services:");;
          mret (setLoading false st)
      end
  end.

Definition handleSubmit (user : option user) (formData : form)
    (st : page_state service) : prog (page_state service) :=
  let st := setSubmitting true (setError "" st) in
  match business_id_of user with
  | None => mret (setSubmitting false (setError "Business ID is missing" st))
  | Some business_id =>
      if Q_negative (price formData) then
        mret (setSubmitting false (setError "Price cannot be negative" st))
      else if duration formData <=? 0 then
        mret (setSubmitting false (setError "Duration must be greater than 0" st))
      else
        let data :=
          ServiceData business_id (name formData) (or_null (description formData))
            (duration formData) (price formData) (or_null (category formData))
            (is_active formData) in
        r ← match editing st with
            | Some editingService => call (Services_update data (sv_id editingService))
            | None => call (Services_insert data)
            end;
        match r with
        | Err e =>
            mret (setSubmitting false
                    (setError (or_default (message e) "Failed to save service") st))
        | Ok _ =>
            st ← loadServices user (handleCloseModal st);
            mret (setSubmitting false st)
        end
  end.

(** [handleOpenModal(service?)]: the form is filled from the row, or with
    the defaults of a new service. *)
Definition handleOpenModal (arg : option service) (st : page_state service) :
    page_state service * form :=
  let formData :=
    match arg with
    | Some service =>
        Form (sv_name service) (default "" (sv_description service))
          (sv_duration service) (sv_price service)
          (default "" (sv_category service)) (sv_is_active service)
    | None => Form "" "" 30 0 "" true
    end in
  (PageState (rows st) (loading st) true arg "" (submitting st), formData).

Definition handleDelete (user : option user) (serviceId : string)
    (st : page_state service) : prog (page_state service) :=
  ok ← call (Confirm "Are you sure you want to delete this service?");
  if negb ok then mret st
  else
    r ← call (Services_delete serviceId);
    match r with
    | Ok _ => loadServices user st
    | Err _ =>
        call (Console_error "Error deleting service:");;
        call (Alert "Failed to delete service");;
        mret st
    end.


End Services.

(** **** Customers page *)
Module Customers.

Record form := Form {
  first_name : string;
  last_name : string;
  email : string;
  phone : string;
  notes : string;
  tags : list string;
}.

Definition loadCustomers (user : option user) (st : page_state customer) :
    prog (page_state customer) :=
  match business_id_of user with
  | None => mret st
  | Some business_id =>
      r ← call (Customers_select business_id);
      match r with
      | Ok data => mret (setLoading false (setRows data st))
      | Err _ =>
          call (Console_error "Error loading customers:");;
          mret (setLoading false st)
      end
  end.

Definition handleSubmit (user : option user) (formData : form)
    (st : page_state customer) : prog (page_state customer) :=
  let st := setSubmitting true (setError "" st) in
  match business_id_of user with
  | None => mret (setSubmitting false (setError "Business ID is missing" st))
  | Some business_id =>
      let data :=
        CustomerData business_id (first_name formData) (last_name formData)
          (email formData) (or_null (phone formData)) (or_null (notes formData))
          (match tags formData with [] => None | l => Some l end) in
      let catch (msg : string) :=
        mret (setSubmitting false
                (setError (or_default msg "Failed to save customer") st)) in
      let done :=
        st ← loadCustomers user (handleCloseModal st);
        mret (setSubmitting false st) in
      match editing st with
      | Some editingCustomer =>
          r ← call (Customers_update data (cu_id editingCustomer));
          match r with
          | Err updateError => catch (message updateError)
          | Ok _ => done
          end
      | None =>
          r ← call (Customers_insert data);
          match r with
          | Err insertError =>
              if bool_decide (code insertError = "23505")
              then catch "A customer with this email already exists"
              else catch (message insertError)
          | Ok _ => done
          end
      end
  end.

(** [handleOpenModal(customer?)]; the third component is [tagInput]. The
    [notes] field of the form starts empty for an existing customer too. *)
Definition handleOpenModal (arg : option customer) (st : page_state customer) :
    page_state customer * form * string :=
  let formData :=
    match arg with
    | Some customer =>
        Form (cu_first_name customer) (cu_last_name customer) (cu_email customer)
          (default "" (cu_phone customer)) "" (default [] (cu_tags customer))
    | None => Form "" "" "" "" "" []
    end in
  (PageState (rows st) (loading st) true arg "" (submitting st), formData, "").

(** [handleAddTag] and [handleRemoveTag] work on the form and on
    [tagInput]; [trim] is [String.prototype.trim]. *)
Definition handleAddTag (trim : string -> string) (formData : form)
    (tagInput : string) : form * string :=
  if negb (bool_decide (trim tagInput = ""))
     && negb (bool_decide (trim tagInput ∈ tags formData))
  then (Form (first_name formData) (last_name formData) (email formData)
          (phone formData) (notes formData) (tags formData ++ [trim tagInput]),
        "")
  else (formData, tagInput).

Definition handleRemoveTag (tag : string) (formData : form) : form :=
  Form (first_name formData) (last_name formData) (email formData)
    (phone formData) (notes formData)
    (List.filter (fun t => negb (bool_decide (t = tag))) (tags formData)).

Definition handleDelete (user : option user) (customerId : string)
    (st : page_state customer) : prog (page_state customer) :=
  ok ← call (Confirm "Are you sure you want to delete this customer?");
  if negb ok then mret st
  else
    r ← call (Customers_delete customerId);
    match r with
    | Ok _ => loadCustomers user st
    | Err _ =>
        call (Console_error "Error deleting customer:");;
        call (Alert "Failed to delete customer");;
        mret st
    end.

End Customers.

(** **** AuthContext *)
Module AuthContext.

(** How a function that can [throw] ends. *)
Inductive outcome := Returned | Thrown (msg : string).

(** [s.startsWith(p)] *)
Definition startsWith (p s : string) : bool := String.prefix p s.

(** The [try] block of [signIn]. [status_is_400] is the test
    [(profileError as any).status === 400] on a member that the error
    objects of this model do not have. In step 3, [user_metadata] has no
    [business_id] ([signUp] stores none), so the new profile has no
    business; an insert that succeeds returns the row, so the check
    [!newProfile] never fires. *)
Definition signIn_try (status_is_400 : pg_error -> bool) (email password : string) :
    prog (option user * outcome) :=
  (* Step 1: Sign in with Supabase Auth *)
  r ← call (Auth_signInWithPassword email password);
  match r with
  | Err authError =>
      if includes "fetch" (message authError) || includes "Network" (message authError)
      then mret (None, Thrown "Connection error: Unable to reach Supabase. Please check your internet connection and try again.")
      else if bool_decide (message authError = "Invalid login credentials")
      then mret (None, Thrown "Invalid email or password")
      else mret (None, Thrown (or_default (message authError) "Authentication failed"))
  | Ok authUser =>
      if bool_decide (au_id authUser = "")
      then mret (None, Thrown "Authentication succeeded but no user ID was returned")
      else
        (* Step 2: Get or create user profile *)
        r ← call (Users_select_maybe (au_id authUser));
        match r with
        | Err profileError =>
            call (Console_error "Profile access error:");;
            call (Console_error "Error details:");;
            if bool_decide (code profileError = "PGRST116") || status_is_400 profileError
            then mret (None, Thrown ("RLS Policy Error: Row Level Security is blocking access to your profile. This usually means:
1. The database migrations need to be applied
2. The RLS policies need to be updated
3. Your user profile may not exist yet

Error: "
                                     +:+ message profileError))
            else if bool_decide (code profileError = "42501")
            then mret (None, Thrown "Permission denied: You do not have permission to access this resource. Check RLS policies.")
            else if startsWith "42" (code profileError)
            then mret (None, Thrown ("Database error (" +:+ code profileError +:+ "): "
                                     +:+ or_default (message profileError) "Please check your database configuration and RLS policies."))
            else mret (None, Thrown ("Unable to access user profile: "
                                     +:+ message profileError +:+ " (Code: "
                                     +:+ or_default (code profileError) "unknown" +:+ ")"))
        | Ok (Some profile) =>
            call (Console_log "Profile found:");;
            (* Check email verification - only require for business owners *)
            if bool_decide (u_role profile = Rls.BUSINESS_OWNER)
               && negb (u_email_verified profile)
            then
              call Auth_signOut;;
              mret (None, Thrown "Please verify your email address before signing in. Check your inbox for the verification link.")
            else mret (Some profile, Returned)
        | Ok None =>
            (* Step 3: Create new profile *)
            let newUserData :=
              User (au_id authUser) (au_email authUser) (au_first_name authUser)
                (au_last_name authUser) (default Rls.CUSTOMER (au_role authUser))
                None (au_email_confirmed authUser) in
            call (Console_log "Creating new profile:");;
            r ← call (Users_insert newUserData);
            match r with
            | Err insertError =>
                call (Console_error "Profile creation error:");;
                if bool_decide (code insertError = "23505")
                then mret (None, Thrown "A user with this email already exists")
                else if startsWith "42" (code insertError)
                then mret (None, Thrown "Database error: Please try again later")
                else mret (None, Thrown ("Unable to create user profile: "
                                         +:+ message insertError))
            | Ok newProfile =>
                call (Console_log "Profile created successfully");;
                mret (Some newProfile, Returned)
            end
        end
  end.

(** [signIn]: the [catch] logs and re-throws, replacing network errors. The
    first component of the result is the argument of [setUser], if it was
    called. *)
Definition signIn (status_is_400 : pg_error -> bool) (email password : string) :
    prog (option user * outcome) :=
  r ← signIn_try status_is_400 email password;
  match r with
  | (u, Thrown msg) =>
      call (Console_error "Authentication or profile creation failed:");;
      if includes "fetch" msg || includes "Network" msg || includes "Failed to fetch" msg
      then mret (u, Thrown "Connection error: Unable to connect to the server. Please check:
1. Your internet connection
2. The Supabase service is running
3. Your firewall settings")
      else mret (u, Thrown msg)
  | (u, Returned) => mret (u, Returned)
  end.

(** The polling loop of [signUp]:
    [while (attempts < 5 && !session) { sleep 500; getSession; attempts++ }] *)
Fixpoint poll_session (attempts_left : nat) : prog (option string) :=
  match attempts_left with
  | O => mret None
  | S n =>
      call (Sleep 500);;
      session ← call Auth_getSession;
      match session with
      | Some s => mret (Some s)
      | None => poll_session n
      end
  end.

Definition is_network_error (msg : string) : bool :=
  includes "fetch" msg || includes "Network" msg || includes "Failed to fetch" msg.

(** The end of the [try] block of [signUp], once a profile is at hand:
    [setUser(profile)], then the e-mail verification check for business
    owners. The first component of the result is the argument of
    [setUser]. *)
Definition signUp_finish (role : Rls.user_role) (authUser : auth_user)
    (profile : user) : prog (option user * outcome) :=
  if bool_decide (role = Rls.BUSINESS_OWNER) && negb (au_email_confirmed authUser)
  then mret (Some profile, Thrown "Please check your email to verify your account before continuing")
  else mret (Some profile, Returned).

(** The [else] branch of [signUp]: no profile was found, so wait for the
    session and create the profile from the client. *)
Definition signUp_create_profile (email firstName lastName : string)
    (role : Rls.user_role) (businessId : option string) (authUser : auth_user) :
    prog (option user * outcome) :=
  session ← poll_session 5;
  match session with
  | None =>
      if negb (au_email_confirmed authUser)
      then mret (None, Thrown "Please check your email to verify your account. Your profile will be created automatically after verification.")
      else mret (None, Thrown "Session not established. Please try signing in after verifying your email.")
  | Some _ =>
      let userProfile :=
        User (au_id authUser) email firstName lastName role
          (match businessId with Some b => or_null b | None => None end)
          (au_email_confirmed authUser) in
      created ← call (Users_insert userProfile);
      match created with
      | Ok newProfile => signUp_finish role authUser newProfile
      | Err createError =>
          call (Console_error "Profile creation error:");;
          (* If it's a duplicate key error, try to fetch again *)
          if bool_decide (code createError = "23505") then
            fetched ← call (Users_select_single (au_id authUser));
            match fetched with
            | Ok fetchedProfile => signUp_finish role authUser fetchedProfile
            | Err _ =>
                call Auth_signOut;;
                mret (None, Thrown "Profile creation failed. Please try signing in.")
            end
          else
            call Auth_signOut;;
            mret (None, Thrown ("Failed to create user profile: "
                                +:+ message createError))
      end
  end.

(** The [try] block of [signUp]. *)
Definition signUp_try (email password firstName lastName : string)
    (role : Rls.user_role) (businessId : option string) :
    prog (option user * outcome) :=
  r ← call (Auth_signUp email password firstName lastName role);
  match r with
  | Err authError =>
      if includes "fetch" (message authError) || includes "Network" (message authError)
      then mret (None, Thrown "Connection error: Unable to reach Supabase. Please check your internet connection and try again.")
      else if includes "already registered" (message authError)
              || includes "User already registered" (message authError)
      then mret (None, Thrown "An account with this email already exists. Please sign in instead.")
      else mret (None, Thrown (message authError))
  | Ok authUser =>
      if bool_decide (au_id authUser = "")
      then mret (None, Thrown "No user ID returned from auth signup")
      else
        (* Wait a moment for the database trigger to create the profile *)
        call (Sleep 1000);;
        (* Try to get the profile (might be created by trigger) *)
        existing ← call (Users_select_maybe (au_id authUser));
        match existing with
        | Ok (Some existingProfile) => signUp_finish role authUser existingProfile
        | _ =>
            (* Try to create profile manually (if trigger didn't work) *)
            signUp_create_profile email firstName lastName role businessId authUser
        end
  end.

(** [signUp]: the [catch] logs and re-throws, replacing network errors. *)
Definition signUp (email password firstName lastName : string)
    (role : Rls.user_role) (businessId : option string) :
    prog (option user * outcome) :=
  r ← signUp_try email password firstName lastName role businessId;
  match r with
  | (u, Thrown msg) =>
      call (Console_error "Sign up error:");;
      if is_network_error msg
      then mret (u, Thrown "Connection error: Unable to connect to the server. Please check:
1. Your internet connection
2. The Supabase service is running
3. Your firewall settings")
      else mret (u, Thrown msg)
  | (u, Returned) => mret (u, Returned)
  end.

End AuthContext.

(** **** Register page *)
Module Register.

Record form := Form {
  firstName : string;
  lastName : string;
  email : string;
  password : string;
  confirmPassword : string;
  inviteToken : string;
}.

(** The page's [error] and [loading], and the [user] of the auth
    context. *)
Record state := State {
  error : string;
  loading : bool;
  user : option Client.user;
}.

Definition handleSubmit (formData : form) (st : state) : prog state :=
  let st := State "" (loading st) (user st) in
  if negb (bool_decide (password formData = confirmPassword formData))
  then mret (State "Passwords do not match" (loading st) (user st))
  else if (String.length (password formData) <? 8)%nat
  then mret (State "Password must be at least 8 characters long" (loading st) (user st))
  else
    let catch (u : option Client.user) (errorMessage : string) :=
      if includes "Connection error" errorMessage
         || includes "Failed to fetch" errorMessage
      then mret (State "Unable to connect to the server. Please check your internet connection and try again." false u)
      else mret (State errorMessage false u) in
    match or_null (inviteToken formData) with
    | Some token =>
        (* If there's an invite token, validate it first *)
        now ← call Now;
        r ← call (Invites_select_valid token now);
        match r with
        | Err _ => catch (user st) "Invalid or expired invite link"
        | Ok invite =>
            (* Sign up as staff with business_id *)
            r ← AuthContext.signUp (email formData) (password formData)
                  (firstName formData) (lastName formData) Rls.STAFF
                  (Some (in_business_id invite));
            match r with
            | (u, AuthContext.Thrown msg) =>
                catch (match u with Some _ => u | None => user st end) msg
            | (u, AuthContext.Returned) =>
                (* Mark invite as used *)
                now ← call Now;
                call (Invites_mark_used token now);;
                call (Navigate "/dashboard");;
                mret (State "" false u)
            end
        end
    | None =>
        (* Regular business owner signup *)
        r ← AuthContext.signUp (email formData) (password formData)
              (firstName formData) (lastName formData) Rls.BUSINESS_OWNER None;
        match r with
        | (u, AuthContext.Thrown msg) =>
            catch (match u with Some _ => u | None => user st end) msg
        | (u, AuthContext.Returned) =>
            call (Navigate "/dashboard/setup");;
            mret (State "" false u)
        end
    end.

End Register.

End Client.

(* ===================================================================== *)
(** ** Properties of generateSlug                                          *)
(* ===================================================================== *)

Module SlugSpec.
Import Slug.

Definition head_alnum (s : jsstring) : bool :=
  match s with c :: _ => is_alnum c | [] => true end.

Lemma alnum_not_hyphen c : is_alnum c = true -> (c =? hyphen)%N = false.
Proof.
  unfold is_alnum, is_lower, is_digit, hyphen. intros H.
  apply N.eqb_neq. intros ->. vm_compute in H. discriminate.
Qed.

Lemma slug_char_cases c :
  slug_char c = true -> is_alnum c = false -> c = hyphen.
Proof.
  unfold slug_char. intros H Ha. rewrite Ha in H. simpl in H.
  by apply N.eqb_eq.
Qed.

Lemma replace_runs_head s : head_alnum (replace_runs true s) = true.
Proof.
  induction s as [|c t IH]; simpl; [done|].
  destruct (is_alnum c) eqn:E; simpl; done.
Qed.

Lemma head_alnum_no_leading s : head_alnum s = true -> no_leading_hyphen s = true.
Proof.
  destruct s as [|c t]; simpl; [done|].
  intros H. by rewrite (alnum_not_hyphen _ H).
Qed.

Lemma replace_runs_chars b s : forallb slug_char (replace_runs b s) = true.
Proof.
  revert b. induction s as [|c t IH]; intros b; simpl; [done|].
  destruct (is_alnum c) eqn:E.
  - simpl. unfold slug_char at 1. by rewrite E, IH.
  - destruct b; [apply IH|]. simpl. by rewrite IH.
Qed.

Lemma no_double_cons c s :
  no_double_hyphen (c :: s) =
  negb ((c =? hyphen)%N && negb (no_leading_hyphen s)) && no_double_hyphen s.
Proof.
  destruct s as [|d t]; simpl.
  - by rewrite andb_false_r.
  - by rewrite negb_involutive.
Qed.

Lemma replace_runs_no_double b s : no_double_hyphen (replace_runs b s) = true.
Proof.
  revert b. induction s as [|c t IH]; intros b; [done|].
  cbn [replace_runs]. destruct (is_alnum c) eqn:E.
  - rewrite no_double_cons, IH, (alnum_not_hyphen _ E). done.
  - destruct b; [apply IH|].
    rewrite no_double_cons, IH.
    by rewrite (head_alnum_no_leading _ (replace_runs_head t)), andb_false_r.
Qed.

(** Stripping keeps the character set and the isolation of hyphens. *)
Lemma strip_first_chars s :
  forallb slug_char s = true -> forallb slug_char (strip_first s) = true.
Proof.
  destruct s as [|c t]; simpl; [done|].
  intros [Hc Ht]%andb_prop. destruct (c =? hyphen)%N; [done|].
  simpl. by rewrite Hc, Ht.
Qed.

Lemma strip_last_chars s :
  forallb slug_char s = true -> forallb slug_char (strip_last s) = true.
Proof.
  induction s as [|c t IH]; [done|].
  intros [Hc Ht]%andb_prop. destruct t as [|d u].
  - simpl. destruct (c =? hyphen)%N; [done|]. simpl. by rewrite Hc.
  - change (strip_last (c :: d :: u)) with (c :: strip_last (d :: u)).
    simpl forallb. rewrite Hc. simpl. by apply IH.
Qed.

Lemma strip_first_no_double s :
  no_double_hyphen s = true -> no_double_hyphen (strip_first s) = true.
Proof.
  destruct s as [|c t]; [done|]. intros H. pose proof H as H'.
  rewrite no_double_cons in H'. apply andb_prop in H' as [_ Ht].
  unfold strip_first. by destruct (c =? hyphen)%N.
Qed.

Lemma strip_first_no_leading s :
  no_double_hyphen s = true -> no_leading_hyphen (strip_first s) = true.
Proof.
  destruct s as [|c t]; [done|]. rewrite no_double_cons.
  intros [Hc _]%andb_prop. simpl. destruct (c =? hyphen)%N eqn:E.
  - simpl in Hc. by destruct (no_leading_hyphen t).
  - simpl. by rewrite E.
Qed.

Lemma strip_last_no_leading s :
  no_leading_hyphen s = true -> no_leading_hyphen (strip_last s) = true.
Proof.
  destruct s as [|c [|d u]]; simpl; try done.
  destruct (c =? hyphen)%N eqn:E; simpl; [done|]. by rewrite E.
Qed.

Lemma strip_last_no_double s :
  no_double_hyphen s = true -> no_double_hyphen (strip_last s) = true.
Proof.
  induction s as [|c t IH]; [done|]. destruct t as [|d u].
  - simpl. by destruct (c =? hyphen)%N.
  - change (strip_last (c :: d :: u)) with (c :: strip_last (d :: u)).
    rewrite (no_double_cons c (d :: u)), (no_double_cons c (strip_last _)).
    intros [Hc Ht]%andb_prop.
    rewrite (IH Ht), andb_true_r.
    destruct (c =? hyphen)%N; [|done].
    cbn [andb] in Hc |- *. rewrite negb_involutive in Hc.
    by rewrite (strip_last_no_leading _ Hc).
Qed.

Lemma last_cons_cons {A} (c d : A) u : last (c :: d :: u) = last (d :: u).
Proof. done. Qed.

Lemma strip_last_no_trailing s :
  no_double_hyphen s = true -> no_trailing_hyphen (strip_last s) = true.
Proof.
  unfold no_trailing_hyphen.
  induction s as [|c t IH]; [done|]. destruct t as [|d u].
  - simpl. destruct (c =? hyphen)%N eqn:E; simpl; [done|by rewrite E].
  - change (strip_last (c :: d :: u)) with (c :: strip_last (d :: u)).
    rewrite no_double_cons. intros [Hc Ht]%andb_prop.
    specialize (IH Ht).
    destruct (strip_last (d :: u)) as [|e v] eqn:Es.
    + simpl. destruct (c =? hyphen)%N eqn:E; [|done].
      (* the tail was a lone hyphen: excluded by [Hc] *)
      destruct u as [|e v].
      * simpl in Es. destruct (d =? hyphen)%N eqn:Ed; [|done].
        simpl in Hc. by rewrite Ed in Hc.
      * discriminate.
    + by rewrite last_cons_cons.
Qed.

(** On a well-formed slug every step is the identity. *)
Lemma replace_runs_id b s :
  forallb slug_char s = true -> no_double_hyphen s = true ->
  (b = true -> no_leading_hyphen s = true) ->
  replace_runs b s = s.
Proof.
  revert b. induction s as [|c t IH]; intros b Hch Hnd Hb; [done|].
  simpl in Hch. apply andb_prop in Hch as [Hc Ht].
  rewrite no_double_cons in Hnd. apply andb_prop in Hnd as [Hcd Hnd].
  cbn [replace_runs]. destruct (is_alnum c) eqn:E.
  - f_equal. apply IH; [done|done|discriminate].
  - pose proof (slug_char_cases _ Hc E) as ->.
    destruct b.
    + specialize (Hb eq_refl). simpl in Hb. discriminate.
    + f_equal. apply IH; [done|done|]. intros _.
      simpl in Hcd. by destruct (no_leading_hyphen t).
Qed.

Lemma strip_first_id s : no_leading_hyphen s = true -> strip_first s = s.
Proof.
  destruct s as [|c t]; simpl; [done|]. by destruct (c =? hyphen)%N.
Qed.

Lemma strip_last_id s : no_trailing_hyphen s = true -> strip_last s = s.
Proof.
  unfold no_trailing_hyphen.
  induction s as [|c t IH]; [done|]. destruct t as [|d u].
  - simpl. by destruct (c =? hyphen)%N.
  - rewrite last_cons_cons. intros H.
    change (strip_last (c :: d :: u)) with (c :: strip_last (d :: u)).
    f_equal. by apply IH.
Qed.

Lemma generateSlug_is_slug lower name :
  is_slug (generateSlug lower name) = true.
Proof.
  unfold generateSlug, strip_edges, is_slug.
  set (r := replace_runs false (lower name)).
  assert (Hc : forallb slug_char r = true) by apply replace_runs_chars.
  assert (Hd : no_double_hyphen r = true) by apply replace_runs_no_double.
  rewrite strip_last_chars by by apply strip_first_chars.
  rewrite strip_last_no_double by by apply strip_first_no_double.
  rewrite strip_last_no_leading by by apply strip_first_no_leading.
  rewrite strip_last_no_trailing by by apply strip_first_no_double.
  done.
Qed.

Lemma generateSlug_fixes_slugs lower s :
  (forall s, forallb slug_char s = true -> lower s = s) ->
  is_slug s = true -> generateSlug lower s = s.
Proof.
  intros Hlower. unfold is_slug.
  intros [[[Hc Hd]%andb_prop Hl]%andb_prop Ht]%andb_prop.
  unfold generateSlug, strip_edges.
  rewrite (Hlower _ Hc), replace_runs_id by done.
  by rewrite strip_first_id, strip_last_id.
Qed.

(** C10. For every input string, [generateSlug] returns a string made only
    of lower-case ASCII letters, digits and hyphens, with no hyphen at
    either end and no two hyphens in a row, and applying [generateSlug]
    to its own result changes nothing. The built-in [toLowerCase] is a
    parameter, of which only the fact that it fixes strings over
    [a-z0-9-] is used. *)
Theorem generateSlug_wellformed_idempotent
    (toLowerCase : jsstring -> jsstring)
    (toLowerCase_slug :
       forall s, forallb slug_char s = true -> toLowerCase s = s)
    (name : jsstring) :
  let slug := generateSlug toLowerCase name in
  (forall c, c ∈ slug -> is_lower c = true \/ is_digit c = true \/ c = hyphen)
  /\ no_leading_hyphen slug = true
  /\ no_trailing_hyphen slug = true
  /\ no_double_hyphen slug = true
  /\ generateSlug toLowerCase slug = slug.
Proof.
  intros slug.
  pose proof (generateSlug_is_slug toLowerCase name) as Hs. fold slug in Hs.
  pose proof Hs as Hs'. unfold is_slug in Hs'.
  apply andb_prop in Hs' as [[[Hc Hd]%andb_prop Hl]%andb_prop Ht].
  repeat split; try done.
  - intros c Hin. rewrite forallb_forall in Hc.
    apply list_elem_of_In in Hin. specialize (Hc _ Hin).
    unfold slug_char, is_alnum in Hc.
    apply orb_prop in Hc as [[H|H]%orb_prop|H]; auto.
    right; right. by apply N.eqb_eq.
  - by apply generateSlug_fixes_slugs.
Qed.

Lemma ascii_toLowerCase_slug s :
  forallb slug_char s = true -> ascii_toLowerCase s = s.
Proof.
  unfold ascii_toLowerCase. induction s as [|c t IH]; [done|].
  simpl. intros [Hc Ht]%andb_prop. rewrite (IH Ht). f_equal.
  unfold ascii_lower_cu. destruct ((65 <=? c)%N && (c <=? 90)%N) eqn:E; [|done].
  exfalso. apply andb_prop in E as [E1 E2].
  apply N.leb_le in E1, E2.
  unfold slug_char, is_alnum, is_lower, is_digit, hyphen in Hc.
  repeat match goal with
  | H : (_ || _) = true |- _ => apply orb_prop in H as [H|H]
  | H : (_ && _) = true |- _ => apply andb_prop in H as [? ?]
  | H : (_ <=? _)%N = true |- _ => apply N.leb_le in H
  | H : (_ =? _)%N = true |- _ => apply N.eqb_eq in H
  end; lia.
Qed.

(** "My Awesome Business!" becomes "my-awesome-business". *)
Definition my_awesome_business : jsstring :=
  [77; 121; 32; 65; 119; 101; 115; 111; 109; 101; 32; 66; 117; 115; 105;
   110; 101; 115; 115; 33]%N.

Lemma generateSlug_wellformed_idempotent_witness :
  let slug := generateSlug ascii_toLowerCase my_awesome_business in
  (forall c, c ∈ slug -> is_lower c = true \/ is_digit c = true \/ c = hyphen)
  /\ no_leading_hyphen slug = true
  /\ no_trailing_hyphen slug = true
  /\ no_double_hyphen slug = true
  /\ generateSlug ascii_toLowerCase slug = slug.
Proof.
  exact (generateSlug_wellformed_idempotent
           ascii_toLowerCase ascii_toLowerCase_slug my_awesome_business).
Defined.

Example generateSlug_my_awesome_business :
  generateSlug ascii_toLowerCase my_awesome_business =
  [109; 121; 45; 97; 119; 101; 115; 111; 109; 101; 45; 98; 117; 115; 105;
   110; 101; 115; 115]%N.
Proof. reflexivity. Qed.

Example generateSlug_only_punctuation :
  generateSlug ascii_toLowerCase [33; 45; 45; 63]%N = [].
Proof. reflexivity. Qed.

End SlugSpec.

(* ===================================================================== *)
(** ** Properties of the row-level-security policies                      *)
(* ===================================================================== *)

Module RlsSpec.
Import Rls.

Lemma after_readme_order_eq S :
  after_readme_order = Some S -> S = default initial after_readme_order.
Proof. by intros ->. Qed.

(** The README order runs without error and leaves row-level security
    enabled on every table, with these policies. *)
Definition readme_policies (t : table) : list (string * policy) :=
  match t with
  | T_users =>
      [("Users can select own profile", for_select to_authenticated q_uid_is_id);
       ("Users can update own profile",
         for_update to_authenticated q_uid_is_id (Some q_uid_is_id));
       ("Users can insert own profile", for_insert to_authenticated q_uid_is_id)]
  | T_businesses =>
      [("Anyone can view businesses for booking", for_select to_anon q_true);
       ("New business owners can create businesses",
         for_insert to_authenticated q_uid_is_an_owner);
       ("Business owners can update their business",
         for_update to_authenticated (q_id_in_own true) (Some (q_id_in_own true)));
       ("Business owners can view their business",
         for_select to_authenticated (q_id_in_own false))]
  | T_services =>
      [("Business owners can manage services",
         for_all to_authenticated (q_business_id_in_own true)
           (Some (q_business_id_in_own true)));
       ("Business members can view their services",
         for_select to_authenticated (q_business_id_in_own false));
       ("Public can view active services", for_select to_anon q_is_active)]
  | T_customers =>
      [("Business members can manage customers",
         for_all to_authenticated (q_business_id_in_own false)
           (Some (q_business_id_in_own false)));
       ("Business members can view their customers",
         for_select to_authenticated (q_business_id_in_own false))]
  | T_bookings =>
      [("Business members can manage bookings",
         for_all to_authenticated (q_business_id_in_own false)
           (Some (q_business_id_in_own false)));
       ("Business members can view their bookings",
         for_select to_authenticated (q_business_id_in_own false));
       ("Public can create bookings", for_insert to_anon q_true)]
  | T_payments =>
      [("Business members can manage payments",
         for_all to_authenticated q_booking_in_own_business
           (Some q_booking_in_own_business));
       ("Business members can view their payments",
         for_select to_authenticated q_booking_in_own_business)]
  | T_booking_settings =>
      [("Business owners can manage booking settings",
         for_all to_authenticated (q_business_id_in_own true)
           (Some (q_business_id_in_own true)));
       ("Business members can view their booking settings",
         for_select to_authenticated (q_business_id_in_own false));
       ("Public can view booking settings", for_select to_anon q_true)]
  | T_staff_invites =>
      [("Anyone can read invite by token",
         for_select (Some [anon; authenticated]) q_true);
       ("Business owners can manage invites",
         for_all to_authenticated q_exists_owner_of_row_business None)]
  end.

Lemma is_Some_by_case {A} (o : option A) :
  match o with Some _ => true | None => false end = true -> is_Some o.
Proof. destruct o; [by eexists|done]. Qed.

Lemma readme_order_runs : is_Some after_readme_order.
Proof. apply is_Some_by_case. reflexivity. Qed.

Lemma readme_rls_enabled S t :
  after_readme_order = Some S -> rls_enabled (table_state S t) = true.
Proof. intros ->%after_readme_order_eq. by destruct t. Qed.

Lemma readme_policies_correct S t :
  after_readme_order = Some S ->
  map_to_list (policies (table_state S t)) = readme_policies t.
Proof.
  intros ->%after_readme_order_eq. destruct t; reflexivity.
Qed.

(** The primary key of [users] makes the caller's row unique. *)
Lemma own_row_unique db s u :
  NoDup (id <$> t_users db) -> u ∈ t_users db ->
  auth_uid s = Some (id u) -> own_row db s = Some u.
Proof.
  unfold own_row. induction (t_users db) as [|v l IH]; intros Hnd Hin Hu.
  - by apply elem_of_nil in Hin.
  - simpl. rewrite fmap_cons in Hnd. apply NoDup_cons in Hnd as [Hv Hnd].
    apply elem_of_cons in Hin as [->|Hin].
    + by rewrite bool_decide_eq_true_2.
    + destruct (bool_decide (auth_uid s = Some (id v))) eqn:E.
      * apply bool_decide_eq_true_1 in E. exfalso. apply Hv.
        assert (id v = id u) as -> by congruence.
        by apply list_elem_of_fmap_2.
      * by apply IH.
Qed.

Lemma in_own_business_spec owner_only db s b :
  NoDup (id <$> t_users db) ->
  in_own_business owner_only s db b = true ->
  own_business db s = Some b.
Proof.
  intros Hnd. unfold in_own_business. rewrite existsb_exists.
  intros (u & Hin & H). apply list_elem_of_In in Hin.
  apply andb_prop in H as [[Hu _]%andb_prop Hb].
  apply bool_decide_eq_true_1 in Hu, Hb.
  unfold own_business. by rewrite (own_row_unique db s u).
Qed.

Lemma q_business_id_in_own_spec owner_only db s r :
  NoDup (id <$> t_users db) ->
  q_business_id_in_own owner_only s db r = true ->
  business_id r = own_business db s.
Proof.
  intros Hnd. unfold q_business_id_in_own.
  destruct (business_id r) as [b|]; [|done].
  intros H. symmetry. by eapply in_own_business_spec.
Qed.

Lemma q_id_in_own_spec owner_only db s r :
  NoDup (id <$> t_users db) ->
  q_id_in_own owner_only s db r = true ->
  Some (id r) = own_business db s.
Proof.
  intros Hnd H. symmetry. by eapply in_own_business_spec.
Qed.

Lemma q_uid_is_id_spec db s r :
  NoDup (id <$> t_users db) -> r ∈ t_users db ->
  q_uid_is_id s db r = true ->
  business_id r = own_business db s.
Proof.
  intros Hnd Hin H. apply bool_decide_eq_true_1 in H.
  unfold own_business. by rewrite (own_row_unique db s r).
Qed.

(** Unfolds the grant on a table of the README state into the disjunction
    of its policies' expressions. *)
Ltac eval_closed_decisions H :=
  repeat match type of H with
  | context [bool_decide ?P] =>
      let b := eval vm_compute in (bool_decide P) in
      change (bool_decide P) with b in H
  end.

Ltac grant_cases S Hrun Hrole H :=
  unfold access, using_grants, check_grants, some_policy in H;
  rewrite (readme_rls_enabled S _ Hrun), (readme_policies_correct S _ Hrun) in H;
  cbn [negb orb readme_policies existsb snd] in H;
  unfold applicable, using_ok, check_ok in H;
  cbn [p_for p_to p_using p_check for_select for_insert for_update for_all
       for_applies to_applies to_authenticated to_anon] in H;
  rewrite Hrole in H; eval_closed_decisions H;
  cbn [andb orb] in H; rewrite ?orb_false_r in H;
  repeat match type of H with
  | (_ || _) = true => apply orb_prop in H as [H|H]
  end; try discriminate H.

(** X1. After the migrations of the README's set-up order,
    for an authenticated caller and a row of [users], [businesses],
    [services], [customers], [bookings] or [booking_settings]: if the
    policies grant SELECT, UPDATE or DELETE on the existing row, or INSERT
    of the row, then the row's business reference is the caller's own
    business, with two exceptions: INSERT into [businesses] is granted to
    every caller who is a BUSINESS_OWNER, and INSERT into [users] is
    granted for a row with the caller's own id. The new version of an
    updated row must again belong to the caller's business, except on
    [users], where only its id is checked. *)
Theorem readme_policies_isolate_businesses
    (S : pstate) (db : tables) (s : session) (t : table) (c : command)
    (r : row) :
  after_readme_order = Some S ->
  NoDup (id <$> t_users db) ->
  auth_role s = authenticated ->
  business_scoped t = true ->
  (t = T_users -> c <> INSERT -> r ∈ t_users db) ->
  (access S t c s db r = true ->
     business_ref t r = own_business db s
     \/ (t = T_businesses /\ c = INSERT /\ q_uid_is_an_owner s db r = true)
     \/ (t = T_users /\ c = INSERT /\ auth_uid s = Some (id r)))
  /\ (check_grants S t UPDATE s db r = true ->
       match t with
       | T_users => auth_uid s = Some (id r)
       | _ => business_ref t r = own_business db s
       end).
Proof.
  intros Hrun Hnd Hrole Hscoped Hrow. split.
  - intros H. destruct t; try discriminate Hscoped; destruct c;
      grant_cases S Hrun Hrole H; clear Hrun.
    all: try (left; by eauto using q_business_id_in_own_spec, q_id_in_own_spec).
    all: try (left; apply q_uid_is_id_spec; by auto).
    + right; right. by apply bool_decide_eq_true_1 in H.
    + right; left. done.
  - intros H. destruct t; try discriminate Hscoped;
      grant_cases S Hrun Hrole H; clear Hrun;
      try by eauto using q_business_id_in_own_spec, q_id_in_own_spec.
    by apply bool_decide_eq_true_1 in H.
Qed.

(** A business owner of business 1 and a row for a business 2. *)
Definition owner_of_1 : row :=
  Row "user-10" (Some "business-1") BUSINESS_OWNER true None.
Definition staff_of_2 : row :=
  Row "user-20" (Some "business-2") STAFF true None.
Definition business_1 : row := Row "business-1" None CUSTOMER true None.
Definition business_2 : row := Row "business-2" None CUSTOMER true None.
Definition two_businesses : tables :=
  Tables [owner_of_1; staff_of_2] [business_1] [].
Definition session_of_10 : session := Session (Some "user-10") authenticated.
Definition readme_state : pstate := default initial after_readme_order.

Lemma after_readme_order_is_readme_state : after_readme_order = Some readme_state.
Proof. unfold readme_state. by destruct readme_order_runs as [S ->]. Qed.

Definition booking_of_1 : row :=
  Row "booking-100" (Some "business-1") CUSTOMER true None.

Lemma readme_policies_isolate_businesses_witness :
  (access readme_state T_bookings UPDATE session_of_10 two_businesses
     booking_of_1 = true ->
   business_ref T_bookings booking_of_1
     = own_business two_businesses session_of_10
   \/ (T_bookings = T_businesses /\ UPDATE = INSERT
       /\ q_uid_is_an_owner session_of_10 two_businesses booking_of_1 = true)
   \/ (T_bookings = T_users /\ UPDATE = INSERT
       /\ auth_uid session_of_10 = Some (id booking_of_1)))
  /\ (check_grants readme_state T_bookings UPDATE session_of_10
        two_businesses booking_of_1 = true ->
      business_ref T_bookings booking_of_1
        = own_business two_businesses session_of_10).
Proof.
  apply (readme_policies_isolate_businesses readme_state two_businesses
           session_of_10 T_bookings UPDATE booking_of_1).
  - exact after_readme_order_is_readme_state.
  - apply (bool_decide_eq_true_1 _). reflexivity.
  - reflexivity.
  - reflexivity.
  - intros H. discriminate H.
Defined.

(** In the state the README's set-up order leaves,
    the owner of business 1 is granted INSERT of a [businesses] row whose
    id, 2, is not the caller's business. *)
Lemma insert_business_2_granted :
  after_readme_order = Some readme_state
  /\ auth_role session_of_10 = authenticated
  /\ own_business two_businesses session_of_10 = Some "business-1"
  /\ business_ref T_businesses business_2 = Some "business-2"
  /\ access readme_state T_businesses INSERT session_of_10 two_businesses
       business_2 = true.
Proof. split; [exact after_readme_order_is_readme_state|]. repeat split; reflexivity. Qed.


(** *** The scripts that open the [users] table *)

Lemma table_state_upd t f S : table_state (upd t f S) t = f (table_state S t).
Proof. unfold table_state, upd. by rewrite lookup_insert_eq. Qed.

Lemma some_policy_intro ts f n p :
  policies ts !! n = Some p -> f p = true -> some_policy ts f = true.
Proof.
  intros Hn Hf. unfold some_policy. apply existsb_exists.
  exists (n, p). split; [|done].
  apply list_elem_of_In. by apply elem_of_map_to_list.
Qed.

Definition stmt_table (st : stmt) : table :=
  match st with
  | CREATE_POLICY _ t _ | DROP_POLICY_IF_EXISTS _ t | DROP_ALL_POLICIES t
  | ENABLE_RLS t | DISABLE_RLS t => t
  end.

(** The effect of a statement on its own table. *)
Definition texec (st : stmt) (ts : tstate) : option tstate :=
  match st with
  | CREATE_POLICY name _ p =>
      match policies ts !! name with
      | Some _ => None
      | None => Some (TState (rls_enabled ts) (<[name := p]> (policies ts)))
      end
  | DROP_POLICY_IF_EXISTS name _ =>
      Some (TState (rls_enabled ts) (delete name (policies ts)))
  | DROP_ALL_POLICIES _ => Some (TState (rls_enabled ts) ∅)
  | ENABLE_RLS _ => Some (TState true (policies ts))
  | DISABLE_RLS _ => Some (TState false (policies ts))
  end.

Fixpoint trun (t : table) (sc : script) (ts : tstate) : option tstate :=
  match sc with
  | [] => Some ts
  | st :: rest =>
      if bool_decide (stmt_table st = t)
      then match texec st ts with
           | Some ts' => trun t rest ts'
           | None => None
           end
      else trun t rest ts
  end.

Lemma table_state_upd_ne t t' f S :
  t' <> t -> table_state (upd t f S) t' = table_state S t'.
Proof. intros H. unfold table_state, upd. by rewrite lookup_insert_ne. Qed.

Lemma exec_table st S S' t :
  exec st S = Some S' ->
  if bool_decide (stmt_table st = t)
  then texec st (table_state S t) = Some (table_state S' t)
  else table_state S' t = table_state S t.
Proof.
  destruct st as [name t0 p|name t0|t0|t0|t0]; cbn [exec stmt_table texec];
    (case_bool_decide as Ht; [subst t0|]).
  all: try (intros [= <-]; by rewrite ?table_state_upd, ?table_state_upd_ne by done).
  - destruct (policies (table_state S t) !! name); [done|].
    intros [= <-]. by rewrite table_state_upd.
  - destruct (policies (table_state S t0) !! name); [done|].
    intros [= <-]. by rewrite table_state_upd_ne by done.
Qed.

Lemma run_table sc S S' t :
  run sc S = Some S' -> trun t sc (table_state S t) = Some (table_state S' t).
Proof.
  revert S. induction sc as [|st rest IH]; intros S; cbn [run trun].
  - by intros [= ->].
  - destruct (exec st S) as [S1|] eqn:E; [|done]. intros Hrest.
    pose proof (exec_table st S S1 t E) as Ht.
    destruct (bool_decide (stmt_table st = t)).
    + rewrite Ht. by apply IH.
    + rewrite <- Ht. by apply IH.
Qed.

Lemma trun_cons t st rest ts :
  stmt_table st = t ->
  trun t (st :: rest) ts
  = match texec st ts with Some ts' => trun t rest ts' | None => None end.
Proof. intros H. cbn [trun]. by rewrite bool_decide_eq_true_2. Qed.

Lemma trun_skip t st rest ts :
  stmt_table st <> t -> trun t (st :: rest) ts = trun t rest ts.
Proof. intros H. cbn [trun]. by rewrite bool_decide_eq_false_2. Qed.

(** Runs the script of hypothesis [H] on one table; a [CREATE POLICY]
    that succeeded did not find its name. *)
Ltac run_on_table H :=
  repeat (first [ rewrite trun_cons in H by reflexivity
                | rewrite trun_skip in H by (cbn [stmt_table]; discriminate) ];
          cbn [texec policies rls_enabled] in H;
          try lazymatch type of H with
          | match (match ?m !! ?n with _ => _ end) with _ => _ end = _ =>
              destruct (m !! n) eqn:?; [discriminate H|]
          end);
  cbn [trun] in H.

(** Each of these scripts creates a SELECT policy on [users] whose
    expression does not look at the row. *)
Definition scripts_opening_users : list script :=
  [simplify_rls_policies; fix_infinite_recursion; fix_rls_policies_again;
   enable_full_access; allow_all_reads; enable_read_for_authenticated_users;
   allow_all_during_development].

(** X2. After any of the scripts of [scripts_opening_users] has run, from
    whatever state, every signed-in caller is granted SELECT on every row
    of [users], whichever business the row belongs to. *)
Theorem scripts_opening_users_grant_select sc S S' s db r :
  sc ∈ scripts_opening_users -> run sc S = Some S' ->
  auth_role s = authenticated -> is_Some (auth_uid s) ->
  access S' T_users SELECT s db r = true.
Proof.
  intros Hsc Hrun Hrole Huid.
  apply (run_table _ _ _ T_users) in Hrun.
  unfold access, using_grants.
  destruct (table_state S' T_users) as [enabled pols].
  generalize dependent (table_state S T_users). intros ts Hrun.
  unfold scripts_opening_users in Hsc.
  repeat (apply elem_of_cons in Hsc as [->|Hsc]); [..|by apply elem_of_nil in Hsc].
  all: unfold simplify_rls_policies, fix_infinite_recursion,
         fix_rls_policies_again, enable_full_access, allow_all_reads,
         enable_read_for_authenticated_users, allow_all_during_development in Hrun.
  all: run_on_table Hrun; injection Hrun as <- <-; cbn [rls_enabled policies negb orb].
  1: apply (some_policy_intro _ _ "Enable read access for all users" (for_select None q_true)).
  3: apply (some_policy_intro _ _ "Users can read own profile" (for_select None q_uid_not_null)).
  5: apply (some_policy_intro _ _ "Allow read access to authenticated users" (for_select None q_role_authenticated)).
  7: apply (some_policy_intro _ _ "Enable full access to authenticated users" (for_all None q_uid_not_null (Some q_uid_not_null))).
  9: apply (some_policy_intro _ _ "Allow all reads" (for_select None q_true)).
  11: apply (some_policy_intro _ _ "enable_read_for_authenticated_users" (for_select None q_true)).
  13: apply (some_policy_intro _ _ "Allow all operations during development" (for_all None q_true (Some q_true))).
  all: try (cbn [policies]; by simplify_map_eq).
  all: unfold applicable, using_ok, q_true, q_uid_not_null, q_role_authenticated;
       cbn; rewrite ?bool_decide_eq_true_2 by done; done.
Qed.

Definition after_allow_all_reads : pstate :=
  default initial (run allow_all_reads initial).

Lemma run_allow_all_reads : run allow_all_reads initial = Some after_allow_all_reads.
Proof.
  unfold after_allow_all_reads.
  assert (is_Some (run allow_all_reads initial)) as [S ->]; [|done].
  apply is_Some_by_case. reflexivity.
Qed.

Lemma scripts_opening_users_grant_select_witness :
  access after_allow_all_reads T_users SELECT session_of_10 two_businesses
    staff_of_2 = true.
Proof.
  apply (scripts_opening_users_grant_select allow_all_reads initial
           after_allow_all_reads session_of_10 two_businesses staff_of_2).
  - do 4 apply list_elem_of_further. apply list_elem_of_here.
  - exact run_allow_all_reads.
  - reflexivity.
  - by eexists.
Defined.

(** *** The README's policies, table by table *)

(** The goal-side companion of [grant_cases]. *)
Ltac grant_goal S Hrun Hrole :=
  unfold access, using_grants, check_grants, some_policy;
  rewrite (readme_rls_enabled S _ Hrun), (readme_policies_correct S _ Hrun);
  cbn [negb orb readme_policies existsb snd];
  unfold applicable, using_ok, check_ok;
  cbn [p_for p_to p_using p_check for_select for_insert for_update for_all
       for_applies to_applies to_authenticated to_anon];
  rewrite Hrole;
  repeat match goal with
  | |- context [bool_decide ?P] =>
      let b := eval vm_compute in (bool_decide P) in
      change (bool_decide P) with b
  end;
  cbn [andb orb]; rewrite ?orb_false_r.

(** What a visitor who is not signed in may do. *)
Definition anon_grant (t : table) (c : command) (r : row) : bool :=
  match t, c with
  | T_businesses, SELECT | T_booking_settings, SELECT
  | T_staff_invites, SELECT => true
  | T_services, SELECT => is_active r
  | T_bookings, INSERT => true
  | _, _ => false
  end.

Lemma anon_grant_spec S db s t c r :
  after_readme_order = Some S -> auth_role s = anon ->
  access S t c s db r = anon_grant t c r.
Proof.
  intros Hrun Hrole.
  destruct t, c; grant_goal S Hrun Hrole; reflexivity.
Qed.

(** X3. After the README's set-up order, a visitor who is not signed in
    may read every business, every booking setting, every staff invite and
    the active services, and may insert any booking; every other command
    on every table is refused. *)
Theorem readme_policies_for_anon S db s t c r :
  after_readme_order = Some S -> auth_role s = anon ->
  access S t c s db r = anon_grant t c r.
Proof.
  intros Hrun Hrole. destruct t.
  all: destruct c; grant_goal S Hrun Hrole; reflexivity.
Qed.

Definition visitor : session := Session None anon.

Lemma readme_policies_for_anon_witness :
  access readme_state T_bookings INSERT visitor two_businesses booking_of_1
  = anon_grant T_bookings INSERT booking_of_1.
Proof.
  apply (readme_policies_for_anon readme_state two_businesses visitor
           T_bookings INSERT booking_of_1).
  - exact after_readme_order_is_readme_state.
  - reflexivity.
Defined.

Lemma users_grant_spec S db s c r :
  after_readme_order = Some S -> auth_role s = authenticated ->
  access S T_users c s db r =
    match c with
    | DELETE => false
    | _ => bool_decide (auth_uid s = Some (id r))
    end.
Proof.
  intros Hrun Hrole. destruct c; grant_goal S Hrun Hrole; reflexivity.
Qed.

(** X4. After the README's set-up order, a signed-in caller may select,
    insert and update exactly the [users] rows that carry the caller's own
    id, and may delete none: a business owner cannot read the profiles of
    the staff. *)
Theorem readme_policies_on_users S db s c r :
  after_readme_order = Some S -> auth_role s = authenticated ->
  access S T_users c s db r =
    match c with
    | DELETE => false
    | _ => bool_decide (auth_uid s = Some (id r))
    end.
Proof.
  intros Hrun Hrole. destruct c.
  - grant_goal S Hrun Hrole. reflexivity.
  - grant_goal S Hrun Hrole. reflexivity.
  - grant_goal S Hrun Hrole. reflexivity.
  - grant_goal S Hrun Hrole. reflexivity.
Qed.

Lemma readme_policies_on_users_witness :
  access readme_state T_users SELECT session_of_10 two_businesses staff_of_2
  = bool_decide (auth_uid session_of_10 = Some (id staff_of_2)).
Proof.
  apply (readme_policies_on_users readme_state two_businesses session_of_10
           SELECT staff_of_2).
  - exact after_readme_order_is_readme_state.
  - reflexivity.
Defined.

Lemma q_exists_owner_spec s db r :
  q_exists_owner_of_row_business s db r = true <->
  exists o b, o ∈ t_users db /\ auth_uid s = Some (id o)
    /\ role o = BUSINESS_OWNER
    /\ business_id o = Some b /\ business_id r = Some b.
Proof.
  unfold q_exists_owner_of_row_business. rewrite existsb_exists. split.
  - intros (o & Hin & H). apply list_elem_of_In in Hin.
    apply andb_prop in H as [[Hu Ho]%andb_prop Hb].
    apply bool_decide_eq_true_1 in Hu. apply bool_decide_eq_true_1 in Ho.
    destruct (business_id o) as [a|] eqn:Ea; [|done].
    destruct (business_id r) as [b|] eqn:Eb; [|done].
    apply bool_decide_eq_true_1 in Hb as ->. by exists o, b.
  - intros (o & b & Hin & Hu & Ho & Ha & Hb). exists o.
    split; [by apply list_elem_of_In|]. rewrite Ha, Hb. unfold is_owner.
    by rewrite !bool_decide_eq_true_2.
Qed.

Lemma staff_invites_grant_spec S db s c r :
  after_readme_order = Some S -> auth_role s = authenticated ->
  access S T_staff_invites SELECT s db r = true
  /\ (c <> SELECT ->
      (access S T_staff_invites c s db r = true <->
       exists o b, o ∈ t_users db /\ auth_uid s = Some (id o)
         /\ role o = BUSINESS_OWNER
         /\ business_id o = Some b /\ business_id r = Some b)
      /\ check_grants S T_staff_invites UPDATE s db r
         = q_exists_owner_of_row_business s db r).
Proof.
  intros Hrun Hrole. split; [|intros Hc; split].
  - grant_goal S Hrun Hrole. reflexivity.
  - rewrite <- q_exists_owner_spec.
    destruct c; [exfalso; apply Hc; reflexivity|..];
      grant_goal S Hrun Hrole; reflexivity.
  - grant_goal S Hrun Hrole. reflexivity.
Qed.

(** X5. After the README's set-up order, every signed-in caller may read
    every staff invite, with its token; to insert, update or delete an
    invite the caller must be a BUSINESS_OWNER whose business is the
    invite's. *)
Theorem readme_policies_on_staff_invites S db s c r :
  after_readme_order = Some S -> auth_role s = authenticated ->
  access S T_staff_invites SELECT s db r = true
  /\ (c <> SELECT ->
      (access S T_staff_invites c s db r = true <->
       exists o b, o ∈ t_users db /\ auth_uid s = Some (id o)
         /\ role o = BUSINESS_OWNER
         /\ business_id o = Some b /\ business_id r = Some b)
      /\ check_grants S T_staff_invites UPDATE s db r
         = q_exists_owner_of_row_business s db r).
Proof.
  intros Hrun Hrole. split.
  - grant_goal S Hrun Hrole. reflexivity.
  - intros Hc. split.
    + rewrite <- q_exists_owner_spec.
      destruct c; [exfalso; apply Hc; reflexivity|..];
        grant_goal S Hrun Hrole; reflexivity.
    + grant_goal S Hrun Hrole. reflexivity.
Qed.

Definition invite_of_2 : row := Row "invite-200" (Some "business-2") CUSTOMER true None.

Lemma readme_policies_on_staff_invites_witness :
  access readme_state T_staff_invites SELECT session_of_10 two_businesses
    invite_of_2 = true
  /\ (UPDATE <> SELECT ->
      (access readme_state T_staff_invites UPDATE session_of_10 two_businesses
         invite_of_2 = true <->
       exists o b, o ∈ t_users two_businesses
         /\ auth_uid session_of_10 = Some (id o)
         /\ role o = BUSINESS_OWNER
         /\ business_id o = Some b /\ business_id invite_of_2 = Some b)
      /\ check_grants readme_state T_staff_invites UPDATE session_of_10
           two_businesses invite_of_2
         = q_exists_owner_of_row_business session_of_10 two_businesses invite_of_2).
Proof.
  apply (readme_policies_on_staff_invites readme_state two_businesses
           session_of_10 UPDATE invite_of_2).
  - exact after_readme_order_is_readme_state.
  - reflexivity.
Defined.

(** *** Scripts that start from any state *)

Lemma run_is_Some sc S :
  (forall t, is_Some (trun t sc (table_state S t))) -> is_Some (run sc S).
Proof.
  revert S. induction sc as [|st rest IH]; intros S H; cbn [run]; [done|].
  destruct (exec st S) as [S1|] eqn:E.
  - apply IH. intros t. specialize (H t). cbn [trun] in H.
    pose proof (exec_table st S S1 t E) as Ht.
    destruct (bool_decide (stmt_table st = t)).
    + by rewrite Ht in H.
    + by rewrite Ht.
  - specialize (H (stmt_table st)). rewrite trun_cons in H by done.
    destruct st as [name t p| | | |]; cbn [exec] in E; try done.
    cbn [texec stmt_table] in H.
    destruct (policies (table_state S t) !! name); [|done].
    by destruct H.
Qed.

Ltac lookup_fresh :=
  repeat first [ rewrite lookup_empty | rewrite lookup_insert_ne by done ].

Ltac run_on_fresh_table :=
  repeat (rewrite trun_cons by reflexivity;
          cbn [texec policies rls_enabled]; lookup_fresh);
  cbn [trun].

(** X6. The two scripts that begin by dropping every policy of [users]
    ([fix_rls_no_recursion] and the ["... by id"] script) run without error
    from every state, leave [users] with row-level security enabled and
    exactly their three own-row policies, and leave the other tables as
    they were. *)
Theorem drop_all_scripts_reset_users sc to suffix S :
  (sc, to, suffix) ∈
    [(fix_rls_no_recursion, to_authenticated, "");
     (users_policies_by_id, None, " by id")] ->
  exists S', run sc S = Some S'
    /\ table_state S' T_users =
         TState true
           {[ "Users can update own profile" +:+ suffix :=
                for_update to q_uid_is_id (Some q_uid_is_id);
              "Users can insert own profile" +:+ suffix :=
                for_insert to q_uid_is_id;
              "Users can select own profile" +:+ suffix :=
                for_select to q_uid_is_id ]}
    /\ forall t, t <> T_users -> table_state S' t = table_state S t.
Proof.
  intros Hsc.
  assert (forall t, t <> T_users -> trun t sc (table_state S t) = Some (table_state S t))
    as Hother.
  { intros t Ht.
    repeat (apply elem_of_cons in Hsc as [[= -> -> ->]|Hsc]);
      [..|by apply elem_of_nil in Hsc].
    all: cbn [trun fix_rls_no_recursion users_policies_by_id stmt_table].
    all: by rewrite !bool_decide_eq_false_2 by done. }
  assert (trun T_users sc (table_state S T_users) =
          Some (TState true
           {[ "Users can update own profile" +:+ suffix :=
                for_update to q_uid_is_id (Some q_uid_is_id);
              "Users can insert own profile" +:+ suffix :=
                for_insert to q_uid_is_id;
              "Users can select own profile" +:+ suffix :=
                for_select to q_uid_is_id ]})) as Husers.
  { repeat (apply elem_of_cons in Hsc as [[= -> -> ->]|Hsc]);
      [..|by apply elem_of_nil in Hsc].
    all: unfold fix_rls_no_recursion, users_policies_by_id.
    all: run_on_fresh_table; reflexivity. }
  destruct (run_is_Some sc S) as [S' Hrun].
  { intros t. destruct (decide (t = T_users)) as [->|Ht].
    - by rewrite Husers.
    - by rewrite Hother. }
  exists S'. split; [done|]. split.
  - apply (run_table _ _ _ T_users) in Hrun. congruence.
  - intros t Ht. apply (run_table _ _ _ t) in Hrun.
    rewrite Hother in Hrun by done. congruence.
Qed.

Lemma drop_all_scripts_reset_users_witness :
  exists S', run fix_rls_no_recursion after_allow_all_reads = Some S'
    /\ table_state S' T_users =
         TState true
           {[ "Users can update own profile" :=
                for_update to_authenticated q_uid_is_id (Some q_uid_is_id);
              "Users can insert own profile" :=
                for_insert to_authenticated q_uid_is_id;
              "Users can select own profile" :=
                for_select to_authenticated q_uid_is_id ]}
    /\ forall t, t <> T_users ->
         table_state S' t = table_state after_allow_all_reads t.
Proof.
  apply (drop_all_scripts_reset_users fix_rls_no_recursion to_authenticated ""
           after_allow_all_reads).
  apply list_elem_of_here.
Defined.

(** *** Scripts that can run only once *)

(** Does the table have a policy named [n] after the script, given
    whether it has one before ([have])? *)
Fixpoint has_after (t : table) (n : string) (sc : script) (have : bool) : bool :=
  match sc with
  | [] => have
  | st :: rest =>
      if bool_decide (stmt_table st = t) then
        match st with
        | CREATE_POLICY n' _ _ => has_after t n rest (have || bool_decide (n' = n))
        | DROP_POLICY_IF_EXISTS n' _ =>
            has_after t n rest (have && negb (bool_decide (n' = n)))
        | DROP_ALL_POLICIES _ => has_after t n rest false
        | _ => has_after t n rest have
        end
      else has_after t n rest have
  end.

(** Does the script, started on a table that has a policy named [n], reach
    a [CREATE POLICY n] with the policy still there? *)
Fixpoint blocked (t : table) (n : string) (sc : script) : bool :=
  match sc with
  | [] => false
  | st :: rest =>
      if bool_decide (stmt_table st = t) then
        match st with
        | CREATE_POLICY n' _ _ => bool_decide (n' = n) || blocked t n rest
        | DROP_POLICY_IF_EXISTS n' _ => negb (bool_decide (n' = n)) && blocked t n rest
        | DROP_ALL_POLICIES _ => false
        | _ => blocked t n rest
        end
      else blocked t n rest
  end.

Lemma has_after_spec t n sc ts ts' have :
  trun t sc ts = Some ts' ->
  (have = true -> is_Some (policies ts !! n)) ->
  has_after t n sc have = true -> is_Some (policies ts' !! n).
Proof.
  revert ts have. induction sc as [|st rest IH]; intros ts have; cbn [trun has_after].
  - intros [= ->] H Hh. by apply H.
  - destruct (bool_decide (stmt_table st = t)); [|by apply IH].
    destruct st as [n' t' p|n' t'|t'|t'|t']; cbn [texec].
    + destruct (policies ts !! n') eqn:E; [done|]. intros Hrun H. apply (IH _ _ Hrun).
      cbn [policies]. intros [Hh|Hn%bool_decide_eq_true_1]%orb_prop.
      * destruct (decide (n' = n)) as [->|Hne]; [by rewrite lookup_insert_eq|].
        rewrite lookup_insert_ne by done. by apply H.
      * subst. by rewrite lookup_insert_eq.
    + intros Hrun H. apply (IH _ _ Hrun). cbn [policies].
      intros [Hh Hn%negb_true_iff%bool_decide_eq_false_1]%andb_prop.
      rewrite lookup_delete_ne by done. by apply H.
    + intros Hrun H. apply (IH _ _ Hrun). done.
    + intros Hrun H. apply (IH _ _ Hrun). by cbn [policies].
    + intros Hrun H. apply (IH _ _ Hrun). by cbn [policies].
Qed.

Lemma blocked_spec t n sc ts :
  is_Some (policies ts !! n) -> blocked t n sc = true -> trun t sc ts = None.
Proof.
  revert ts. induction sc as [|st rest IH]; intros ts H; cbn [trun blocked]; [done|].
  destruct (bool_decide (stmt_table st = t)); [|by apply IH].
  destruct st as [n' t' p|n' t'|t'|t'|t']; cbn [texec]; try done.
  - destruct (policies ts !! n') eqn:E; [done|].
    intros [Hn%bool_decide_eq_true_1|Hb]%orb_prop.
    + subst. rewrite E in H. by destruct H.
    + apply IH; [|done]. cbn [policies].
      destruct (decide (n' = n)) as [->|Hne]; [by rewrite lookup_insert_eq|].
      by rewrite lookup_insert_ne.
  - intros [Hn%negb_true_iff%bool_decide_eq_false_1 Hb]%andb_prop.
    apply IH; [|done]. cbn [policies]. by rewrite lookup_delete_ne.
  - intros Hb. by apply IH.
  - intros Hb. by apply IH.
Qed.

Lemma run_None_by_table sc S t :
  trun t sc (table_state S t) = None -> run sc S = None.
Proof.
  intros H. destruct (run sc S) as [S'|] eqn:E; [|done].
  apply (run_table _ _ _ t) in E. congruence.
Qed.

(** A script that leaves a policy named [n] on [t] and would create it
    again cannot run twice. *)
Lemma runs_only_once t n sc S S1 :
  has_after t n sc false = true -> blocked t n sc = true ->
  run sc S = Some S1 -> run sc S1 = None.
Proof.
  intros Hh Hb Hrun. apply (run_None_by_table _ _ t).
  apply blocked_spec with n; [|done].
  apply (run_table _ _ _ t) in Hrun.
  by apply (has_after_spec t n sc (table_state S t) _ false).
Qed.

Definition scripts_not_dropping_their_policies : list script :=
  [simplify_rls_policies; fix_rls_policies_again; enable_full_access;
   allow_all_reads; enable_read_for_authenticated_users; rls_policies_updated;
   allow_all_during_development].

(** X7. Each script of [scripts_not_dropping_their_policies] creates a
    policy whose name it does not drop first: when it has run once, from
    whatever state, a second run stops with an error at that
    [CREATE POLICY]. *)
Theorem scripts_run_only_once sc S S1 :
  sc ∈ scripts_not_dropping_their_policies ->
  run sc S = Some S1 -> run sc S1 = None.
Proof.
  intros Hsc. unfold scripts_not_dropping_their_policies in Hsc.
  repeat (apply elem_of_cons in Hsc as [->|Hsc]); [..|by apply elem_of_nil in Hsc].
  - by apply (runs_only_once T_users "Enable read access for all users").
  - by apply (runs_only_once T_users "Allow read access to authenticated users").
  - by apply (runs_only_once T_users "Enable full access to authenticated users").
  - by apply (runs_only_once T_users "Allow all reads").
  - by apply (runs_only_once T_users "enable_read_for_authenticated_users").
  - by apply (runs_only_once T_users "Public can read user data").
  - by apply (runs_only_once T_users "Allow all operations during development").
Qed.

Lemma scripts_run_only_once_witness :
  run allow_all_reads after_allow_all_reads = None.
Proof.
  apply (scripts_run_only_once allow_all_reads initial after_allow_all_reads).
  - do 3 apply list_elem_of_further. apply list_elem_of_here.
  - exact run_allow_all_reads.
Defined.

(** *** The script that leaves row-level security disabled *)

Definition tables_left_open : list table :=
  [T_businesses; T_services; T_bookings; T_customers; T_booking_settings].

(** X8. After the script [rls_policies_updated] has run, from whatever
    state, row-level security is disabled on [businesses], [services],
    [bookings], [customers] and [booking_settings], so no policy refuses
    any command of any caller on them; and a visitor who is not signed in
    is granted SELECT on every row of [users]. *)
Theorem rls_policies_updated_leaves_tables_open S S' t c s db r :
  run rls_policies_updated S = Some S' ->
  (t ∈ tables_left_open ->
     access S' t c s db r = true /\ check_grants S' t UPDATE s db r = true)
  /\ (auth_role s = anon -> access S' T_users SELECT s db r = true).
Proof.
  intros Hrun. split.
  - intros Ht. apply (run_table _ _ _ t) in Hrun.
    assert (rls_enabled (table_state S' t) = false) as Hoff.
    { destruct (table_state S' t) as [enabled pols].
      generalize dependent (table_state S t). intros ts Hrun.
      unfold tables_left_open in Ht.
      repeat (apply elem_of_cons in Ht as [->|Ht]); [..|by apply elem_of_nil in Ht].
      all: unfold rls_policies_updated in Hrun; run_on_table Hrun.
      all: by injection Hrun as <- <-. }
    unfold access, using_grants, check_grants. rewrite Hoff. by destruct c.
  - intros Hrole. apply (run_table _ _ _ T_users) in Hrun.
    unfold access, using_grants.
    destruct (table_state S' T_users) as [enabled pols].
    generalize dependent (table_state S T_users). intros ts Hrun.
    unfold rls_policies_updated in Hrun.
    run_on_table Hrun; injection Hrun as <- <-; cbn [rls_enabled policies negb orb].
    apply (some_policy_intro _ _ "Public can read user data" (for_select to_anon q_true)).
    + by simplify_map_eq.
    + unfold applicable, using_ok. cbn. rewrite Hrole. reflexivity.
Qed.

Definition after_rls_policies_updated : pstate :=
  default initial (run rls_policies_updated initial).

Lemma run_rls_policies_updated :
  run rls_policies_updated initial = Some after_rls_policies_updated.
Proof.
  unfold after_rls_policies_updated.
  assert (is_Some (run rls_policies_updated initial)) as [S ->]; [|done].
  apply is_Some_by_case. reflexivity.
Qed.

Lemma rls_policies_updated_leaves_tables_open_witness :
  (T_customers ∈ tables_left_open ->
     access after_rls_policies_updated T_customers DELETE visitor two_businesses
       booking_of_1 = true
     /\ check_grants after_rls_policies_updated T_customers UPDATE visitor
          two_businesses booking_of_1 = true)
  /\ (auth_role visitor = anon ->
      access after_rls_policies_updated T_users SELECT visitor two_businesses
        booking_of_1 = true).
Proof.
  apply (rls_policies_updated_leaves_tables_open initial
           after_rls_policies_updated T_customers DELETE visitor two_businesses
           booking_of_1).
  exact run_rls_policies_updated.
Defined.

End RlsSpec.

(* ===================================================================== *)
(** ** Properties of the client pages                                      *)
(* ===================================================================== *)

Module ClientSpec.
Import Client.

(** *** Running a handler *)

Lemma run_ret {A} (a : A) w : run (mret a) w = (a, w, []).
Proof. done. Qed.

Lemma run_bind {A B} (p : prog A) (f : A -> prog B) w :
  run (p ≫= f) w =
  let '(a, w1, l1) := run p w in
  let '(b, w2, l2) := run (f a) w1 in
  (b, w2, l1 ++ l2).
Proof.
  revert w. induction p as [a|X e k IH]; intros w.
  - simpl. by destruct (run (f a) w) as [[b w2] l2].
  - change (run (Vis e k ≫= f) w) with
      (let '(x, w1) := backend e w in
       let '(b, w2, log) := run (k x ≫= f) w1 in (b, w2, Request e :: log)).
    simpl. destruct (backend e w) as [x w1]. rewrite IH.
    destruct (run (k x) w1) as [[a w2] l1].
    by destruct (run (f a) w2) as [[b w3] l2].
Qed.

Lemma run_call {X B} (e : event X) (f : X -> prog B) w :
  run (call e ≫= f) w =
  let '(b, w2, l2) := run (f (backend e w).1) (backend e w).2 in
  (b, w2, Request e :: l2).
Proof.
  rewrite run_bind. unfold call. simpl. destruct (backend e w) as [x w1]. simpl.
  by destruct (run (f x) w1) as [[b w2] l2].
Qed.

(** The three components of a run, request by request. *)
Lemma result_of_call {X B} (e : event X) (f : X -> prog B) w :
  result_of (run (call e ≫= f) w)
  = result_of (run (f (backend e w).1) (backend e w).2).
Proof.
  rewrite run_call. by destruct (run (f (backend e w).1) (backend e w).2) as [[b w2] l2].
Qed.

Lemma result_of_bind {A B} (p : prog A) (f : A -> prog B) w :
  result_of (run (p ≫= f) w)
  = result_of (run (f (result_of (run p w))) (world_of (run p w))).
Proof.
  rewrite run_bind. destruct (run p w) as [[a w1] l1].
  cbn [result_of world_of log_of fst snd].
  by destruct (run (f a) w1) as [[b w2] l2].
Qed.

Lemma world_of_call {X B} (e : event X) (f : X -> prog B) w :
  world_of (run (call e ≫= f) w)
  = world_of (run (f (backend e w).1) (backend e w).2).
Proof.
  rewrite run_call. by destruct (run (f (backend e w).1) (backend e w).2) as [[b w2] l2].
Qed.

Lemma world_of_bind {A B} (p : prog A) (f : A -> prog B) w :
  world_of (run (p ≫= f) w)
  = world_of (run (f (result_of (run p w))) (world_of (run p w))).
Proof.
  rewrite run_bind. destruct (run p w) as [[a w1] l1].
  cbn [result_of world_of log_of fst snd].
  by destruct (run (f a) w1) as [[b w2] l2].
Qed.

Lemma log_of_call {X B} (e : event X) (f : X -> prog B) w :
  log_of (run (call e ≫= f) w)
  = Request e :: log_of (run (f (backend e w).1) (backend e w).2).
Proof.
  rewrite run_call. by destruct (run (f (backend e w).1) (backend e w).2) as [[b w2] l2].
Qed.

Lemma log_of_bind {A B} (p : prog A) (f : A -> prog B) w :
  log_of (run (p ≫= f) w)
  = log_of (run p w)
    ++ log_of (run (f (result_of (run p w))) (world_of (run p w))).
Proof.
  rewrite run_bind. destruct (run p w) as [[a w1] l1].
  cbn [result_of world_of log_of fst snd].
  by destruct (run (f a) w1) as [[b w2] l2].
Qed.

(** Splits the result of the next request. *)
Ltac next_request :=
  rewrite run_call;
  match goal with
  | |- context [backend ?e ?w] =>
      let x := fresh "x" in let w1 := fresh "w" in let E := fresh "E" in
      destruct (backend e w) as [x w1] eqn:E; cbn [fst snd]
  end.

Ltac finish_run :=
  repeat match goal with
  | |- context [run (mret ?a) ?w] => rewrite (run_ret a w)
  | |- context [run ?p ?w] =>
      let a := fresh "a" in let w1 := fresh "w" in let l := fresh "l" in
      destruct (run p w) as [[a w1] l] eqn:?
  end; cbn [result_of world_of log_of fst snd].

(** The requests of a log that go to the backend (database and auth), as
    opposed to the browser. *)
Definition is_browser (r : request) : bool :=
  match the_event r with
  | Now | Sleep _ | Confirm _ | Alert _ | Console_error _ | Console_log _
  | Navigate _ => true
  | _ => false
  end.

Definition to_backend (log : list request) : list request :=
  List.filter (fun r => negb (is_browser r)) log.

(** What a [faulty] operation leaves of the world when it fails. *)
Definition fails_clean {A} (op : world -> result A * world) : Prop :=
  forall w e w1, op w = (Err e, w1) -> db w1 = db w.

Lemma faulty_fails_clean {A} (op : world -> result A * world) w e w1 :
  fails_clean op -> faulty w op = (Err e, w1) -> db w1 = db w.
Proof.
  intros Hop. unfold faulty. destruct (faults w) as [|[f|] fs].
  - apply Hop.
  - by intros [= _ <-].
  - intros H. by apply Hop in H.
Qed.

(** *** Service form *)

Lemma Q_negative_spec q : Q_negative q = true <-> (q < 0)%Q.
Proof. unfold Q_negative, Qlt. simpl. rewrite Z.ltb_lt. lia. Qed.

Lemma loadServices_error user (st : page_state service) w :
  error (result_of (run (Services.loadServices user st) w)) = error st.
Proof.
  unfold Services.loadServices. destruct (business_id_of user); [|done].
  next_request. destruct x; [done|]. next_request. done.
Qed.

Definition service_write (business_id : string) (formData : Services.form)
    (st : page_state service) : request :=
  let data :=
    ServiceData business_id (Services.name formData)
      (or_null (Services.description formData)) (Services.duration formData)
      (Services.price formData) (or_null (Services.category formData))
      (Services.is_active formData) in
  match editing st with
  | Some editingService => Request (Services_update data (sv_id editingService))
  | None => Request (Services_insert data)
  end.

(** X9. [handleSubmit] of the services page checks, in this order, that
    the user has a business, that the price is not negative and that the
    duration is greater than 0. A failed check shows its message and sends
    no request; when all three pass, the first request is the insert of the
    form's data or, when a service is being edited, its update. *)
Theorem services_handleSubmit_validation
    (user : option user) (formData : Services.form)
    (st : page_state service) (w : world) :
  let r := run (Services.handleSubmit user formData st) w in
  match business_id_of user with
  | None =>
      error (result_of r) = "Business ID is missing" /\ log_of r = []
  | Some business_id =>
      ((Services.price formData < 0)%Q ->
         error (result_of r) = "Price cannot be negative" /\ log_of r = [])
      /\ ((0 <= Services.price formData)%Q -> Services.duration formData <= 0 ->
         error (result_of r) = "Duration must be greater than 0" /\ log_of r = [])
      /\ ((0 <= Services.price formData)%Q -> 0 < Services.duration formData ->
         exists rest, log_of r = service_write business_id formData st :: rest)
  end.
Proof.
  cbv zeta. unfold Services.handleSubmit.
  destruct (business_id_of user) as [business_id|]; [|done].
  destruct (Q_negative (Services.price formData)) eqn:Eprice.
  { apply Q_negative_spec in Eprice.
    split; [done|]. split; intros Hp; by apply Qle_not_lt in Hp. }
  assert (~ (Services.price formData < 0)%Q) as Hnn.
  { intros H%Q_negative_spec. congruence. }
  destruct (Services.duration formData <=? 0) eqn:Edur.
  { apply Z.leb_le in Edur. split; [done|]. split; [done|]. intros; lia. }
  apply Z.leb_gt in Edur.
  split; [done|]. split; [intros; lia|]. intros _ _.
  unfold service_write. cbn [editing setSubmitting setError].
  destruct (editing st); next_request; finish_run; eauto.
Qed.


(** A salon with one owner, two services and one customer, under the
    policies of the README's set-up order. *)
Definition readme_rls : Rls.pstate := default Rls.initial Rls.after_readme_order.
Definition owner : user :=
  User "user-1" "owner@example.com" "Ada" "Owner" Rls.BUSINESS_OWNER
    (Some "business-1") true.
Definition newcomer : user :=
  User "user-2" "new@example.com" "Nia" "New" Rls.BUSINESS_OWNER None true.
Definition salon : business := Business "business-1" "Salon" "salon".
Definition haircut : service :=
  Service "service-1" "business-1" "Haircut" None 30 (25 # 1) None true.
Definition consultation : service :=
  Service "service-2" "business-1" "Consultation" None 30 (0 # 1) None true.
Definition alice : customer :=
  Customer "customer-1" "business-1" "Alice" "A" "alice@example.com"
    None None None None.
Definition invite : staff_invite :=
  StaffInvite "invite-1" "business-1" "bob@example.com" "tok" false None 1000000.
Definition salon_db : database :=
  Database [owner; newcomer] [salon] [haircut; consultation] [alice] [] [] [invite].
Definition uuid_stream (n : nat) : string := "uuid-" +:+ pretty n.
Definition salon_auth : auth_service :=
  AuthService
    [AuthUser "user-1" "owner@example.com" true "correct horse" "Ada" "Owner"
       (Some Rls.BUSINESS_OWNER);
     AuthUser "user-2" "new@example.com" true "battery staple" "Nia" "New"
       (Some Rls.BUSINESS_OWNER)] true true.
(** The owner is signed in and answers "OK" to the next confirmation. *)
Definition salon_world : world :=
  World salon_db readme_rls salon_auth (Some "user-1") 5000 uuid_stream 0 [] [true].
Definition closed_page {R} : page_state R := PageState [] false false None "" false.

Definition haircut_form : Services.form :=
  Services.Form "Haircut" "" 30 (25 # 1) "" true.

Lemma services_handleSubmit_validation_witness :
  exists rest,
    log_of (run (Services.handleSubmit (Some owner) haircut_form closed_page)
              salon_world)
    = service_write "business-1" haircut_form closed_page :: rest.
Proof.
  pose proof (services_handleSubmit_validation (Some owner) haircut_form
                closed_page salon_world) as H.
  cbv zeta in H. change (business_id_of (Some owner)) with (Some "business-1") in H.
  destruct H as (_ & _ & H). apply H.
  - unfold Qle. simpl. lia.
  - simpl. lia.
Defined.

(** A signed-in user who has not set up a business yet submits a service with price 25 and duration 30: both range checks
    pass, yet nothing is written and the form shows "Business ID is
    missing". *)
Lemma valid_service_not_written_without_business :
  let r := run (Services.handleSubmit (Some newcomer) haircut_form closed_page)
             salon_world in
  (0 <= Services.price haircut_form)%Q
  /\ 0 < Services.duration haircut_form
  /\ log_of r = []
  /\ error (result_of r) = "Business ID is missing".
Proof. cbv zeta. split; [unfold Qle; simpl; lia|]. split; [simpl; lia|]. done. Qed.


(** *** Booking form *)

Lemma loadBookings_spec user business_id (st : page_state booking) w :
  business_id_of user = Some business_id ->
  let r := run (Bookings.loadBookings user st) w in
  to_backend (log_of r) = [Request (Bookings_select business_id)]
  /\ error (result_of r) = error st
  /\ showModal (result_of r) = showModal st
  /\ db (world_of r) = db w.
Proof.
  intros Hb. cbv zeta. unfold Bookings.loadBookings. rewrite Hb.
  next_request.
  assert (db w0 = db w) as Hdb.
  { cbn [backend] in E. unfold faulty, bookings_select in E.
    destruct (faults w) as [|[f|] fs]; inversion E; subst; reflexivity. }
  destruct x; [done|]. next_request. cbn in E0. inversion E0; subst.
  rewrite run_ret. done.
Qed.

Lemma bookings_insert_fails_clean d : fails_clean (bookings_insert d).
Proof.
  intros w e w1. unfold bookings_insert, next_uuid. cbn.
  repeat case_match; intros Heq; inversion Heq; subst; reflexivity.
Qed.

(** The payment request of a booking creation: present when the selected
    service is among the loaded ones and has a positive price. *)
Definition payment_request (services : list service) (service_id : string)
    (newBooking : string) : list request :=
  match List.find (fun s => bool_decide (sv_id s = service_id)) services with
  | Some service =>
      if Q_positive (sv_price service)
      then [Request (Payments_insert newBooking (sv_price service) PAYMENT_PENDING)]
      else []
  | None => []
  end.

Definition bookingData_of (business_id : string) (formData : Bookings.form)
    (start end_ : timestamp) : booking_data :=
  BookingData business_id (Bookings.customer_id formData)
    (Bookings.service_id formData) (or_null (Bookings.staff_id formData))
    start end_ (or_null (Bookings.notes formData)) (Bookings.status formData).

Lemma or_null_Some x : x <> "" -> or_null x = Some x.
Proof. intros H. unfold or_null. by rewrite bool_decide_eq_false_2. Qed.

(** The error line after a creation depends on the answer to the insert
    alone. *)
Lemma create_error
    (user : option user) (services : list service) (formData : Bookings.form)
    (st : page_state booking) (w : world)
    (business_id : string) (start end_ : timestamp) :
  business_id_of user = Some business_id ->
  Bookings.customer_id formData <> "" ->
  Bookings.service_id formData <> "" ->
  Bookings.start_time formData = Some start ->
  Bookings.end_time formData = Some end_ ->
  editing st = None ->
  error (result_of (run (Bookings.handleSubmit user services formData st) w))
  = match (backend (Bookings_insert
                      (bookingData_of business_id formData start end_)) w).1 with
    | Err insertError => or_default (message insertError) "Failed to save booking"
    | Ok _ => ""
    end.
Proof.
  intros Hb Hc Hs Hstart Hend Hedit.
  unfold Bookings.handleSubmit. rewrite Hb, (or_null_Some _ Hc), (or_null_Some _ Hs).
  rewrite Hstart, Hend. cbn [editing setSubmitting setError]. rewrite Hedit.
  fold (bookingData_of business_id formData start end_).
  rewrite result_of_call.
  destruct (backend (Bookings_insert _) w) as [[newBooking|insertError] w1];
    cbn [fst snd]; [|done].
  rewrite result_of_call.
  destruct (List.find _ services) as [service|];
    [destruct (Q_positive (sv_price service)); [rewrite result_of_call|]|].
  all: rewrite result_of_bind, run_ret; cbn [result_of fst error setSubmitting].
  all: by rewrite (proj1 (proj2 (loadBookings_spec user business_id _ _ Hb))).
Qed.

(** X11. Creating a booking is a sequence of separate requests. When
    the insert of the booking fails, it is the only request, the tables are
    as before and the form shows the error's message. When it succeeds, the
    requests to the backend are, in this order: the insert, the update of
    the customer's [last_visit], the insert of a payment (only when the
    selected service is among the loaded ones and its price is above 0) and
    the reload of the list; the answers to the second and third request are
    not looked at, and the form shows no error. *)
Theorem bookings_handleSubmit_create_steps
    (user : option user) (services : list service) (formData : Bookings.form)
    (st : page_state booking) (w : world)
    (business_id : string) (start end_ : timestamp) :
  business_id_of user = Some business_id ->
  Bookings.customer_id formData <> "" ->
  Bookings.service_id formData <> "" ->
  Bookings.start_time formData = Some start ->
  Bookings.end_time formData = Some end_ ->
  editing st = None ->
  let bookingData := bookingData_of business_id formData start end_ in
  let r := run (Bookings.handleSubmit user services formData st) w in
  match backend (Bookings_insert bookingData) w with
  | (Err insertError, w1) =>
      log_of r = [Request (Bookings_insert bookingData)]
      /\ db (world_of r) = db w
      /\ error (result_of r)
         = or_default (message insertError) "Failed to save booking"
  | (Ok newBooking, w1) =>
      to_backend (log_of r)
      = [Request (Bookings_insert bookingData);
         Request (Customers_update_last_visit start (Bookings.customer_id formData))]
        ++ payment_request services (Bookings.service_id formData) newBooking
        ++ [Request (Bookings_select business_id)]
      /\ error (result_of r) = ""
  end.
Proof.
  intros Hb Hc Hs Hstart Hend Hedit. cbv zeta.
  unfold Bookings.handleSubmit. rewrite Hb, (or_null_Some _ Hc), (or_null_Some _ Hs).
  rewrite Hstart, Hend. cbn [editing setSubmitting setError]. rewrite Hedit.
  fold (bookingData_of business_id formData start end_).
  next_request. destruct x as [newBooking|insertError].
  - next_request. unfold payment_request.
    destruct (List.find _ services) as [service|];
      [destruct (Q_positive (sv_price service)); [next_request|]|].
    all: rewrite run_bind;
      match goal with
      | |- context [run (Bookings.loadBookings ?u ?s) ?w] =>
          pose proof (loadBookings_spec u business_id s w Hb) as (Hl & He & _);
          destruct (run (Bookings.loadBookings u s) w) as [[a w'] l]
      end; cbn [result_of world_of log_of fst snd] in *;
      rewrite run_ret; cbn [result_of world_of log_of fst snd];
      split; [|cbn [error setSubmitting]; by rewrite He].
    all: rewrite app_nil_r; unfold to_backend in *;
      cbn [List.filter is_browser the_event negb app]; by rewrite Hl.
  - rewrite run_ret. cbn [result_of world_of log_of fst snd].
    split; [done|]. split; [|done].
    cbn [backend] in E. by eapply faulty_fails_clean, E; apply bookings_insert_fails_clean.
Qed.

Definition free_form : Bookings.form :=
  Bookings.Form "customer-1" "service-2" "" (Some 100) (Some 200) "" PENDING.
Definition paid_form : Bookings.form :=
  Bookings.Form "customer-1" "service-1" "" (Some 100) (Some 200) "" PENDING.

Lemma bookings_handleSubmit_create_steps_witness :
  let r := run (Bookings.handleSubmit (Some owner) [haircut; consultation]
                  paid_form closed_page) salon_world in
  to_backend (log_of r)
  = [Request (Bookings_insert
                (bookingData_of "business-1" paid_form 100 200));
     Request (Customers_update_last_visit 100 "customer-1");
     Request (Payments_insert "uuid-0" (25 # 1) PAYMENT_PENDING);
     Request (Bookings_select "business-1")]
  /\ error (result_of r) = "".
Proof.
  exact (bookings_handleSubmit_create_steps (Some owner) [haircut; consultation]
           paid_form closed_page salon_world "business-1" 100 200
           eq_refl ltac:(done) ltac:(done) eq_refl eq_refl eq_refl).
Defined.

(** The owner books the free consultation for Alice:
    the submission succeeds (no error, one booking row) and the state it
    leaves has that booking and no payment. *)
Lemma booking_without_payment_reachable :
  let r := run (Bookings.handleSubmit (Some owner) [haircut; consultation]
                  free_form closed_page) salon_world in
  error (result_of r) = ""
  /\ bookings (db (world_of r))
     = [Booking "uuid-0" "business-1" "customer-1" "service-2" None 100 200
          PENDING None]
  /\ payments (db (world_of r)) = [].
Proof. vm_compute. done. Qed.

(** The same with the paid service when the payment request fails: the
    booking stays, without payment, and the form reports nothing. *)
Lemma failed_payment_is_not_reported :
  let w := set_faults [None; None; Some (PgError "" "Failed to fetch")] salon_world in
  let r := run (Bookings.handleSubmit (Some owner) [haircut; consultation]
                  paid_form closed_page) w in
  error (result_of r) = ""
  /\ length (bookings (db (world_of r))) = 1%nat
  /\ payments (db (world_of r)) = [].
Proof. vm_compute. done. Qed.


(** *** Status changes and deletions *)

(** No failure is injected into the next request. *)
Definition no_fault (w : world) : Prop :=
  match faults w with Some _ :: _ => False | _ => True end.

(** The world in which an operation under [faulty] runs. *)
Lemma faulty_no_fault {A} (op : world -> result A * world) w :
  no_fault w -> exists w0, faulty w op = op w0 /\ db w0 = db w /\ rls w0 = rls w
                        /\ session w0 = session w /\ confirms w0 = confirms w.
Proof.
  unfold no_fault, faulty. destruct (faults w) as [|[f|] fs]; [|done|]; eauto 10.
Qed.

Lemma existsb_false {A} (f : A -> bool) l :
  (forall x, x ∈ l -> f x = false) -> existsb f l = false.
Proof.
  intros H. destruct (existsb f l) eqn:E; [|done].
  apply existsb_exists in E as (x & Hin%list_elem_of_In & Hx).
  by rewrite (H x Hin) in Hx.
Qed.

Lemma loadBookings_db user (st : page_state booking) w :
  db (world_of (run (Bookings.loadBookings user st) w)) = db w.
Proof.
  destruct (business_id_of user) as [b|] eqn:Hb.
  - by apply (loadBookings_spec user b st w Hb).
  - unfold Bookings.loadBookings. by rewrite Hb.
Qed.

Lemma loadBookings_mutations user (st : page_state booking) w :
  List.filter is_mutation (log_of (run (Bookings.loadBookings user st) w)) = [].
Proof.
  unfold Bookings.loadBookings. destruct (business_id_of user); [|done].
  next_request. destruct x; [done|]. by next_request.
Qed.

Lemma may_same_db w w0 t c r :
  db w0 = db w -> rls w0 = rls w -> session w0 = session w ->
  may w0 t c r = may w t c r.
Proof.
  intros Hd Hr Hs. unfold may, rls_session, rls_tables. by rewrite Hd, Hr, Hs.
Qed.

Lemma reachable_same_db w w0 t c r :
  db w0 = db w -> rls w0 = rls w -> session w0 = session w ->
  reachable w0 t c r = reachable w t c r.
Proof. intros. unfold reachable. by rewrite !(may_same_db w w0). Qed.





Definition booked_db : database :=
  Database [owner; newcomer] [salon] [haircut; consultation] [alice]
    [Booking "booking-1" "business-1" "customer-1" "service-1" None 100 200
       COMPLETED None]
    [Payment "payment-1" "booking-1" (25 # 1) PAID] [invite].
Definition booked_world : world := set_db booked_db salon_world.


(** **** Deletions *)

Definition confirmed (w : world) : bool :=
  match confirms w with true :: _ => true | _ => false end.

Lemma loadServices_db user (st : page_state service) w :
  db (world_of (run (Services.loadServices user st) w)) = db w
  /\ List.filter is_mutation (log_of (run (Services.loadServices user st) w)) = [].
Proof.
  unfold Services.loadServices. destruct (business_id_of user); [|done].
  next_request.
  assert (db w0 = db w) as Hdb.
  { cbn [backend] in E. unfold faulty, services_select in E.
    destruct (faults w) as [|[f|] fs]; inversion E; subst; reflexivity. }
  destruct x; [done|]. next_request. cbn in E0. inversion E0; subst.
  rewrite run_ret. done.
Qed.

Lemma loadCustomers_db user (st : page_state customer) w :
  db (world_of (run (Customers.loadCustomers user st) w)) = db w
  /\ List.filter is_mutation (log_of (run (Customers.loadCustomers user st) w)) = [].
Proof.
  unfold Customers.loadCustomers. destruct (business_id_of user); [|done].
  next_request.
  assert (db w0 = db w) as Hdb.
  { cbn [backend] in E. unfold faulty, customers_select in E.
    destruct (faults w) as [|[f|] fs]; inversion E; subst; reflexivity. }
  destruct x; [done|]. next_request. cbn in E0. inversion E0; subst.
  rewrite run_ret. done.
Qed.

Lemma confirm_answer w msg :
  backend (Confirm msg) w
  = (confirmed w, match confirms w with _ :: cs => set_confirms cs w | [] => w end)
  \/ (confirmed w = false /\ (backend (Confirm msg) w).1 = false).
Proof.
  unfold confirmed. cbn. destruct (confirms w) as [|[] cs]; auto.
Qed.

Lemma confirm_world w msg x w1 :
  backend (Confirm msg) w = (x, w1) ->
  x = confirmed w /\ db w1 = db w /\ rls w1 = rls w /\ session w1 = session w
  /\ faults w1 = faults w.
Proof.
  unfold confirmed. cbn. destruct (confirms w) as [|[] cs]; by intros [= <- <-].
Qed.

Lemma filter_ext_elem {A} (f g : A -> bool) l :
  (forall x, x ∈ l -> f x = g x) -> List.filter f l = List.filter g l.
Proof.
  induction l as [|y l IH]; intros H; [done|]. simpl.
  rewrite (H y) by apply list_elem_of_here.
  rewrite IH; [done|]. intros x Hx. apply H. by apply list_elem_of_further.
Qed.

(** The mutations a deletion handler issues, whatever happens. *)
Lemma bookings_handleDelete_mutations user id st w :
  List.filter is_mutation (log_of (run (Bookings.handleDelete user id st) w))
  = if confirmed w then [Request (Bookings_delete id)] else [].
Proof.
  unfold Bookings.handleDelete. next_request.
  apply confirm_world in E as (-> & _). destruct (confirmed w); [|done].
  cbn [negb]. next_request. destruct x as [?|?].
  - pose proof (loadBookings_mutations user st w1) as Hl.
    destruct (run _ w1) as [[st' w2] l]. cbn in *. by rewrite Hl.
  - next_request. next_request. done.
Qed.

Lemma services_handleDelete_mutations user id st w :
  List.filter is_mutation (log_of (run (Services.handleDelete user id st) w))
  = if confirmed w then [Request (Services_delete id)] else [].
Proof.
  unfold Services.handleDelete. next_request.
  apply confirm_world in E as (-> & _). destruct (confirmed w); [|done].
  cbn [negb]. next_request. destruct x as [?|?].
  - pose proof (loadServices_db user st w1) as [_ Hl].
    destruct (run _ w1) as [[st' w2] l]. cbn in *. by rewrite Hl.
  - next_request. next_request. done.
Qed.

Lemma customers_handleDelete_mutations user id st w :
  List.filter is_mutation (log_of (run (Customers.handleDelete user id st) w))
  = if confirmed w then [Request (Customers_delete id)] else [].
Proof.
  unfold Customers.handleDelete. next_request.
  apply confirm_world in E as (-> & _). destruct (confirmed w); [|done].
  cbn [negb]. next_request. destruct x as [?|?].
  - pose proof (loadCustomers_db user st w1) as [_ Hl].
    destruct (run _ w1) as [[st' w2] l]. cbn in *. by rewrite Hl.
  - next_request. next_request. done.
Qed.


(** What the schema's [ON DELETE] rules make of deleting the row [id]:
    payments follow their booking, bookings (and their payments) follow
    their customer; a service is deleted alone. *)
Definition is_id {A} (key : A -> string) (id : string) (x : A) : bool :=
  bool_decide (key x = id).

Definition without_booking (id : string) (d : database) : database :=
  let deleted := List.filter (is_id bk_id id) (bookings d) in
  set_payments
    (List.filter (fun p => negb (has bk_id (pm_booking_id p) deleted)) (payments d))
    (set_bookings (List.filter (fun b => negb (is_id bk_id id b)) (bookings d)) d).

Definition without_service (id : string) (d : database) : database :=
  set_services (List.filter (fun x => negb (is_id sv_id id x)) (services d)) d.

Definition without_customer (id : string) (d : database) : database :=
  let deleted := List.filter (is_id cu_id id) (customers d) in
  let deleted_bookings :=
    List.filter (fun b => has cu_id (bk_customer_id b) deleted) (bookings d) in
  set_payments
    (List.filter (fun p => negb (has bk_id (pm_booking_id p) deleted_bookings))
       (payments d))
    (set_bookings
       (List.filter (fun b => negb (has cu_id (bk_customer_id b) deleted)) (bookings d))
       (set_customers
          (List.filter (fun c => negb (is_id cu_id id c)) (customers d)) d)).

(** The session may delete every row with this id. *)
Definition may_delete {A} (w : world) (t : Rls.table) (key : A -> string)
    (as_row : A -> Rls.row) (l : list A) (id : string) : Prop :=
  forall x, x ∈ l -> key x = id -> reachable w t Rls.DELETE (as_row x) = true.

Lemma delete_target_is_id {A} w w0 t (key : A -> string) as_row l id :
  may_delete w t key as_row l id ->
  db w0 = db w -> rls w0 = rls w -> session w0 = session w ->
  forall x, x ∈ l ->
    bool_decide (key x = id) && reachable w0 t Rls.DELETE (as_row x)
    = is_id key id x.
Proof.
  intros Hmay Hd Hr Hs x Hx. unfold is_id.
  destruct (bool_decide (key x = id)) eqn:E; [|done].
  apply bool_decide_eq_true_1 in E.
  by rewrite (reachable_same_db w w0), (Hmay x Hx E).
Qed.

Lemma no_fault_same w w1 : faults w1 = faults w -> no_fault w -> no_fault w1.
Proof. unfold no_fault. by intros ->. Qed.

Lemma bookings_handleDelete_effect user id st w :
  confirmed w = true -> no_fault w ->
  may_delete w Rls.T_bookings bk_id booking_row (bookings (db w)) id ->
  db (world_of (run (Bookings.handleDelete user id st) w))
  = without_booking id (db w).
Proof.
  intros Hc Hnf Hmay. unfold Bookings.handleDelete. next_request.
  apply confirm_world in E as (-> & Hd & Hr & Hs & Hf). rewrite Hc. cbn [negb].
  next_request. cbn [backend] in E.
  destruct (faulty_no_fault (bookings_delete id) w0 (no_fault_same _ _ Hf Hnf))
    as (w2 & Hfa & Hd2 & Hr2 & Hs2 & _).
  rewrite Hfa in E. unfold bookings_delete in E. inversion E; subst; clear E.
  pose proof (loadBookings_db user st) as Hl.
  match goal with
  | |- context [run (Bookings.loadBookings ?u ?s) ?w0] =>
      specialize (Hl w0); destruct (run (Bookings.loadBookings u s) w0) as [[st' w3] l]
  end.
  cbn [world_of fst snd] in *. rewrite Hl. cbn [db set_db].
  assert (forall b, b ∈ bookings (db w2) ->
            bool_decide (bk_id b = id)
            && reachable w2 Rls.T_bookings Rls.DELETE (booking_row b)
            = is_id bk_id id b) as Ht.
  { rewrite Hd2, Hd. apply (delete_target_is_id w); [exact Hmay|congruence..]. }
  unfold without_booking.
  rewrite (filter_ext_elem _ (is_id bk_id id) _ Ht).
  rewrite (filter_ext_elem (fun b => negb _) (fun b => negb (is_id bk_id id b)) (bookings (db w2)))
    by (intros b Hb; by rewrite Ht).
  by rewrite Hd2, Hd.
Qed.

Lemma services_handleDelete_effect user id st w :
  confirmed w = true -> no_fault w ->
  may_delete w Rls.T_services sv_id service_row (services (db w)) id ->
  db (world_of (run (Services.handleDelete user id st) w))
  = if existsb (fun b => has sv_id (bk_service_id b)
                           (List.filter (is_id sv_id id) (services (db w))))
         (bookings (db w))
    then db w
    else without_service id (db w).
Proof.
  intros Hc Hnf Hmay. unfold Services.handleDelete. next_request.
  apply confirm_world in E as (-> & Hd & Hr & Hs & Hf). rewrite Hc. cbn [negb].
  next_request. cbn [backend] in E.
  destruct (faulty_no_fault (services_delete id) w0 (no_fault_same _ _ Hf Hnf))
    as (w2 & Hfa & Hd2 & Hr2 & Hs2 & _).
  rewrite Hfa in E. unfold services_delete in E.
  assert (forall x, x ∈ services (db w2) ->
            bool_decide (sv_id x = id)
            && reachable w2 Rls.T_services Rls.DELETE (service_row x)
            = is_id sv_id id x) as Ht.
  { rewrite Hd2, Hd. apply (delete_target_is_id w); [exact Hmay|congruence..]. }
  rewrite (filter_ext_elem _ (is_id sv_id id) _ Ht) in E.
  rewrite (filter_ext_elem (fun b => negb _) (fun b => negb (is_id sv_id id b)) (services (db w2))) in E
    by (intros b Hb; by rewrite Ht).
  rewrite Hd2, Hd in E.
  destruct (existsb _ (bookings (db w))); inversion E; subst; clear E.
  - next_request. next_request. rewrite run_ret. cbn in *.
    inversion E; inversion E0; subst. congruence.
  - pose proof (loadServices_db user st) as Hl.
    match goal with
    | |- context [run (Services.loadServices ?u ?s) ?w0] =>
        destruct (Hl w0) as [Hl' _];
        destruct (run (Services.loadServices u s) w0) as [[st' w3] l]
    end.
    cbn [world_of fst snd] in *. rewrite Hl'. cbn [db set_db].
    unfold without_service. by rewrite ?Hd2, ?Hd.
Qed.

Lemma customers_handleDelete_effect user id st w :
  confirmed w = true -> no_fault w ->
  may_delete w Rls.T_customers cu_id customer_row (customers (db w)) id ->
  db (world_of (run (Customers.handleDelete user id st) w))
  = without_customer id (db w).
Proof.
  intros Hc Hnf Hmay. unfold Customers.handleDelete. next_request.
  apply confirm_world in E as (-> & Hd & Hr & Hs & Hf). rewrite Hc. cbn [negb].
  next_request. cbn [backend] in E.
  destruct (faulty_no_fault (customers_delete id) w0 (no_fault_same _ _ Hf Hnf))
    as (w2 & Hfa & Hd2 & Hr2 & Hs2 & _).
  rewrite Hfa in E. unfold customers_delete in E. inversion E; subst; clear E.
  pose proof (loadCustomers_db user st) as Hl.
  match goal with
  | |- context [run (Customers.loadCustomers ?u ?s) ?w0] =>
      destruct (Hl w0) as [Hl' _];
      destruct (run (Customers.loadCustomers u s) w0) as [[st' w3] l]
  end.
  cbn [world_of fst snd] in *. rewrite Hl'. cbn [db set_db].
  assert (forall c, c ∈ customers (db w2) ->
            bool_decide (cu_id c = id)
            && reachable w2 Rls.T_customers Rls.DELETE (customer_row c)
            = is_id cu_id id c) as Ht.
  { rewrite Hd2, Hd. apply (delete_target_is_id w); [exact Hmay|congruence..]. }
  unfold without_customer.
  rewrite (filter_ext_elem _ (is_id cu_id id) _ Ht).
  rewrite (filter_ext_elem (fun b => negb _) (fun b => negb (is_id cu_id id b)) (customers (db w2)))
    by (intros b Hb; by rewrite Ht).
  by rewrite Hd2, Hd.
Qed.


(** X14. A confirmed deletion, when no failure is injected and the
    policies let the session delete the rows with this id, sends one
    writing request, the DELETE, and leaves the tables as the schema's
    [ON DELETE] rules have them: a booking goes with its payment, a customer
    with its bookings and their payments, a service alone (it must have no
    booking). Nothing is kept of the deleted row. *)
Theorem handleDelete_deletes_exactly_the_row
    (user : option user) (id : string) (w : world) :
  confirmed w = true -> no_fault w ->
  (forall st,
     may_delete w Rls.T_bookings bk_id booking_row (bookings (db w)) id ->
     let r := run (Bookings.handleDelete user id st) w in
     List.filter is_mutation (log_of r) = [Request (Bookings_delete id)]
     /\ db (world_of r) = without_booking id (db w))
  /\ (forall st,
     may_delete w Rls.T_services sv_id service_row (services (db w)) id ->
     (forall b, b ∈ bookings (db w) -> bk_service_id b <> id) ->
     let r := run (Services.handleDelete user id st) w in
     List.filter is_mutation (log_of r) = [Request (Services_delete id)]
     /\ db (world_of r) = without_service id (db w))
  /\ (forall st,
     may_delete w Rls.T_customers cu_id customer_row (customers (db w)) id ->
     let r := run (Customers.handleDelete user id st) w in
     List.filter is_mutation (log_of r) = [Request (Customers_delete id)]
     /\ db (world_of r) = without_customer id (db w)).
Proof.
  intros Hc Hnf. split; [|split].
  - intros st Hmay. cbv zeta. split.
    + by rewrite bookings_handleDelete_mutations, Hc.
    + by apply bookings_handleDelete_effect.
  - intros st Hmay Hunused. cbv zeta. split.
    + by rewrite services_handleDelete_mutations, Hc.
    + rewrite services_handleDelete_effect by done.
      rewrite existsb_false; [done|]. intros b Hb.
      apply existsb_false. intros x [Hx Hid]%list_elem_of_In%filter_In.
      apply bool_decide_eq_false_2. unfold is_id in Hid.
      apply bool_decide_eq_true_1 in Hid. intros Heq.
      apply (Hunused b Hb). congruence.
  - intros st Hmay. cbv zeta. split.
    + by rewrite customers_handleDelete_mutations, Hc.
    + by apply customers_handleDelete_effect.
Qed.

Lemma handleDelete_deletes_exactly_the_row_witness :
  let r := run (Bookings.handleDelete (Some owner) "booking-1" closed_page)
             booked_world in
  List.filter is_mutation (log_of r) = [Request (Bookings_delete "booking-1")]
  /\ db (world_of r) = without_booking "booking-1" (db booked_world).
Proof.
  refine (proj1 (handleDelete_deletes_exactly_the_row (Some owner) "booking-1"
                   booked_world _ _) closed_page _).
  - reflexivity.
  - exact I.
  - intros b Hb _. apply list_elem_of_singleton in Hb as ->. by vm_compute.
Defined.

Example delete_booking_cascades_to_its_payment :
  let d := without_booking "booking-1" booked_db in
  bookings d = [] /\ payments d = [] /\ customers d = customers booked_db
  /\ services d = services booked_db.
Proof. by vm_compute. Qed.


(** *** Failures *)

Definition customer_write (business_id : string) (formData : Customers.form)
    (st : page_state customer) : request :=
  let data :=
    CustomerData business_id (Customers.first_name formData)
      (Customers.last_name formData) (Customers.email formData)
      (or_null (Customers.phone formData)) (or_null (Customers.notes formData))
      (match Customers.tags formData with [] => None | l => Some l end) in
  match editing st with
  | Some editingCustomer => Request (Customers_update data (cu_id editingCustomer))
  | None => Request (Customers_insert data)
  end.

Definition booking_write (business_id : string) (formData : Bookings.form)
    (start end_ : timestamp) (st : page_state booking) : request :=
  match editing st with
  | Some editingBooking =>
      Request (Bookings_update (bookingData_of business_id formData start end_)
                 (bk_id editingBooking))
  | None => Request (Bookings_insert (bookingData_of business_id formData start end_))
  end.

(** The answer of the backend to a request whose answer is a [result]:
    the error, if it fails. *)
Definition failure_of (r : request) (w : world) : option pg_error :=
  match r with
  | Request (Bookings_insert d) => match (backend (Bookings_insert d) w).1 with Err e => Some e | Ok _ => None end
  | Request (Bookings_update d id) => match (backend (Bookings_update d id) w).1 with Err e => Some e | Ok _ => None end
  | Request (Bookings_update_status s id) => match (backend (Bookings_update_status s id) w).1 with Err e => Some e | Ok _ => None end
  | Request (Bookings_delete id) => match (backend (Bookings_delete id) w).1 with Err e => Some e | Ok _ => None end
  | Request (Services_insert d) => match (backend (Services_insert d) w).1 with Err e => Some e | Ok _ => None end
  | Request (Services_update d id) => match (backend (Services_update d id) w).1 with Err e => Some e | Ok _ => None end
  | Request (Services_update_active a id) => match (backend (Services_update_active a id) w).1 with Err e => Some e | Ok _ => None end
  | Request (Services_delete id) => match (backend (Services_delete id) w).1 with Err e => Some e | Ok _ => None end
  | Request (Customers_insert d) => match (backend (Customers_insert d) w).1 with Err e => Some e | Ok _ => None end
  | Request (Customers_update d id) => match (backend (Customers_update d id) w).1 with Err e => Some e | Ok _ => None end
  | Request (Customers_delete id) => match (backend (Customers_delete id) w).1 with Err e => Some e | Ok _ => None end
  | _ => None
  end.

Lemma bookings_handleSubmit_failure user services formData st w business_id start end_ e :
  business_id_of user = Some business_id ->
  Bookings.customer_id formData <> "" -> Bookings.service_id formData <> "" ->
  Bookings.start_time formData = Some start -> Bookings.end_time formData = Some end_ ->
  failure_of (booking_write business_id formData start end_ st) w = Some e ->
  let r := run (Bookings.handleSubmit user services formData st) w in
  log_of r = [booking_write business_id formData start end_ st]
  /\ error (result_of r) = or_default (message e) "Failed to save booking".
Proof.
  intros Hb Hc Hs Hstart Hend Hfail. cbv zeta.
  unfold Bookings.handleSubmit. rewrite Hb, (or_null_Some _ Hc), (or_null_Some _ Hs).
  rewrite Hstart, Hend. cbn [editing setSubmitting setError].
  fold (bookingData_of business_id formData start end_).
  unfold booking_write in *. destruct (editing st); cbn [failure_of] in Hfail;
    next_request; cbn [fst] in Hfail;
    destruct x; [done| |done|]; injection Hfail as ->; by rewrite run_ret.
Qed.

Lemma services_handleSubmit_failure user formData st w business_id e :
  business_id_of user = Some business_id ->
  (0 <= Services.price formData)%Q -> 0 < Services.duration formData ->
  failure_of (service_write business_id formData st) w = Some e ->
  let r := run (Services.handleSubmit user formData st) w in
  log_of r = [service_write business_id formData st]
  /\ error (result_of r) = or_default (message e) "Failed to save service".
Proof.
  intros Hb Hp Hd Hfail. cbv zeta. unfold Services.handleSubmit. rewrite Hb.
  destruct (Q_negative _) eqn:Ep.
  { apply Q_negative_spec in Ep. by apply Qle_not_lt in Hp. }
  destruct (_ <=? 0) eqn:Ed. { apply Z.leb_le in Ed. lia. }
  cbn [editing setSubmitting setError]. unfold service_write in *.
  destruct (editing st); cbn [failure_of] in Hfail;
    next_request; cbn [fst] in Hfail;
    destruct x; [done| |done|]; injection Hfail as ->; by rewrite run_ret.
Qed.

Lemma customers_handleSubmit_failure user formData st w business_id e :
  business_id_of user = Some business_id ->
  failure_of (customer_write business_id formData st) w = Some e ->
  let r := run (Customers.handleSubmit user formData st) w in
  log_of r = [customer_write business_id formData st]
  /\ error (result_of r)
     = if bool_decide (editing st = None /\ code e = "23505")
       then "A customer with this email already exists"
       else or_default (message e) "Failed to save customer".
Proof.
  intros Hb Hfail. cbv zeta. unfold Customers.handleSubmit. rewrite Hb.
  cbn [editing setSubmitting setError]. unfold customer_write in *.
  destruct (editing st) eqn:Eed; cbn [failure_of] in Hfail;
    next_request; cbn [fst] in Hfail;
    destruct x; [done| |done|]; injection Hfail as ->.
  - rewrite run_ret. split; [done|]. by rewrite bool_decide_eq_false_2 by (by intros [? _]).
  - destruct (bool_decide (code e = "23505")) eqn:Ec; rewrite run_ret; split; try done.
    + apply bool_decide_eq_true_1 in Ec. by rewrite bool_decide_eq_true_2.
    + apply bool_decide_eq_false_1 in Ec. by rewrite bool_decide_eq_false_2 by (by intros [_ ?]).
Qed.


(** X16. When the write of a form fails, it is the only request of the
    submission (nothing is retried or undone) and the form shows the
    error's message, or the page's own text when the message is empty; the
    customers form shows its own text for a unique violation (code 23505)
    of an insert. *)
Theorem handleSubmit_failure (user : option user) (w : world) (e : pg_error)
    (business_id : string) :
  business_id_of user = Some business_id ->
  (forall services formData st start end_,
     Bookings.customer_id formData <> "" -> Bookings.service_id formData <> "" ->
     Bookings.start_time formData = Some start ->
     Bookings.end_time formData = Some end_ ->
     failure_of (booking_write business_id formData start end_ st) w = Some e ->
     let r := run (Bookings.handleSubmit user services formData st) w in
     log_of r = [booking_write business_id formData start end_ st]
     /\ error (result_of r) = or_default (message e) "Failed to save booking")
  /\ (forall formData st,
     (0 <= Services.price formData)%Q -> 0 < Services.duration formData ->
     failure_of (service_write business_id formData st) w = Some e ->
     let r := run (Services.handleSubmit user formData st) w in
     log_of r = [service_write business_id formData st]
     /\ error (result_of r) = or_default (message e) "Failed to save service")
  /\ (forall formData st,
     failure_of (customer_write business_id formData st) w = Some e ->
     let r := run (Customers.handleSubmit user formData st) w in
     log_of r = [customer_write business_id formData st]
     /\ error (result_of r)
        = if bool_decide (editing st = None /\ code e = "23505")
          then "A customer with this email already exists"
          else or_default (message e) "Failed to save customer").
Proof.
  intros Hb. split; [|split].
  - intros services formData st start end_. by apply bookings_handleSubmit_failure.
  - intros formData st. by apply services_handleSubmit_failure.
  - intros formData st. by apply customers_handleSubmit_failure.
Qed.

Definition alice_again : Customers.form :=
  Customers.Form "Alice" "B" "alice@example.com" "" "" [].

Lemma handleSubmit_failure_witness :
  let r := run (Customers.handleSubmit (Some owner) alice_again closed_page)
             salon_world in
  log_of r = [customer_write "business-1" alice_again closed_page]
  /\ error (result_of r)
     = if bool_decide (editing (@closed_page customer) = None
                       /\ code unique_violation = "23505")
       then "A customer with this email already exists"
       else or_default (message unique_violation) "Failed to save customer".
Proof.
  refine (proj2 (proj2 (handleSubmit_failure (Some owner) salon_world
                          unique_violation "business-1" _)) alice_again
            closed_page _).
  - reflexivity.
  - by vm_compute.
Defined.

(** The world once the user has answered the confirmation dialog. *)
Definition answered (w : world) : world :=
  match confirms w with _ :: cs => set_confirms cs w | [] => w end.

Lemma confirm_answered w msg :
  backend (Confirm msg) w = (confirmed w, answered w).
Proof. unfold confirmed, answered. cbn. by destruct (confirms w) as [|[] cs]. Qed.







(** **** signUp *)

Definition is_getSession (r : request) : bool :=
  match the_event r with Auth_getSession => true | _ => false end.

Definition polls (log : list request) : nat :=
  length (List.filter is_getSession log).

Lemma poll_session_polls n w :
  (polls (log_of (run (AuthContext.poll_session n) w)) <= n)%nat.
Proof.
  revert w. induction n as [|n IH]; intros w; [done|].
  cbn [AuthContext.poll_session]. next_request. next_request.
  destruct x0.
  - rewrite run_ret. unfold polls. cbn. lia.
  - specialize (IH w1). destruct (run _ w1) as [[s w2] l].
    unfold polls in *. cbn in *. lia.
Qed.

Lemma polls_app l1 l2 : polls (l1 ++ l2) = (polls l1 + polls l2)%nat.
Proof. unfold polls. by rewrite List.filter_app, length_app. Qed.

Lemma polls_cons r l :
  polls (r :: l) = ((if is_getSession r then 1 else 0) + polls l)%nat.
Proof. unfold polls. cbn. by destruct (is_getSession r). Qed.

Lemma signUp_finish_polls role authUser profile w :
  polls (log_of (run (AuthContext.signUp_finish role authUser profile) w)) = 0%nat.
Proof. unfold AuthContext.signUp_finish. by destruct (_ && _). Qed.

Lemma signUp_create_profile_polls email firstName lastName role businessId authUser w :
  (polls (log_of (run (AuthContext.signUp_create_profile email firstName lastName
                         role businessId authUser) w)) <= 5)%nat.
Proof.
  unfold AuthContext.signUp_create_profile. rewrite log_of_bind, polls_app.
  pose proof (poll_session_polls 5 w) as Hp.
  destruct (run (AuthContext.poll_session 5) w) as [[session w2] l].
  cbn [result_of world_of log_of fst snd] in *.
  match goal with
  | |- (_ + ?n <= _)%nat => assert (n = 0%nat) as ->; [|lia]
  end.
  destruct session as [s|]; [|by destruct (negb _)].
  cbv zeta. rewrite log_of_call, polls_cons. cbn [is_getSession the_event].
  destruct (backend _ w2) as [[newProfile|createError] w3]; cbn [fst snd].
  - by rewrite signUp_finish_polls.
  - rewrite log_of_call, polls_cons. cbn [is_getSession the_event].
    destruct (backend _ w3) as [[] w4]; cbn [fst snd].
    destruct (bool_decide (code createError = "23505")).
    + rewrite log_of_call, polls_cons. cbn [is_getSession the_event].
      destruct (backend _ w4) as [[fetched|?] w5]; cbn [fst snd].
      * by rewrite signUp_finish_polls.
      * by rewrite log_of_call, polls_cons.
    + by rewrite log_of_call, polls_cons.
Qed.

Lemma signUp_try_polls email password firstName lastName role businessId w :
  (polls (log_of (run (AuthContext.signUp_try email password firstName lastName
                         role businessId) w)) <= 5)%nat.
Proof.
  unfold AuthContext.signUp_try. rewrite log_of_call, polls_cons.
  cbn [is_getSession the_event].
  destruct (backend _ w) as [[authUser|authError] w1]; cbn [fst snd].
  2: { destruct (_ || _); [cbn; lia|]. destruct (_ || _); cbn; lia. }
  destruct (bool_decide (au_id authUser = "")); [cbn; lia|].
  rewrite log_of_call, polls_cons. cbn [is_getSession the_event].
  destruct (backend _ w1) as [[] w2]; cbn [fst snd].
  rewrite log_of_call, polls_cons. cbn [is_getSession the_event].
  destruct (backend _ w2) as [[[existingProfile|]|?] w3]; cbn [fst snd plus].
  - rewrite signUp_finish_polls. lia.
  - apply signUp_create_profile_polls.
  - apply signUp_create_profile_polls.
Qed.

Lemma signUp_polls email password firstName lastName role businessId w :
  (polls (log_of (run (AuthContext.signUp email password firstName lastName
                         role businessId) w)) <= 5)%nat.
Proof.
  unfold AuthContext.signUp. rewrite log_of_bind, polls_app.
  pose proof (signUp_try_polls email password firstName lastName role businessId w)
    as Htry.
  destruct (run (AuthContext.signUp_try _ _ _ _ _ _) w) as [[[u o] w1] l1].
  cbn [result_of world_of log_of fst snd] in *. destruct o.
  - cbn. lia.
  - rewrite log_of_call, polls_cons. cbn [is_getSession the_event].
    destruct (AuthContext.is_network_error msg); cbn; lia.
Qed.

(** *** Required fields of the booking form *)

(** X10. [handleSubmit] of the bookings page first checks that the user
    has a business, then that a customer, a service, a start and an end
    time are filled in. A failed check shows its message, sends no request
    and ends the submission. *)
Theorem bookings_handleSubmit_validation
    (user : option user) (services : list service) (formData : Bookings.form)
    (st : page_state booking) (w : world) :
  let r := run (Bookings.handleSubmit user services formData st) w in
  (business_id_of user = None ->
     error (result_of r) = "Business ID is missing" /\ log_of r = []
     /\ submitting (result_of r) = false)
  /\ (business_id_of user <> None ->
      Bookings.customer_id formData = "" \/ Bookings.service_id formData = ""
      \/ Bookings.start_time formData = None \/ Bookings.end_time formData = None ->
      error (result_of r) = "Please fill in all required fields" /\ log_of r = []
      /\ submitting (result_of r) = false).
Proof.
  cbv zeta. unfold Bookings.handleSubmit. split.
  - by intros ->.
  - intros Hb Hmissing. destruct (business_id_of user) as [b|]; [|done].
    unfold or_null.
    destruct Hmissing as [ -> | [ -> | [ -> | -> ] ] ]; cbn [bool_decide decide_rel];
      repeat case_bool_decide; try done;
      destruct (Bookings.start_time formData); try done.
Qed.

Definition empty_booking_form : Bookings.form :=
  Bookings.Form "" "service-1" "" (Some 100) (Some 200) "" PENDING.

Lemma bookings_handleSubmit_validation_witness :
  let r := run (Bookings.handleSubmit (Some owner) [haircut] empty_booking_form
                  closed_page) salon_world in
  error (result_of r) = "Please fill in all required fields" /\ log_of r = []
  /\ submitting (result_of r) = false.
Proof.
  refine (proj2 (bookings_handleSubmit_validation (Some owner) [haircut]
                   empty_booking_form closed_page salon_world) _ _).
  - discriminate.
  - left. reflexivity.
Defined.

(** *** A deletion that is not confirmed *)

(** X15. When the user does not confirm, [handleDelete] of the three
    pages asks nothing of the backend: the confirmation dialog is its only
    request, and the page and the tables are as before. *)
Theorem handleDelete_cancelled (user : option user) (id : string) (w : world) :
  confirmed w = false ->
  (forall st, let r := run (Bookings.handleDelete user id st) w in
     result_of r = st /\ db (world_of r) = db w
     /\ log_of r = [Request (Confirm "Are you sure you want to delete this booking?")])
  /\ (forall st, let r := run (Services.handleDelete user id st) w in
     result_of r = st /\ db (world_of r) = db w
     /\ log_of r = [Request (Confirm "Are you sure you want to delete this service?")])
  /\ (forall st, let r := run (Customers.handleDelete user id st) w in
     result_of r = st /\ db (world_of r) = db w
     /\ log_of r = [Request (Confirm "Are you sure you want to delete this customer?")]).
Proof.
  intros Hc. repeat split.
  all: unfold Bookings.handleDelete, Services.handleDelete, Customers.handleDelete;
    rewrite run_call, confirm_answered, Hc; cbn [fst snd negb];
    rewrite run_ret; cbn [result_of world_of log_of fst snd]; try done.
  all: unfold answered; by destruct (confirms w).
Qed.


Definition hesitant_world : world := set_confirms [false] salon_world.

Lemma handleDelete_cancelled_witness :
  let r := run (Customers.handleDelete (Some owner) "customer-1" closed_page)
             hesitant_world in
  result_of r = closed_page /\ db (world_of r) = db hesitant_world
  /\ log_of r = [Request (Confirm "Are you sure you want to delete this customer?")].
Proof.
  refine (proj2 (proj2 (handleDelete_cancelled (Some owner) "customer-1"
                          hesitant_world _)) closed_page).
  reflexivity.
Defined.

(** *** Switching a service on and off *)




(** *** Tags of the customer form *)

Lemma handleAddTag_keeps_tags_distinct
    (trim : string -> string) (formData : Customers.form) (tagInput : string) :
  NoDup (Customers.tags formData) -> "" ∉ Customers.tags formData ->
  let r := Customers.handleAddTag trim formData tagInput in
  NoDup (Customers.tags (fst r)) /\ ("" ∉ Customers.tags (fst r))
  /\ (forall t, t ∈ Customers.tags (fst r) <->
                t ∈ Customers.tags formData \/ (t = trim tagInput /\ t <> "")).
Proof.
  intros Hnd Hne. cbv zeta. unfold Customers.handleAddTag.
  destruct (bool_decide (trim tagInput = "")) eqn:E1; cbn [negb andb fst].
  { apply bool_decide_eq_true_1 in E1. split; [done|]. split; [done|].
    intros t. split; [auto|]. intros [?|[ -> ?]]; [done|]. by rewrite E1 in *. }
  apply bool_decide_eq_false_1 in E1.
  destruct (bool_decide (trim tagInput ∈ _)) eqn:E2; cbn [negb andb fst].
  { apply bool_decide_eq_true_1 in E2. split; [done|]. split; [done|].
    intros t. split; [auto|]. by intros [?|[ -> ?]]. }
  apply bool_decide_eq_false_1 in E2. cbn [Customers.tags].
  split; [|split].
  - apply NoDup_app. split; [done|]. split; [|apply NoDup_singleton].
    intros t Ht ->%list_elem_of_singleton. done.
  - rewrite elem_of_app, list_elem_of_singleton. intros [?|?]; [done|]. by apply E1.
  - intros t. rewrite elem_of_app, list_elem_of_singleton. split.
    + intros [?| ->]; auto.
    + intros [?|[ -> _]]; auto.
Qed.

Lemma filter_other {A} `{EqDecision A} (x : A) l :
  x ∉ l -> List.filter (fun t => negb (bool_decide (t = x))) l = l.
Proof.
  induction l as [|y l IH]; [done|]. intros [Hy Hl]%not_elem_of_cons. simpl.
  rewrite bool_decide_eq_false_2 by done. simpl. by rewrite IH.
Qed.

Lemma handleRemoveTag_undoes_handleAddTag
    (trim : string -> string) (formData : Customers.form) (tagInput tag : string) :
  (tag ∉ Customers.tags (Customers.handleRemoveTag tag formData))
  /\ (trim tagInput ∉ Customers.tags formData ->
      Customers.handleRemoveTag (trim tagInput)
        (fst (Customers.handleAddTag trim formData tagInput)) = formData).
Proof.
  split.
  - unfold Customers.handleRemoveTag. cbn [Customers.tags].
    intros [_ H]%list_elem_of_In%filter_In. by rewrite bool_decide_eq_true_2 in H.
  - intros Hnew. unfold Customers.handleAddTag, Customers.handleRemoveTag.
    destruct formData as [fn ln em ph no tags]. cbn [Customers.tags] in *.
    destruct (negb _ && negb _); cbn [fst Customers.tags Customers.first_name
      Customers.last_name Customers.email Customers.phone Customers.notes].
    + rewrite List.filter_app, filter_other by done. simpl.
      rewrite bool_decide_eq_true_2 by done. simpl. by rewrite app_nil_r.
    + by rewrite filter_other.
Qed.


(** X20. The tags of the customer form stay distinct and never contain
    the empty string: [handleAddTag] appends the trimmed input only when it
    is not empty and not yet a tag, and otherwise changes nothing.
    [handleRemoveTag] removes the tag, and removing a tag just added gives
    the form back as it was. ([trim] is the string's [trim()]; nothing is
    assumed of it.) *)
Theorem customer_tags_stay_distinct
    (trim : string -> string) (formData : Customers.form) (tagInput tag : string) :
  NoDup (Customers.tags formData) -> "" ∉ Customers.tags formData ->
  let added := fst (Customers.handleAddTag trim formData tagInput) in
  NoDup (Customers.tags added) /\ ("" ∉ Customers.tags added)
  /\ (forall t, t ∈ Customers.tags added <->
                t ∈ Customers.tags formData \/ (t = trim tagInput /\ t <> ""))
  /\ (tag ∉ Customers.tags (Customers.handleRemoveTag tag formData))
  /\ (trim tagInput ∉ Customers.tags formData ->
      Customers.handleRemoveTag (trim tagInput) added = formData).
Proof.
  intros Hnd Hne. cbv zeta.
  destruct (handleAddTag_keeps_tags_distinct trim formData tagInput Hnd Hne)
    as (H1 & H2 & H3).
  destruct (handleRemoveTag_undoes_handleAddTag trim formData tagInput tag)
    as (H4 & H5).
  auto.
Qed.

Definition vip_form : Customers.form :=
  Customers.Form "Alice" "A" "alice@example.com" "" "" ["vip"].

Lemma customer_tags_stay_distinct_witness :
  let added := fst (Customers.handleAddTag (fun s => s) vip_form "regular") in
  NoDup (Customers.tags added) /\ ("" ∉ Customers.tags added)
  /\ (forall t, t ∈ Customers.tags added <->
                t ∈ Customers.tags vip_form \/ (t = "regular" /\ t <> ""))
  /\ ("vip" ∉ Customers.tags (Customers.handleRemoveTag "vip" vip_form))
  /\ ("regular" ∉ Customers.tags vip_form ->
      Customers.handleRemoveTag "regular" added = vip_form).
Proof.
  apply (customer_tags_stay_distinct (fun s => s) vip_form "regular" "vip").
  - apply (bool_decide_eq_true_1 _). reflexivity.
  - apply (bool_decide_eq_true_1 _). reflexivity.
Defined.

(** *** Opening a row in the form and saving it *)







Lemma faulty_Ok {A} (op : world -> result A * world) w a w' :
  faulty w op = (Ok a, w') ->
  exists w1, op w1 = (Ok a, w') /\ db w1 = db w /\ rls w1 = rls w
             /\ session w1 = session w /\ auth w1 = auth w.
Proof.
  unfold faulty. destruct (faults w) as [|[f|] fs]; [|done|]; eauto 10.
Qed.

Lemma or_default_nonempty x fallback : fallback <> "" -> or_default x fallback <> "".
Proof. intros H. unfold or_default. by case_bool_decide. Qed.

(** The row the customers form writes over [y] when it was opened for
    [c] and nothing was typed. *)
Definition resaved (c y : customer) : customer :=
  Customer (cu_id y) (cu_business_id y) (cu_first_name c) (cu_last_name c)
    (cu_email c) (or_null (default "" (cu_phone c))) None
    (match default [] (cu_tags c) with [] => None | l => Some l end)
    (cu_last_visit y).

(** X22. The customers form opens an existing customer with an empty
    [notes] field, and [handleSubmit] sends [notes = null] for an empty
    field: the update sent after opening a customer carries no notes,
    whatever the customer's notes are, and when the save succeeds a row the
    session may update has [notes] NULL (and [phone] and [tags] NULL when
    they were empty), its id, business and last visit being kept. *)
Theorem customers_save_clears_notes
    (user : option user) (c : customer) (st : page_state customer) (w : world)
    (business_id : string) :
  business_id_of user = Some business_id ->
  let opened := Customers.handleOpenModal (Some c) st in
  let r := run (Customers.handleSubmit user opened.1.2 opened.1.1) w in
  (exists data rest,
      log_of r = Request (Customers_update data (cu_id c)) :: rest
      /\ cd_notes data = None)
  /\ (error (result_of r) = "" ->
      forall y, y ∈ customers (db w) -> cu_id y = cu_id c ->
        reachable w Rls.T_customers Rls.UPDATE (customer_row y) = true ->
        resaved c y ∈ customers (db (world_of r))).
Proof.
  intros Hb. cbv zeta. unfold Customers.handleOpenModal. cbn [fst snd].
  unfold Customers.handleSubmit. rewrite Hb.
  cbn [Customers.first_name Customers.last_name Customers.email Customers.phone
       Customers.notes Customers.tags editing setSubmitting setError].
  next_request. destruct x as [[]|e].
  - rewrite run_bind.
    match goal with
    | |- context [run (Customers.loadCustomers ?u ?s) ?w0] =>
        destruct (loadCustomers_db u s w0) as [Hl _];
        destruct (run (Customers.loadCustomers u s) w0) as [[a w2] l]
    end.
    rewrite run_ret. cbn [result_of world_of log_of fst snd] in *.
    split; [by eauto|]. intros _ y Hy Hid Hreach. rewrite Hl.
    cbn [backend] in E. apply faulty_Ok in E as (w1 & E & Hd & Hr & Hs & _).
    unfold customers_update, customers_update_with in E.
    destruct (existsb _ _); [done|]. destruct (existsb _ _); [done|].
    injection E as <-. cbn [db set_db customers set_customers].
    apply list_elem_of_fmap. exists y. rewrite Hd. split; [|done].
    rewrite (reachable_same_db w w1), Hreach, bool_decide_eq_true_2 by done.
    reflexivity.
  - rewrite run_ret. cbn [result_of world_of log_of fst snd].
    split; [by eauto|]. cbn [error setError setSubmitting]. intros H.
    by apply or_default_nonempty in H.
Qed.


Definition carol : customer :=
  Customer "customer-2" "business-1" "Carol" "C" "carol@example.com"
    (Some "555-0100") (Some "allergic to latex") None None.
Definition carol_world : world :=
  set_db (set_customers [alice; carol] salon_db) salon_world.

Lemma customers_save_clears_notes_witness :
  let opened := Customers.handleOpenModal (Some carol) closed_page in
  let r := run (Customers.handleSubmit (Some owner) opened.1.2 opened.1.1)
             carol_world in
  (exists data rest,
      log_of r = Request (Customers_update data (cu_id carol)) :: rest
      /\ cd_notes data = None)
  /\ (error (result_of r) = "" ->
      forall y, y ∈ customers (db carol_world) -> cu_id y = cu_id carol ->
        reachable carol_world Rls.T_customers Rls.UPDATE (customer_row y) = true ->
        resaved carol y ∈ customers (db (world_of r))).
Proof.
  apply (customers_save_clears_notes (Some owner) carol closed_page carol_world
           "business-1").
  reflexivity.
Defined.

(** *** Registration *)









(** *** Marking an invite as used *)

Lemma set_staff_invites_same d : set_staff_invites (staff_invites d) d = d.
Proof. by destruct d. Qed.

Lemma invite_update_needs_owner w i :
  Rls.after_readme_order = Some (rls w) ->
  (forall u, u ∈ users (db w) -> session w = Some (u_id u) ->
     u_role u <> Rls.BUSINESS_OWNER) ->
  may w Rls.T_staff_invites Rls.UPDATE (invite_row i) = false.
Proof.
  intros Hrls Hrole. unfold may.
  pose proof (fun s r H =>
    proj1 (proj2 (RlsSpec.staff_invites_grant_spec (rls w) (rls_tables w) s
                    Rls.UPDATE r Hrls H) ltac:(discriminate))) as Hauth.
  pose proof (fun s H =>
    RlsSpec.anon_grant_spec (rls w) (rls_tables w) s Rls.T_staff_invites
      Rls.UPDATE (invite_row i) Hrls H) as Hanon.
  clear Hrls.
  destruct (session w) as [uid|] eqn:Hs.
  - destruct (Rls.access _ _ _ _ _ _) eqn:Hacc; [|done]. exfalso.
    apply Hauth in Hacc; [|unfold rls_session; by rewrite Hs].
    destruct Hacc as (o & b & Ho & Huid & Hrole' & _).
    unfold rls_tables in Ho. cbn [Rls.t_users] in Ho.
    apply list_elem_of_fmap in Ho as (u & -> & Hu).
    unfold rls_session in Huid. rewrite Hs in Huid. cbn in Huid.
    by apply (Hrole u Hu).
  - rewrite Hanon; [done|]. unfold rls_session. by rewrite Hs.
Qed.

(** X25. Under the README's policies, the request that marks an invite
    as used changes no row unless the session belongs to a BUSINESS_OWNER:
    for every other session (the staff member who has just registered, or
    no session at all) the tables are as before, and without an injected
    failure the answer is a success all the same. *)
Theorem invite_stays_unused_without_owner (w : world) (token : string)
    (now : timestamp) :
  Rls.after_readme_order = Some (rls w) ->
  (forall u, u ∈ users (db w) -> session w = Some (u_id u) ->
     u_role u <> Rls.BUSINESS_OWNER) ->
  let answer := backend (Invites_mark_used token now) w in
  db answer.2 = db w /\ (no_fault w -> answer.1 = Ok tt).
Proof.
  intros Hrls Hrole. cbv zeta. cbn [backend].
  pose proof (fun i => invite_update_needs_owner w i Hrls Hrole) as Hmay.
  clear Hrls Hrole.
  assert (forall w1, db w1 = db w -> rls w1 = rls w -> session w1 = session w ->
            (invites_mark_used token now w1).1 = Ok tt
            /\ db (invites_mark_used token now w1).2 = db w) as Hop.
  { intros w1 Hd Hr Hs. unfold invites_mark_used.
    assert (forall i, bool_decide (in_token i = token)
                      && reachable w1 Rls.T_staff_invites Rls.UPDATE (invite_row i)
                      = false) as Ht.
    { intros i. unfold reachable.
      rewrite (may_same_db w w1 _ Rls.UPDATE) by done.
      rewrite Hmay. by rewrite !andb_false_r. }
    rewrite existsb_false by (intros i _; by rewrite Ht).
    cbn [fst snd db set_db]. split; [done|].
    rewrite Hd.
    transitivity (set_staff_invites (staff_invites (db w)) (db w));
      [|apply set_staff_invites_same].
    f_equal. rewrite <- (list_fmap_id (staff_invites (db w))) at 2.
    apply list_fmap_ext. intros k i _. by rewrite Ht. }
  unfold faulty, no_fault. destruct (faults w) as [|[f|] fs]; cbn [fst snd].
  - destruct (Hop w) as [H1 H2]; done.
  - done.
  - destruct (Hop (set_faults fs w)) as [H1 H2]; done.
Qed.


Definition bob : user :=
  User "user-3" "bob@example.com" "Bob" "B" Rls.STAFF None true.
Definition bob_world : world :=
  set_session (Some "user-3")
    (set_db (set_users [owner; newcomer; bob] salon_db) salon_world).

Lemma invite_stays_unused_without_owner_witness :
  let answer := backend (Invites_mark_used "tok" 6000) bob_world in
  db answer.2 = db bob_world /\ (no_fault bob_world -> answer.1 = Ok tt).
Proof.
  apply (invite_stays_unused_without_owner bob_world "tok" 6000).
  - exact RlsSpec.after_readme_order_is_readme_state.
  - intros u Hu Hs. repeat (apply elem_of_cons in Hu as [->|Hu]).
    + discriminate Hs.
    + discriminate Hs.
    + discriminate.
    + by apply elem_of_nil in Hu.
Defined.

(** *** signUp *)







(** *** What the schema's constraints keep true *)


Lemma has_spec {A} (key : A -> string) k l :
  has key k l = true <-> k ∈ key <$> l.
Proof.
  unfold has. rewrite existsb_exists, list_elem_of_fmap. split.
  - intros (x & Hx%list_elem_of_In & Hk%bool_decide_eq_true_1). eauto.
  - intros (x & -> & Hx). exists x. split; [by apply list_elem_of_In|].
    by apply bool_decide_eq_true_2.
Qed.

Lemma has_false {A} (key : A -> string) k l :
  has key k l = false <-> k ∉ key <$> l.
Proof. rewrite <- has_spec. by destruct (has key k l). Qed.

Lemma has_same_keys {A} (key : A -> string) k (l l' : list A) :
  key <$> l' = key <$> l -> has key k l' = has key k l.
Proof.
  intros H. apply eq_true_iff_eq. by rewrite !has_spec, H.
Qed.





Lemma elem_of_filter_list {A} (f : A -> bool) l x :
  x ∈ List.filter f l <-> x ∈ l /\ f x = true.
Proof. by rewrite !list_elem_of_In, filter_In. Qed.































(** *** Times play no part in accepting a booking *)

(** Two bookings that differ at most in their times. *)
Definition same_but_times (b b' : booking) : Prop :=
  b' = Booking (bk_id b) (bk_business_id b) (bk_customer_id b) (bk_service_id b)
         (bk_staff_id b) (bk_start_time b') (bk_end_time b') (bk_status b)
         (bk_notes b).

(** Two worlds that differ at most in the times of their bookings. *)
Definition retimed (w w' : world) : Prop :=
  Forall2 same_but_times (bookings (db w)) (bookings (db w'))
  /\ users (db w') = users (db w)
  /\ businesses (db w') = businesses (db w)
  /\ services (db w') = services (db w)
  /\ customers (db w') = customers (db w)
  /\ rls w' = rls w /\ session w' = session w
  /\ uuids w' = uuids w /\ uuid_count w' = uuid_count w
  /\ faults w' = faults w.

(** Two forms that differ at most in their times. *)
Definition same_form_but_times (f f' : Bookings.form) : Prop :=
  Bookings.customer_id f' = Bookings.customer_id f
  /\ Bookings.service_id f' = Bookings.service_id f
  /\ Bookings.staff_id f' = Bookings.staff_id f
  /\ Bookings.notes f' = Bookings.notes f
  /\ Bookings.status f' = Bookings.status f.

Lemma retimed_rows l l' :
  Forall2 same_but_times l l' -> booking_row <$> l' = booking_row <$> l.
Proof.
  induction 1 as [|b b' l l' Hb _ IH]; [done|].
  rewrite !fmap_cons, IH. f_equal. by rewrite Hb.
Qed.

Lemma retimed_keys l l' :
  Forall2 same_but_times l l' -> bk_id <$> l' = bk_id <$> l.
Proof.
  induction 1 as [|b b' l l' Hb _ IH]; [done|].
  rewrite !fmap_cons, IH. f_equal. by rewrite Hb.
Qed.

Lemma bookings_insert_retimed d d' w w' :
  retimed w w' ->
  booking_row (booking_of "" d') = booking_row (booking_of "" d) ->
  bd_customer_id d' = bd_customer_id d -> bd_service_id d' = bd_service_id d ->
  (backend (Bookings_insert d') w').1 = (backend (Bookings_insert d) w).1.
Proof.
  intros (Hbk & Hu & Hbz & Hsv & Hcu & Hrls & Hs & Hui & Huc & Hf) Hrow Hc Hsvc.
  cbn [backend]. unfold faulty. rewrite Hf.
  assert (forall fs, (bookings_insert d' (set_faults fs w')).1
                     = (bookings_insert d (set_faults fs w)).1
                     /\ (bookings_insert d' w').1 = (bookings_insert d w).1) as Hop.
  { assert (forall v v', db v' = db w' -> db v = db w -> rls v' = rls w' ->
              rls v = rls w -> session v' = session w' -> session v = session w ->
              uuids v' = uuids w' -> uuids v = uuids w ->
              uuid_count v' = uuid_count w' -> uuid_count v = uuid_count w ->
              (bookings_insert d' v').1 = (bookings_insert d v).1) as Hgen.
    { intros v v' Hd' Hd Hr' Hr Hs' Hs0 Hu' Hu0 Hc' Hc0.
      unfold bookings_insert, next_uuid. cbn [fst snd].
      unfold may, rls_session, rls_tables, booking_fks_ok.
      cbn [db rls session].
      rewrite Hd', Hd, Hr', Hr, Hs', Hs0, Hu', Hu0, Hc', Hc0.
      rewrite Hu, Hbz, Hsv, Hcu, Hrls, Hs, Hui, Huc.
      rewrite (retimed_rows _ _ Hbk), (has_same_keys _ _ _ _ (retimed_keys _ _ Hbk)).
      assert (forall id, booking_row (booking_of id d') = booking_row (booking_of id d))
        as Hrow'.
      { intros id. unfold booking_row, booking_of in *. cbn in *. congruence. }
      rewrite Hrow'. cbn [booking_of bk_business_id bk_customer_id bk_service_id bk_id].
      assert (bd_business_id d' = bd_business_id d) as ->.
      { unfold booking_row, booking_of in Hrow. cbn in Hrow. congruence. }
      rewrite Hc, Hsvc.
      destruct (negb _); [done|]. destruct (negb _); [done|].
      by destruct (has _ _ _). }
    intros fs. split; by apply Hgen. }
  destruct (faults w) as [|[f|] fs]; [apply (Hop [])|done|apply (Hop fs)].
Qed.


Lemma bookings_insert_adds d w id w1 :
  backend (Bookings_insert d) w = (Ok id, w1) ->
  bookings (db w1) = bookings (db w) ++ [booking_of id d].
Proof.
  cbn [backend]. intros (w0 & H & Hd & _)%faulty_Ok.
  unfold bookings_insert, next_uuid in H. cbn [fst snd db] in H.
  destruct (negb _); [done|]. destruct (negb _); [done|].
  destruct (has _ _ _); [done|]. injection H as <- <-. cbn. by rewrite Hd.
Qed.

Lemma last_visit_keeps_bookings t id w :
  bookings (db (backend (Customers_update_last_visit t id) w).2) = bookings (db w).
Proof.
  cbn [backend]. unfold faulty, customers_update_last_visit, customers_update_with.
  destruct (faults w) as [|[f|] fs]; try done.
  all: destruct (existsb _ _); [done|]; by destruct (existsb _ _).
Qed.

Lemma payments_insert_keeps_bookings k a st w :
  bookings (db (backend (Payments_insert k a st) w).2) = bookings (db w).
Proof.
  cbn [backend]. unfold faulty, payments_insert, next_uuid.
  destruct (faults w) as [|[f|] fs]; try done; cbn [fst snd db].
  all: destruct (negb _); [done|]; destruct (negb _); [done|];
    by destruct (_ || _).
Qed.

Lemma bookings_handleSubmit_created
    user services formData st w business_id start end_ id w1 :
  business_id_of user = Some business_id ->
  Bookings.customer_id formData <> "" ->
  Bookings.service_id formData <> "" ->
  Bookings.start_time formData = Some start ->
  Bookings.end_time formData = Some end_ ->
  editing st = None ->
  backend (Bookings_insert (bookingData_of business_id formData start end_)) w
  = (Ok id, w1) ->
  booking_of id (bookingData_of business_id formData start end_)
  ∈ bookings (db (world_of (run (Bookings.handleSubmit user services formData st) w))).
Proof.
  intros Hb Hc Hs Hstart Hend Hedit Hins.
  unfold Bookings.handleSubmit. rewrite Hb, (or_null_Some _ Hc), (or_null_Some _ Hs).
  rewrite Hstart, Hend. cbn [editing setSubmitting setError]. rewrite Hedit.
  fold (bookingData_of business_id formData start end_).
  rewrite world_of_call, Hins. cbn [fst snd].
  pose proof (bookings_insert_adds _ _ _ _ Hins) as Hadd.
  rewrite world_of_call.
  pose proof (last_visit_keeps_bookings start (Bookings.customer_id formData) w1) as Hlv.
  destruct (backend (Customers_update_last_visit _ _) w1) as [x2 w2]. cbn [fst snd] in *.
  assert (forall w3, bookings (db w3) = bookings (db w2) ->
            booking_of id (bookingData_of business_id formData start end_)
            ∈ bookings (db (world_of (run
                (st0 ← Bookings.loadBookings user
                         (handleCloseModal (setSubmitting true (setError "" st)));
                 mret (setSubmitting false st0)) w3)))) as Hdone.
  { intros w3 H3. rewrite world_of_bind, run_ret. cbn [world_of fst snd].
    rewrite loadBookings_db, H3, Hlv, Hadd.
    apply elem_of_app. right. apply list_elem_of_here. }
  destruct (List.find _ services) as [service|];
    [destruct (Q_positive (sv_price service))|].
  - rewrite world_of_call. apply Hdone.
    apply payments_insert_keeps_bookings.
  - by apply Hdone.
  - by apply Hdone.
Qed.

(** X12. Nothing in the creation of a booking looks at times. Take two
    worlds that agree on users, businesses, services, customers, policies,
    session, ids to come and injected failures, and whose bookings differ
    at most in their start and end times; and two forms with the same
    customer, service, staff, notes and status, each with some start and
    some end time. Then [handleSubmit] shows the same error line in both,
    and when it shows none, each world has the new booking, with the times
    of its form: a time slot that is already taken, or an end before the
    start, is accepted exactly as a free one. *)
Theorem bookings_handleSubmit_ignores_times
    (user : option user) (services : list service)
    (formData formData' : Bookings.form) (st : page_state booking)
    (w w' : world) (business_id : string) (start end_ start' end' : timestamp) :
  business_id_of user = Some business_id ->
  editing st = None ->
  Bookings.customer_id formData <> "" ->
  Bookings.service_id formData <> "" ->
  Bookings.start_time formData = Some start ->
  Bookings.end_time formData = Some end_ ->
  Bookings.start_time formData' = Some start' ->
  Bookings.end_time formData' = Some end' ->
  same_form_but_times formData formData' ->
  retimed w w' ->
  let r := run (Bookings.handleSubmit user services formData st) w in
  let r' := run (Bookings.handleSubmit user services formData' st) w' in
  error (result_of r') = error (result_of r)
  /\ (error (result_of r) = "" ->
      exists id,
        booking_of id (bookingData_of business_id formData start end_)
          ∈ bookings (db (world_of r))
        /\ booking_of id (bookingData_of business_id formData' start' end')
          ∈ bookings (db (world_of r'))).
Proof.
  intros Hb Hedit Hc Hs Hstart Hend Hstart' Hend' Hform Hw. cbv zeta.
  destruct Hform as (Hc' & Hs' & Hstaff & Hnotes & Hstatus).
  pose proof (bookings_insert_retimed
                (bookingData_of business_id formData start end_)
                (bookingData_of business_id formData' start' end') w w' Hw)
    as Hsame.
  specialize (Hsame eq_refl Hc' Hs').
  rewrite (create_error user services formData st w business_id start end_)
    by done.
  rewrite (create_error user services formData' st w' business_id start' end')
    by (done || congruence).
  pose proof (bookings_handleSubmit_created user services formData st w
                business_id start end_) as G1.
  pose proof (bookings_handleSubmit_created user services formData' st w'
                business_id start' end') as G2.
  destruct (backend (Bookings_insert (bookingData_of business_id formData start end_)) w)
    as [[id|e] w1];
  destruct (backend (Bookings_insert (bookingData_of business_id formData' start' end')) w')
    as [[id'|e'] w1']; cbn [fst] in *; try done.
  - injection Hsame as ->.
    split; [done|]. intros _. exists id. split.
    + by eapply G1.
    + eapply G2; try done; congruence.
  - injection Hsame as ->.
    split; [done|]. intros H. by apply or_default_nonempty in H.
Qed.


(** The booking of [booked_world] takes 100 to 200; in the second world the
    same booking is at 5000 to 6000, and the form asks for 100 to 200 in
    both. *)
Definition booked_later_world : world :=
  set_db (set_bookings
            [Booking "booking-1" "business-1" "customer-1" "service-1" None
               5000 6000 COMPLETED None] booked_db) salon_world.

Lemma bookings_handleSubmit_ignores_times_witness :
  let r := run (Bookings.handleSubmit (Some owner) [haircut; consultation]
                  paid_form closed_page) booked_later_world in
  let r' := run (Bookings.handleSubmit (Some owner) [haircut; consultation]
                   paid_form closed_page) booked_world in
  error (result_of r') = error (result_of r)
  /\ (error (result_of r) = "" ->
      exists id,
        booking_of id (bookingData_of "business-1" paid_form 100 200)
          ∈ bookings (db (world_of r))
        /\ booking_of id (bookingData_of "business-1" paid_form 100 200)
          ∈ bookings (db (world_of r'))).
Proof.
  apply (bookings_handleSubmit_ignores_times (Some owner) [haircut; consultation]
           paid_form paid_form closed_page booked_later_world booked_world
           "business-1" 100 200 100 200).
  all: try reflexivity.
  - discriminate.
  - discriminate.
  - repeat split.
  - repeat split. repeat constructor.
Defined.

(** *** signIn *)

Lemma auth_signIn_Ok email password w a w1 :
  backend (Auth_signInWithPassword email password) w = (Ok a, w1) ->
  au_email_confirmed a = true /\ session w1 = Some (au_id a)
  /\ db w1 = db w /\ rls w1 = rls w.
Proof.
  cbn [backend]. intros (w0 & H & Hd & Hr & _)%faulty_Ok.
  unfold auth_signIn in H. destruct (List.find _ _) as [a'|]; [|done].
  destruct (negb (bool_decide _)); [done|].
  destruct (au_email_confirmed a') eqn:Ec; [|done]. cbn [negb] in H.
  injection H as <- <-. by rewrite <- Hd, <- Hr.
Qed.

Lemma users_select_maybe_Some id w u w1 :
  backend (Users_select_maybe id) w = (Ok (Some u), w1) ->
  u_id u = id /\ session w1 = session w.
Proof.
  cbn [backend]. intros (w0 & H & _ & _ & Hs & _)%faulty_Ok.
  unfold users_select_maybe in H.
  destruct (users_select id w0) as [|u' [|]] eqn:E; try done.
  injection H as <- <-. split; [|done].
  assert (u' ∈ users_select id w0) as Hin by (rewrite E; apply list_elem_of_here).
  apply elem_of_filter_list in Hin as [_ [H _]%andb_prop].
  by apply bool_decide_eq_true_1 in H.
Qed.

Lemma users_select_maybe_session id w :
  session (backend (Users_select_maybe id) w).2 = session w.
Proof.
  cbn [backend]. unfold faulty, users_select_maybe.
  by destruct (faults w) as [|[f|] fs].
Qed.

Lemma users_insert_Ok u w u' w1 :
  backend (Users_insert u) w = (Ok u', w1) -> u' = u /\ session w1 = session w.
Proof.
  cbn [backend]. intros (w0 & H & _ & _ & Hs & _)%faulty_Ok.
  unfold users_insert in H. destruct (negb _); [done|]. destruct (negb _); [done|].
  destruct (_ || _); [done|]. by injection H as <- <-.
Qed.

(** What [signIn] has done when it has called [setUser]. *)
Definition signed_in (w : world) (r : option user * AuthContext.outcome) : Prop :=
  forall u, r.1 = Some u ->
    r.2 = AuthContext.Returned
    /\ (u_role u = Rls.BUSINESS_OWNER -> u_email_verified u = true)
    /\ session w = Some (u_id u).

Lemma signIn_try_signed_in status email password w :
  let r := run (AuthContext.signIn_try status email password) w in
  signed_in (world_of r) (result_of r).
Proof.
  cbv zeta. unfold AuthContext.signIn_try.
  rewrite result_of_call, world_of_call.
  destruct (backend (Auth_signInWithPassword _ _) w) as [[authUser|authError] w1] eqn:E1;
    cbn [fst snd].
  2: { destruct (_ || _); [by intros u|]. destruct (bool_decide _); by intros u. }
  apply auth_signIn_Ok in E1 as (Hconf & Hs1 & _).
  destruct (bool_decide (au_id authUser = "")); [by intros u|].
  rewrite result_of_call, world_of_call.
  destruct (backend (Users_select_maybe _) w1) as [[[profile|]|profileError] w2] eqn:E2;
    cbn [fst snd].
  - apply users_select_maybe_Some in E2 as [Hid Hs2].
    rewrite result_of_call, world_of_call. cbn [backend fst snd].
    destruct (bool_decide (u_role profile = Rls.BUSINESS_OWNER)) eqn:Er;
      destruct (u_email_verified profile) eqn:Ev; cbn [negb andb].
    all: try (rewrite result_of_call; by intros u).
    all: rewrite run_ret; intros u [= <-]; cbn [result_of world_of fst snd].
    all: split; [done|]; split; [|congruence].
    + done.
    + done.
    + apply bool_decide_eq_false_1 in Er. done.
  - pose proof (users_select_maybe_session (au_id authUser) w1) as Hs2.
    rewrite E2 in Hs2. cbn [snd] in Hs2.
    rewrite result_of_call, world_of_call. cbn [backend fst snd].
    rewrite result_of_call, world_of_call.
    destruct (backend (Users_insert _) w2) as [[newProfile|insertError] w3] eqn:E3;
      cbn [fst snd].
    + apply users_insert_Ok in E3 as [-> Hs3].
      rewrite result_of_call, world_of_call. cbn [backend fst snd].
      rewrite run_ret. intros u [= <-]. cbn [result_of world_of fst snd].
      cbn [u_role u_email_verified u_id]. split; [done|]. split; [done|]. congruence.
    + rewrite result_of_call. cbn [backend fst snd].
      destruct (bool_decide _); [by intros u|]. destruct (AuthContext.startsWith _ _); by intros u.
  - rewrite result_of_call. cbn [backend fst snd]. rewrite result_of_call.
    cbn [backend fst snd].
    destruct (_ || _); [by intros u|]. destruct (bool_decide _); [by intros u|].
    destruct (AuthContext.startsWith _ _); by intros u.
Qed.

(** X29. Whenever [signIn] calls [setUser], it returns without throwing,
    the session is that user's, and a BUSINESS_OWNER among them has a
    verified e-mail address: no path of [signIn] makes an unverified
    business owner the current user. *)
Theorem signIn_admits_no_unverified_owner
    (status_is_400 : pg_error -> bool) (email password : string) (w : world) :
  let r := run (AuthContext.signIn status_is_400 email password) w in
  forall u, (result_of r).1 = Some u ->
    (result_of r).2 = AuthContext.Returned
    /\ (u_role u = Rls.BUSINESS_OWNER -> u_email_verified u = true)
    /\ session (world_of r) = Some (u_id u).
Proof.
  cbv zeta. pose proof (signIn_try_signed_in status_is_400 email password w) as Htry.
  cbv zeta in Htry. unfold AuthContext.signIn.
  rewrite result_of_bind, world_of_bind.
  destruct (result_of (run (AuthContext.signIn_try _ _ _) w)) as [u' [|msg]].
  - rewrite run_ret. exact Htry.
  - intros v Hv. rewrite result_of_call in Hv. cbn [backend fst snd] in Hv.
    assert (u' = Some v) as ->.
    { by destruct (_ || _ || _). }
    by destruct (Htry v eq_refl).
Qed.


Lemma signIn_admits_no_unverified_owner_witness :
  let r := run (AuthContext.signIn (fun _ => false) "owner@example.com"
                  "correct horse") salon_world in
  (result_of r).2 = AuthContext.Returned
  /\ (u_role owner = Rls.BUSINESS_OWNER -> u_email_verified owner = true)
  /\ session (world_of r) = Some (u_id owner).
Proof.
  apply (signIn_admits_no_unverified_owner (fun _ => false) "owner@example.com"
           "correct horse" salon_world owner).
  by vm_compute.
Defined.

Lemma auth_signIn_bad_credentials email password w :
  (forall a, a ∈ auth_users (auth w) -> au_email a = email ->
     au_password a <> password) ->
  auth_signIn email password w = (Err invalid_credentials, w).
Proof.
  intros Hbad. unfold auth_signIn.
  destruct (List.find _ _) as [a|] eqn:E; [|done].
  apply find_some in E as [Ha%list_elem_of_In He%bool_decide_eq_true_1].
  by rewrite bool_decide_eq_false_2 by (by apply Hbad).
Qed.

(** X18. When no account has this e-mail address with this password,
    and no failure is injected, [signIn] throws "Invalid email or
    password" after one request to the auth service: it does not ask for a
    profile, and the session and the tables are as before. *)
Theorem signIn_rejects_bad_credentials
    (status_is_400 : pg_error -> bool) (email password : string) (w : world) :
  no_fault w ->
  (forall a, a ∈ auth_users (auth w) -> au_email a = email ->
     au_password a <> password) ->
  let r := run (AuthContext.signIn status_is_400 email password) w in
  result_of r = (None, AuthContext.Thrown "Invalid email or password")
  /\ log_of r = [Request (Auth_signInWithPassword email password);
                 Request (Console_error "Authentication or profile creation failed:")]
  /\ session (world_of r) = session w /\ db (world_of r) = db w.
Proof.
  intros Hnf Hbad. cbv zeta.
  assert (exists w1, backend (Auth_signInWithPassword email password) w
                     = (Err invalid_credentials, w1)
                     /\ session w1 = session w /\ db w1 = db w) as (w1 & E & Hs & Hd).
  { cbn [backend]. unfold faulty, no_fault in *.
    destruct (faults w) as [|[f|] fs]; [|done|].
    - rewrite auth_signIn_bad_credentials by done. eauto.
    - rewrite auth_signIn_bad_credentials by done. eauto. }
  unfold AuthContext.signIn, AuthContext.signIn_try.
  rewrite run_bind, run_call, E. cbn [fst snd message invalid_credentials].
  replace (includes "fetch" "Invalid login credentials"
           || includes "Network" "Invalid login credentials")
    with false by (by vm_compute).
  rewrite bool_decide_eq_true_2 by done. rewrite run_ret.
  rewrite run_call. cbn [backend fst snd].
  replace (includes "fetch" "Invalid email or password"
           || includes "Network" "Invalid email or password"
           || includes "Failed to fetch" "Invalid email or password")
    with false by (by vm_compute).
  rewrite run_ret. cbn [result_of world_of log_of fst snd app]. done.
Qed.

Lemma signIn_rejects_bad_credentials_witness :
  let r := run (AuthContext.signIn (fun _ => false) "owner@example.com" "guess")
             salon_world in
  result_of r = (None, AuthContext.Thrown "Invalid email or password")
  /\ log_of r = [Request (Auth_signInWithPassword "owner@example.com" "guess");
                 Request (Console_error "Authentication or profile creation failed:")]
  /\ session (world_of r) = session salon_world
  /\ db (world_of r) = db salon_world.
Proof.
  apply (signIn_rejects_bad_credentials (fun _ => false) "owner@example.com"
           "guess" salon_world).
  - exact I.
  - intros a Ha He. repeat (apply elem_of_cons in Ha as [->|Ha]).
    + discriminate.
    + discriminate He.
    + by apply elem_of_nil in Ha.
Defined.






(** *** signUp when the trigger has created the profile *)

Lemma filter_fresh_snoc {A} (f : A -> bool) (l : list A) x :
  (forall y, y ∈ l -> f y = false) -> f x = true -> List.filter f (l ++ [x]) = [x].
Proof.
  intros Hl Hx. rewrite List.filter_app. simpl. rewrite Hx.
  replace (List.filter f l) with (@nil A); [done|].
  symmetry. induction l as [|y l IH]; [done|]. simpl.
  rewrite (Hl y) by apply list_elem_of_here.
  apply IH. intros z Hz. by apply Hl, list_elem_of_further.
Qed.

(** X27. With the trigger [handle_new_user] installed, e-mail addresses
    confirmed at once, the README's policies and no injected failure, the
    sign-up of a new e-mail address ends with the profile the trigger has
    inserted: [signUp] reads it back, sets it as the user and returns. The
    [businessId] it was given is written nowhere, so the profile of an
    invited staff member has no business; the only writing request is the
    sign-up itself. *)
Theorem signUp_keeps_the_trigger_profile
    (email password firstName lastName : string) (role : Rls.user_role)
    (businessId : option string) (w : world) :
  faults w = [] ->
  Rls.after_readme_order = Some (rls w) ->
  trigger_installed (auth w) = true ->
  auto_confirm (auth w) = true ->
  has au_email email (auth_users (auth w)) = false ->
  has u_email email (users (db w)) = false ->
  has u_id (uuids w (uuid_count w)) (users (db w)) = false ->
  uuids w (uuid_count w) <> "" ->
  let profile :=
    User (uuids w (uuid_count w)) email firstName lastName role None true in
  let r := run (AuthContext.signUp email password firstName lastName role
                  businessId) w in
  result_of r = (Some profile, AuthContext.Returned)
  /\ users (db (world_of r)) = users (db w) ++ [profile]
  /\ List.filter is_mutation (log_of r)
     = [Request (Auth_signUp email password firstName lastName role)].
Proof.
  intros Hf Hrls Htrig Hauto Hnew Hemail Hid Hne. cbv zeta.
  pose proof (fun s db r H =>
    RlsSpec.users_grant_spec (rls w) db s Rls.SELECT r Hrls H) as Hpol.
  clear Hrls.
  set (id := uuids w (uuid_count w)) in *.
  set (profile := User id email firstName lastName role None true).
  set (a := AuthUser id email true password firstName lastName (Some role)).
  assert (exists w1,
    backend (Auth_signUp email password firstName lastName role) w = (Ok a, w1)
    /\ db w1 = set_users (users (db w) ++ [profile]) (db w)
    /\ rls w1 = rls w /\ session w1 = Some id /\ faults w1 = [])
    as (w1 & E1 & Hd1 & Hr1 & Hs1 & Hf1).
  { cbn [backend]. unfold faulty. rewrite Hf. unfold auth_signUp, next_uuid.
    rewrite Hnew. cbn [fst snd auth]. rewrite Htrig, Hauto. unfold handle_new_user.
    cbn [db au_id au_email au_email_confirmed]. fold id. rewrite Hid, Hemail.
    eexists. split; [reflexivity|]. cbn. by rewrite Hauto. }
  unfold AuthContext.signUp, AuthContext.signUp_try.
  rewrite run_bind, run_call, E1. cbn [fst snd au_id a].
  rewrite bool_decide_eq_false_2 by done.
  rewrite run_call. cbn [backend fst snd].
  assert (backend (Users_select_maybe id) (set_clock (clock w1 + 1000) w1)
          = (Ok (Some profile), set_clock (clock w1 + 1000) w1)) as E2.
  { cbn [backend]. unfold faulty. cbn [faults set_clock]. rewrite Hf1.
    unfold users_select_maybe, users_select. cbn [db set_clock]. rewrite Hd1.
    cbn [users set_users]. rewrite filter_fresh_snoc; [done| |].
    - intros u Hu. apply has_false in Hid.
      rewrite bool_decide_eq_false_2; [done|]. intros Hu'. apply Hid.
      rewrite <- Hu'. by apply list_elem_of_fmap_2.
    - rewrite bool_decide_eq_true_2 by done. cbn [andb].
      unfold may. cbn [rls set_clock]. rewrite Hr1, Hpol.
      + apply bool_decide_eq_true_2. unfold rls_session. cbn [session set_clock].
        by rewrite Hs1.
      + unfold rls_session. cbn [session set_clock]. by rewrite Hs1. }
  rewrite run_call, E2. cbn [fst snd].
  unfold AuthContext.signUp_finish. cbn [au_email_confirmed a negb].
  rewrite andb_false_r, !run_ret. cbn [result_of world_of log_of fst snd app].
  split; [done|]. split; [|done]. cbn [db set_clock]. by rewrite Hd1.
Qed.

Definition visitor_world : world := set_session None salon_world.

Lemma signUp_keeps_the_trigger_profile_witness :
  let profile := User "uuid-0" "bob@example.com" "Bob" "B" Rls.STAFF None true in
  let r := run (AuthContext.signUp "bob@example.com" "long enough" "Bob" "B"
                  Rls.STAFF (Some "business-1")) visitor_world in
  result_of r = (Some profile, AuthContext.Returned)
  /\ users (db (world_of r)) = users (db visitor_world) ++ [profile]
  /\ List.filter is_mutation (log_of r)
     = [Request (Auth_signUp "bob@example.com" "long enough" "Bob" "B" Rls.STAFF)].
Proof.
  apply (signUp_keeps_the_trigger_profile "bob@example.com" "long enough" "Bob"
           "B" Rls.STAFF (Some "business-1") visitor_world).
  - reflexivity.
  - exact RlsSpec.after_readme_order_is_readme_state.
  - reflexivity.
  - reflexivity.
  - reflexivity.
  - reflexivity.
  - reflexivity.
  - discriminate.
Defined.


End ClientSpec.
